(** * message_ix.models: the MESSAGE / MACRO model classes

    A shallow embedding of [message_ix/models.py] and the properties of the
    model classes it defines: the schema tables, the default options, the
    option-file handling of [GAMSModel.run], the version check of [MACRO]
    and the scraping of the GAMS release.

    Python objects that the module mutates or copies (the dictionaries) live
    in an explicit object store; the file system and the external programs
    are part of the state that every operation threads through. *)

From Stdlib Require Import ZArith Ascii String DecimalString Lia.
From stdpp Require Import gmap strings list fin_maps.

Local Open Scope Z_scope.
Set Warnings "-register-all".

(* ===================================================================== *)
(** * Python strings *)
(* ===================================================================== *)

Module PyStr.

(** The double quote, which the string patterns of the module contain. *)
Definition dq : string := String (ascii_of_nat 34) EmptyString.

(** The line feed. *)
Definition nl : string := String (ascii_of_nat 10) EmptyString.

Definition chars (s : string) : list ascii := list_ascii_of_string s.
Definition of_chars (l : list ascii) : string := string_of_list_ascii l.

(** [a < b] on [str]: lexicographic on code points, a proper prefix first. *)
Fixpoint lt (a b : string) : bool :=
  match a, b with
  | EmptyString, EmptyString => false
  | EmptyString, String _ _ => true
  | String _ _, EmptyString => false
  | String c a', String d b' =>
      if (nat_of_ascii c <? nat_of_ascii d)%nat then true
      else if (nat_of_ascii d <? nat_of_ascii c)%nat then false
      else lt a' b'
  end.

(** [sep.join(parts)]. *)
Fixpoint join (sep : string) (parts : list string) : string :=
  match parts with
  | [] => EmptyString
  | [p] => p
  | p :: rest => String.append p (String.append sep (join sep rest))
  end.

(** [str(n)] for an [int]. *)
Definition of_int (z : Z) : string := NilZero.string_of_int (Z.to_int z).

(** [s.split(c)] for a one-character separator. *)
Fixpoint split_chars (c : ascii) (cur : list ascii) (l : list ascii)
  : list (list ascii) :=
  match l with
  | [] => [rev cur]
  | x :: l' =>
      if Ascii.eqb x c then rev cur :: split_chars c [] l'
      else split_chars c (x :: cur) l'
  end.

Definition split (c : ascii) (s : string) : list string :=
  map of_chars (split_chars c [] (chars s)).

End PyStr.

Notation "a +++ b" := (String.append a b)
  (at level 60, right associativity).

(* ===================================================================== *)
(** * Python values, exceptions and the object store *)
(* ===================================================================== *)

(** A [pathlib] path: whether it is anchored at the root, and its parts.
    Drives are not modelled. *)
Abbreviation path := (bool * list string)%type.

(** Scalars. A [float] is kept as its [repr], the only thing the module
    ever asks of one ([str.format]). *)
Inductive atom :=
| ANone
| ABool (b : bool)
| AInt (z : Z)
| AFloat (repr : string)
| AStr (s : string)
| APath (p : path).

(** Values. A dictionary is an object in the store and is held by
    reference; the lists of the module hold scalars and are never mutated,
    so they are kept by value. *)
Inductive value :=
| VAtom (a : atom)
| VList (l : list atom)
| VRef (l : nat).

(** What a display such as [dict(ix_type='par', idx_sets=[...])] denotes
    before it is evaluated into the store. *)
Inductive lit :=
| LAtom (a : atom)
| LList (l : list atom)
| LDict (items : list (string * lit)).

Inductive exn :=
| RuntimeError (msg : string)
| KeyError (key : string)
| TypeError
| ValueError
| AttributeError
| RecursionError
| FileNotFoundError (p : path)
| FileExistsError (p : path)
| IsADirectoryError (p : path)
| NotADirectoryError (p : path)
| OSError (p : path)
| CalledProcessError
| OtherError (what : string)
| NotModelled (what : string).

Inductive result (A : Type) :=
| Ok (a : A)
| Raise (e : exn).
Arguments Ok {A} a.
Arguments Raise {A} e.

#[global] Instance atom_eq_dec : EqDecision atom.
Proof. solve_decision. Defined.
#[global] Instance value_eq_dec : EqDecision value.
Proof. solve_decision. Defined.

(** ** Dictionaries: insertion-ordered, one binding per key *)

Section Dict.
Context {V : Type}.

Fixpoint dict_get (k : string) (d : list (string * V)) : option V :=
  match d with
  | [] => None
  | (k', v) :: d' => if String.eqb k k' then Some v else dict_get k d'
  end.

(** [d[k] = v]: an existing key keeps its place, a new one goes last. *)
Fixpoint dict_set (k : string) (v : V) (d : list (string * V))
  : list (string * V) :=
  match d with
  | [] => [(k, v)]
  | (k', v') :: d' =>
      if String.eqb k k' then (k, v) :: d' else (k', v') :: dict_set k v d'
  end.

(** [del d[k]] *)
Fixpoint dict_del (k : string) (d : list (string * V)) : list (string * V) :=
  match d with
  | [] => []
  | (k', v') :: d' =>
      if String.eqb k k' then dict_del k d' else (k', v') :: dict_del k d'
  end.

(** [d.update(u)] *)
Definition dict_update (d u : list (string * V)) : list (string * V) :=
  fold_left (fun acc kv => dict_set (fst kv) (snd kv) acc) u d.

(** [d.setdefault(k, v)], for its effect on [d]. *)
Definition dict_setdefault (k : string) (v : V) (d : list (string * V))
  : list (string * V) :=
  match dict_get k d with
  | Some _ => d
  | None => dict_set k v d
  end.

(** A display [{k1: v1, ...}]: the pairs are inserted left to right. *)
Definition dict_of_items (kvs : list (string * V)) : list (string * V) :=
  dict_update [] kvs.

Definition dict_keys (d : list (string * V)) : list string := map fst d.

(** [collections.ChainMap]: the first map that has the key answers. *)
Fixpoint chain_get (k : string) (maps : list (list (string * V)))
  : option V :=
  match maps with
  | [] => None
  | d :: rest =>
      match dict_get k d with
      | Some v => Some v
      | None => chain_get k rest
      end
  end.

End Dict.

(** ** The store *)

Abbreviation dict := (list (string * value)).
Abbreviation heap := (list (list (string * value))).
Abbreviation memo := (gmap nat nat).

(** Evaluating a display allocates its dictionaries, innermost first. *)
Fixpoint alloc (t : lit) (h : heap) : value * heap :=
  match t with
  | LAtom a => (VAtom a, h)
  | LList l => (VList l, h)
  | LDict items =>
      let fix alloc_items (items : list (string * lit)) (h : heap)
        : dict * heap :=
        match items with
        | [] => ([], h)
        | (k, t') :: rest =>
            let '(v, h1) := alloc t' h in
            let '(kvs, h2) := alloc_items rest h1 in
            ((k, v) :: kvs, h2)
        end in
      let '(kvs, h') := alloc_items items h in
      (VRef (length h'), h' ++ [dict_of_items kvs])
  end.

(** The display a value denotes in a store, followed to depth [n]. *)
Fixpoint reify_items (rec : value -> option lit) (kvs : dict)
  : option (list (string * lit)) :=
  match kvs with
  | [] => Some []
  | (k, v) :: rest =>
      match rec v, reify_items rec rest with
      | Some t, Some ts => Some ((k, t) :: ts)
      | _, _ => None
      end
  end.

Fixpoint reify (n : nat) (h : heap) (v : value) : option lit :=
  match v with
  | VAtom a => Some (LAtom a)
  | VList l => Some (LList l)
  | VRef l =>
      match n with
      | O => None
      | S n' =>
          match h !! l with
          | None => None
          | Some kvs =>
              match reify_items (reify n' h) kvs with
              | Some ts => Some (LDict ts)
              | None => None
              end
          end
      end
  end.

(** [copy.copy] of a dictionary: a new object with the same bindings. *)
Definition shallow_copy (v : value) (h : heap) : result (value * heap) :=
  match v with
  | VRef l =>
      match h !! l with
      | Some d => Ok (VRef (length h), h ++ [d])
      | None => Raise TypeError
      end
  | _ => Ok (v, h)
  end.

(** [copy.deepcopy]: [_deepcopy_dict] makes the new dictionary, records it
    in the memo, then copies the bindings into it one by one. The depth of
    the recursion is bounded by [n], the interpreter's recursion limit. *)
Fixpoint copy_items
    (rec : value -> heap * memo -> result (value * (heap * memo)))
    (y : nat) (kvs : dict) (st : heap * memo) : result (heap * memo) :=
  match kvs with
  | [] => Ok st
  | (k, v) :: rest =>
      match rec v st with
      | Raise e => Raise e
      | Ok (v', (h, m)) =>
          copy_items rec y rest
            (<[y := dict_set k v' (default [] (h !! y))]> h, m)
      end
  end.

Fixpoint deepcopy_memo (n : nat) (v : value) (st : heap * memo)
  : result (value * (heap * memo)) :=
  match v with
  | VRef l =>
      match st.2 !! l with
      | Some y => Ok (VRef y, st)
      | None =>
          match n with
          | O => Raise RecursionError
          | S n' =>
              match st.1 !! l with
              | None => Raise TypeError
              | Some kvs =>
                  let y := length st.1 in
                  match copy_items (deepcopy_memo n') y kvs
                          (st.1 ++ [[]], <[l := y]> st.2) with
                  | Ok st' => Ok (VRef y, st')
                  | Raise e => Raise e
                  end
              end
          end
      end
  | _ => Ok (v, st)
  end.

Definition deepcopy (n : nat) (v : value) (h : heap) : result (value * heap) :=
  match deepcopy_memo n v (h, ∅) with
  | Ok (v', (h', _)) => Ok (v', h')
  | Raise e => Raise e
  end.

(* ===================================================================== *)
(** * The file system and [pathlib] *)
(* ===================================================================== *)

Inductive node :=
| File (content : string)
| Dir.

Abbreviation filesystem := (gmap path node).

Module Pathlib.

(** [p / name] for a one-part relative [name], the only use in the
    module ('cplex.opt', 'version.gms', 'model', 'null.gms'). *)
Definition div (p : path) (name : string) : path := (p.1, p.2 ++ [name]).

(** [p.parent] *)
Definition parent (p : path) : path := (p.1, removelast p.2).

(** The parts one argument of [Path(...)] contributes: it is cut at the
    slashes, and empty and '.' parts are dropped. (On Windows a backslash
    cuts as well; the parts this module passes contain neither.) *)
Definition parts_of (s : string) : list string :=
  filter (fun x => x <> EmptyString /\ x <> "."%string)
         (PyStr.split "/"%char s).

Definition is_absolute (s : string) : bool :=
  match s with
  | String c _ => Ascii.eqb c "/"%char
  | EmptyString => false
  end.

(** [Path] of several arguments: they are joined; an absolute one starts over. *)
Definition Path (args : list string) : path :=
  fold_left
    (fun (p : path) s =>
       if is_absolute s then (true, parts_of s) else (p.1, p.2 ++ parts_of s))
    args (false, []).

(** [str(p)] with the separator [sep] of the platform. *)
Definition str (sep : string) (p : path) : string :=
  match p with
  | (false, []) => "."%string
  | (anchored, parts) =>
      (if anchored then sep else EmptyString) +++ PyStr.join sep parts
  end.

(** The index of the last ['.'] of a name, counted from the left. *)
Fixpoint last_dot (i : nat) (l : list ascii) : option nat :=
  match l with
  | [] => None
  | c :: l' =>
      match last_dot (S i) l' with
      | Some j => Some j
      | None => if Ascii.eqb c "."%char then Some i else None
      end
  end.

(** The stem of a file name: the name without its last suffix. A leading
    or a trailing dot starts no suffix. *)
Definition stem (name : string) : string :=
  let l := PyStr.chars name in
  match last_dot 0 l with
  | Some (S i) =>
      if (S (S i) <? length l)%nat then PyStr.of_chars (take (S i) l)
      else name
  | _ => name
  end.

(** [p.with_suffix(suffix)] *)
Definition with_suffix (p : path) (suffix : string) : path :=
  match last p.2 with
  | Some name => (p.1, removelast p.2 ++ [stem name +++ suffix])
  | None => p
  end.

(** [p.exists()] *)
Definition exists_ (p : path) (fs : filesystem) : bool :=
  bool_decide (is_Some (fs !! p)).

(** [p.read_text()] *)
Definition read_text (p : path) (fs : filesystem) : result string :=
  match fs !! p with
  | Some (File s) => Ok s
  | Some Dir => Raise (IsADirectoryError p)
  | None => Raise (FileNotFoundError p)
  end.

(** [p.write_text(s)]: the directory must be there; the file is created
    or replaced. *)
Definition write_text (p : path) (s : string) (fs : filesystem)
  : result unit * filesystem :=
  match fs !! p with
  | Some Dir => (Raise (IsADirectoryError p), fs)
  | _ =>
      match fs !! parent p with
      | Some Dir => (Ok tt, <[p := File s]> fs)
      | Some (File _) => (Raise (NotADirectoryError p), fs)
      | None => (Raise (FileNotFoundError p), fs)
      end
  end.

(** [p.unlink()] *)
Definition unlink (p : path) (fs : filesystem) : result unit * filesystem :=
  match fs !! p with
  | Some (File _) => (Ok tt, delete p fs)
  | Some Dir => (Raise (IsADirectoryError p), fs)
  | None => (Raise (FileNotFoundError p), fs)
  end.

(** No entry of the file system lies directly in [p]. *)
Definition is_empty_dir (p : path) (fs : filesystem) : bool :=
  bool_decide (map_Forall (fun q (_ : node) => q = p \/ parent q <> p) fs).

(** [p.rmdir()] *)
Definition rmdir (p : path) (fs : filesystem) : result unit * filesystem :=
  match fs !! p with
  | Some Dir =>
      if is_empty_dir p fs then (Ok tt, delete p fs)
      else (Raise (OSError p), fs)
  | Some (File _) => (Raise (NotADirectoryError p), fs)
  | None => (Raise (FileNotFoundError p), fs)
  end.

End Pathlib.

(* ===================================================================== *)
(** * The regular expressions of the module *)
(* ===================================================================== *)

Module Re.

(** The constructs the two patterns of the module are written with.
    A repetition applies to a set of characters. *)
Inductive regex :=
| Chr (c : ascii)                         (* a literal character *)
| Bol                                     (* ^ under re.MULTILINE *)
| Rep (greedy : bool) (p : ascii -> bool) (* [p]* and [p]*? *)
| Set_ (p : ascii -> bool)                (* one character of a set *)
| Seq (r1 r2 : regex)
| Group (r : regex).                      (* ( ... ), group 1 *)

Definition code (c : ascii) : nat := nat_of_ascii c.

(** \d, on the characters below 256. *)
Definition digit (c : ascii) : bool :=
  (48 <=? code c)%nat && (code c <=? 57)%nat.

(** \s, on the characters below 256. *)
Definition space (c : ascii) : bool :=
  ((9 <=? code c)%nat && (code c <=? 13)%nat)
  || ((28 <=? code c)%nat && (code c <=? 32)%nat)
  || (code c =? 133)%nat || (code c =? 160)%nat.

(** [.] without re.DOTALL *)
Definition dot (c : ascii) : bool := negb (code c =? 10)%nat.

(** [[\d\.]] *)
Definition digit_or_dot (c : ascii) : bool :=
  digit c || Ascii.eqb c "."%char.

(** A literal word. *)
Fixpoint word (l : list ascii) : regex :=
  match l with
  | [] => Rep true (fun _ => false)
  | [c] => Chr c
  | c :: l' => Seq (Chr c) (word l')
  end.

(** [p+] and [p+?] *)
Definition plus (greedy : bool) (p : ascii -> bool) : regex :=
  Seq (Set_ p) (Rep greedy p).

Section Matcher.
Context {R : Type}.

(** The continuation gets the text consumed so far (last character
    first), the text ahead and group 1. *)
Definition cont := list ascii -> list ascii -> option (list ascii) -> option R.

(** Greedy repetition: as many characters as possible, giving them
    back one at a time while the rest of the pattern fails. *)
Fixpoint rep_greedy (p : ascii -> bool) (seen rest : list ascii)
    (g : option (list ascii)) (k : cont) : option R :=
  match rest with
  | c :: rest' =>
      if p c then
        match rep_greedy p (c :: seen) rest' g k with
        | Some r => Some r
        | None => k seen rest g
        end
      else k seen rest g
  | [] => k seen rest g
  end.

(** Lazy repetition: as few characters as possible. *)
Fixpoint rep_lazy (p : ascii -> bool) (seen rest : list ascii)
    (g : option (list ascii)) (k : cont) : option R :=
  match k seen rest g with
  | Some r => Some r
  | None =>
      match rest with
      | c :: rest' => if p c then rep_lazy p (c :: seen) rest' g k else None
      | [] => None
      end
  end.

Fixpoint exec (r : regex) (seen rest : list ascii)
    (g : option (list ascii)) (k : cont) : option R :=
  match r with
  | Chr c =>
      match rest with
      | x :: rest' => if Ascii.eqb x c then k (x :: seen) rest' g else None
      | [] => None
      end
  | Set_ p =>
      match rest with
      | x :: rest' => if p x then k (x :: seen) rest' g else None
      | [] => None
      end
  | Bol =>
      match seen with
      | [] => k seen rest g
      | x :: _ => if (code x =? 10)%nat then k seen rest g else None
      end
  | Rep true p => rep_greedy p seen rest g k
  | Rep false p => rep_lazy p seen rest g k
  | Seq r1 r2 =>
      exec r1 seen rest g (fun seen' rest' g' => exec r2 seen' rest' g' k)
  | Group r1 =>
      exec r1 seen rest g
        (fun seen' rest' _ =>
           k seen' rest' (Some (rev (take (length seen' - length seen) seen'))))
  end.
End Matcher.

(** [re.search]: the leftmost position at which the pattern matches.
    The answer is group 1 of the match. *)
Fixpoint search_from (r : regex) (seen rest : list ascii)
  : option (option (list ascii)) :=
  match exec r seen rest None (fun _ _ g => Some g) with
  | Some g => Some g
  | None =>
      match rest with
      | c :: rest' => search_from r (c :: seen) rest'
      | [] => None
      end
  end.

Definition search (r : regex) (s : string) : option (option (list ascii)) :=
  search_from r [] (PyStr.chars s).

(** [re.search(r, s).group(1)]: no match gives [None], which has no
    [group]; a group that took no part in the match is [None]. *)
Definition search_group1 (r : regex) (s : string) : result atom :=
  match search r s with
  | Some (Some g) => Ok (AStr (PyStr.of_chars g))
  | Some None => Ok ANone
  | None => Raise AttributeError
  end.

End Re.

(* ===================================================================== *)
(** * State and exceptions *)
(* ===================================================================== *)

Record world := World { w_heap : heap; w_fs : filesystem }.

(** A computation reads and changes the world and returns or raises. *)
Definition M (A : Type) : Type := world -> result A * world.

Definition ret {A} (a : A) : M A := fun w => (Ok a, w).
Definition raise {A} (e : exn) : M A := fun w => (Raise e, w).
Definition bind {A B} (m : M A) (f : A -> M B) : M B :=
  fun w =>
    match m w with
    | (Ok a, w') => f a w'
    | (Raise e, w') => (Raise e, w')
    end.

Declare Scope py_scope.
Delimit Scope py_scope with py.
Notation "x <- m ;; k" := (bind m (fun x => k))
  (at level 100, m at next level, right associativity) : py_scope.
Notation "m ;;; k" := (bind m (fun _ => k))
  (at level 100, right associativity) : py_scope.
Local Open Scope py_scope.

(** [try: body finally: cleanup]: the cleanup runs in either case; what it
    raises replaces the outcome of the body. *)
Definition try_finally {A} (body : M A) (cleanup : M unit) : M A :=
  fun w =>
    match body w with
    | (r, w1) =>
        match cleanup w1 with
        | (Ok _, w2) => (r, w2)
        | (Raise e, w2) => (Raise e, w2)
        end
    end.

Definition lift_result {A} (r : result A) : M A := fun w => (r, w).

Definition on_fs {A} (f : filesystem -> result A * filesystem) : M A :=
  fun w =>
    let '(r, fs') := f (w_fs w) in (r, World (w_heap w) fs').

Definition on_heap {A} (f : heap -> result (A * heap)) : M A :=
  fun w =>
    match f (w_heap w) with
    | Ok (a, h') => (Ok a, World h' (w_fs w))
    | Raise e => (Raise e, w)
    end.

(** Reading a dictionary through a value. Only a dictionary has items. *)
Definition get_dict (v : value) : M dict :=
  fun w =>
    match v with
    | VRef l =>
        match w_heap w !! l with
        | Some d => (Ok d, w)
        | None => (Raise TypeError, w)
        end
    | VAtom _ => (Raise AttributeError, w)
    | VList _ => (Raise AttributeError, w)
    end.

(** Replacing the bindings of the dictionary at [l]. *)
Definition put_dict (l : nat) (d : dict) : M unit :=
  fun w => (Ok tt, World (<[l := d]> (w_heap w)) (w_fs w)).

(** [{}] or any display of scalars and lists: a new object. *)
Definition new_dict (d : dict) : M value :=
  fun w => (Ok (VRef (length (w_heap w))), World (w_heap w ++ [d]) (w_fs w)).

(** [d[k]] *)
Definition getitem (d : value) (k : string) : M value :=
  kvs <- get_dict d ;;
  match dict_get k kvs with
  | Some v => ret v
  | None => raise (KeyError k)
  end.

(** [d.pop(k)] on a stored dictionary. A list takes no string index, and
    a scalar has no [pop]. *)
Definition pop (d : value) (k : string) : M value :=
  match d with
  | VRef l =>
      kvs <- get_dict d ;;
      match dict_get k kvs with
      | Some v => put_dict l (dict_del k kvs) ;;; ret v
      | None => raise (KeyError k)
      end
  | VList _ => raise TypeError
  | VAtom _ => raise AttributeError
  end.

(** [d.update(other)] for a list [other]: each element has to be a
    sequence of length two, which among scalars only a two-character string
    is; the elements before a bad one are applied. *)
Fixpoint update_from_list (l : nat) (kvs : dict) (elems : list atom) : M unit :=
  match elems with
  | [] => put_dict l kvs
  | AStr (String a (String b EmptyString)) :: rest =>
      update_from_list l
        (dict_set (String a EmptyString) (VAtom (AStr (String b EmptyString))) kvs)
        rest
  | AStr _ :: _ => put_dict l kvs ;;; raise ValueError
  | _ :: _ => put_dict l kvs ;;; raise TypeError
  end.

(** [d.update(other)]: the bindings of a dictionary are set in [d] in
    their order. *)
Definition update (d other : value) : M unit :=
  match d with
  | VRef l =>
      kvs <- get_dict d ;;
      match other with
      | VRef _ =>
          u <- get_dict other ;; put_dict l (dict_update kvs u)
      | VList elems => update_from_list l kvs elems
      | VAtom _ => raise TypeError
      end
  | _ => raise AttributeError
  end.

(* ===================================================================== *)
(** * What the module imports *)
(* ===================================================================== *)

(** The platform the module runs on: the operating system, the [ixmp]
    package with its configuration, its scenarios and its own [GAMSModel],
    the [message_ix.macro] table, and the GAMS program. *)
Class Platform := {
  (** [os.name] *)
  os_name : string;
  (** [Path(__file__).parent] *)
  module_dir : path;
  (** [config.get('message model dir')] *)
  config_model_dir : path;
  (** [ixmp.model.gams.GAMSModel.defaults] *)
  ixmp_defaults : list (string * lit);
  (** [message_ix.macro.MACRO_ITEMS], as the display that defines it *)
  MACRO_ITEMS : list (string * lit);
  Scenario : Type;
  (** the state of an [ixmp.model.gams.GAMSModel] instance *)
  Base : Type;
  RunResult : Type;
  (** [Model.initialize_items(scenario, items)] reads [items] *)
  initialize_items : Scenario -> list (string * lit) -> result Scenario;
  (** [ixmp.model.gams.GAMSModel.__init__(self, name, **model_options)],
      for an instance of the class named by the first argument *)
  ixmp_init : string -> option string -> dict -> result Base;
  (** [self.model_dir] *)
  ixmp_model_dir : Base -> value;
  (** [ixmp.model.gams.GAMSModel.run(self, scenario)] *)
  ixmp_run : Base -> Scenario -> filesystem -> result RunResult * filesystem;
  (** [sys.getrecursionlimit()], as a bound on the depth of a structure
      that [copy.deepcopy] can follow *)
  recursion_limit : nat;
  (** the name [tempfile.mkdtemp()] chooses *)
  mkdtemp_name : filesystem -> path;
  (** [check_output(['gams', 'null', '-LogOption=3'], shell=..., cwd=...,
      universal_newlines=True)] *)
  check_output_gams : bool -> path -> filesystem -> result string * filesystem
}.

(** The separator [pathlib] prints between the parts of a path. *)
Definition sep `{Platform} : string :=
  if String.eqb os_name "nt" then "\"%string else "/"%string.

(** [str(x)] of a scalar, as [str.format] prints it for a plain field. *)
Definition py_str `{Platform} (a : atom) : string :=
  match a with
  | ANone => "None"
  | ABool true => "True"
  | ABool false => "False"
  | AInt z => PyStr.of_int z
  | AFloat r => r
  | AStr s => s
  | APath p => Pathlib.str sep p
  end.

(* ===================================================================== *)
(** * message_ix/models.py *)
(* ===================================================================== *)

(** Solver options used by [message_ix.Scenario.solve]. *)
Definition DEFAULT_CPLEX_OPTIONS : list (string * lit) :=
  [ ("advind", LAtom (AInt 0));
    ("lpmethod", LAtom (AInt 2));
    ("threads", LAtom (AInt 4));
    ("epopt", LAtom (AFloat "1e-06")) ]%string.

(** Common indices for some parameters in [MESSAGE_ITEMS]. *)
Definition _idx_common : list atom :=
  [AStr "node"; AStr "technology"; AStr "level"; AStr "year"; AStr "time"]%string.

(** List of ixmp items for MESSAGE. *)
Definition MESSAGE_ITEMS : list (string * lit) :=
  [ ("level_storage", LDict [("ix_type", LAtom (AStr "set"))]);
    ("storage_tec", LDict [("ix_type", LAtom (AStr "set"))]);
    ("map_tec_storage",
      LDict
        [("ix_type", LAtom (AStr "set"));
         ("idx_sets", LList [AStr "technology"; AStr "storage_tec"])]);
    ("time_seq",
      LDict
        [("ix_type", LAtom (AStr "par"));
         ("idx_sets", LList [AStr "lvl_temporal"; AStr "time"])]);
    ("relation_storage",
      LDict
        [("ix_type", LAtom (AStr "par"));
         ("idx_sets",
           LList [AStr "node"; AStr "technology"; AStr "level"; AStr "year";
                  AStr "year"; AStr "time"; AStr "time"]);
         ("idx_names",
           LList [AStr "node"; AStr "technology"; AStr "level";
                  AStr "year_first"; AStr "year_last"; AStr "time_first";
                  AStr "time_last"])]);
    ("bound_storage_lo",
      LDict
        [("ix_type", LAtom (AStr "par")); ("idx_sets", LList _idx_common)]);
    ("bound_storage_up",
      LDict
        [("ix_type", LAtom (AStr "par")); ("idx_sets", LList _idx_common)]);
    ("storage_loss",
      LDict
        [("ix_type", LAtom (AStr "par")); ("idx_sets", LList _idx_common)]);
    ("init_storage",
      LDict
        [("ix_type", LAtom (AStr "par")); ("idx_sets", LList _idx_common)])
  ]%string.

(** Helper to make a template string relative to model_dir. *)
Definition _template `{Platform} (parts : list string) : string :=
  Pathlib.str sep (Pathlib.Path ("{model_dir}"%string :: parts)).

(** The module namespace: the two tables the classes copy, as the objects
    the import made of them. *)
Record globals := Globals {
  g_MACRO_ITEMS : value;
  g_DEFAULT_CPLEX_OPTIONS : value
}.

(** Importing the module: [from .macro import MACRO_ITEMS] evaluates the
    table of [message_ix.macro], then [DEFAULT_CPLEX_OPTIONS] is made. *)
Definition import_module `{Platform} (h : heap) : globals * heap :=
  let '(m, h1) := alloc (LDict MACRO_ITEMS) h in
  let '(d, h2) := alloc (LDict DEFAULT_CPLEX_OPTIONS) h1 in
  (Globals m d, h2).

(** The classes of the module and their [name] attribute. *)
Inductive cls := C_GAMSModel | C_MESSAGE | C_MACRO | C_MESSAGE_MACRO.

Definition cls_name (c : cls) : string :=
  match c with
  | C_GAMSModel => "MESSAGE"
  | C_MESSAGE => "MESSAGE"
  | C_MACRO => "MACRO"
  | C_MESSAGE_MACRO => "MESSAGE-MACRO"
  end.

(** An instance: its class, [self.cplex_opts] and what [ixmp] keeps. *)
Record model `{Platform} := Model {
  m_cls : cls;
  cplex_opts : value;
  m_base : Base
}.
Arguments Model {_} _ _ _.
Arguments m_cls {_} _.
Arguments cplex_opts {_} _.
Arguments m_base {_} _.

(** Running a list of fallible steps in order. *)
Fixpoint map_result {A B} (f : A -> result B) (l : list A) : result (list B) :=
  match l with
  | [] => Ok []
  | a :: l' =>
      match f a with
      | Raise e => Raise e
      | Ok b =>
          match map_result f l' with
          | Ok bs => Ok (b :: bs)
          | Raise e => Raise e
          end
      end
  end.

(** [a < b]: strings compare as strings; [None] does not compare. *)
Definition py_lt (a b : atom) : result bool :=
  match a, b with
  | AStr x, AStr y => Ok (PyStr.lt x y)
  | AInt x, AInt y => Ok (x <? y)
  | _, _ => Raise TypeError
  end.

(** Return the GAMS release as a string, e.g. '24.7.4'. *)
Module GamsRelease.

(** [r'^GAMS ([\d\.]+)\s*Copyright'] *)
Definition pattern : Re.regex :=
  Re.Seq Re.Bol
    (Re.Seq (Re.word (PyStr.chars "GAMS "))
       (Re.Seq (Re.Group (Re.plus true Re.digit_or_dot))
          (Re.Seq (Re.Rep true Re.space)
             (Re.word (PyStr.chars "Copyright"))))).

(** [tempfile.mkdtemp()]: a new directory under the chosen name. *)
Definition mkdtemp `{Platform} (fs : filesystem) : result path * filesystem :=
  let p := mkdtemp_name fs in
  match fs !! p with
  | None => (Ok p, <[p := Dir]> fs)
  | Some _ => (Raise (FileExistsError p), fs)
  end.

Definition gams_release `{Platform} : M atom :=
  (* Create a temporary GAMS program that does nothing *)
  tmp_dir <- on_fs mkdtemp ;;
  let gms := Pathlib.div tmp_dir "null.gms" in
  on_fs (Pathlib.write_text gms "$exit;") ;;;
  (* Execute, capturing stdout *)
  output <- on_fs (check_output_gams (String.eqb os_name "nt") tmp_dir) ;;
  (* Clean up *)
  on_fs (Pathlib.unlink gms) ;;;
  on_fs (Pathlib.unlink (Pathlib.with_suffix gms ".lst")) ;;;
  on_fs (Pathlib.rmdir tmp_dir) ;;;
  (* Find and return the version string *)
  lift_result (Re.search_group1 pattern output).

End GamsRelease.

(** Extended [ixmp.model.gams.GAMSModel] for MESSAGE & MACRO. *)
Module GAMSModel.

(** The keys [GAMSModel.defaults] adds for MESSAGE or gives a new value. *)
Definition message_defaults `{Platform} : list (string * lit) :=
  [ (* New keys for MESSAGE *)
    ("model_dir", LAtom (APath (Pathlib.div module_dir "model")));
    (* Update keys from GAMSModel *)
    ("model_file", LAtom (AStr (_template ["{model_name}_run.gms"])));
    ("in_file", LAtom (AStr (_template ["data"; "MsgData_{case}.gdx"])));
    ("out_file", LAtom (AStr (_template ["output"; "MsgOutput_{case}.gdx"])));
    ("solve_args",
      LList
        [ AStr ("--in=" +++ PyStr.dq +++ "{in_file}" +++ PyStr.dq);
          AStr ("--out=" +++ PyStr.dq +++ "{out_file}" +++ PyStr.dq);
          AStr ("--iter=" +++ PyStr.dq
                +++ _template ["output"; "MsgIterationReport_{case}.gdx"]
                +++ PyStr.dq) ]);
    (* Disable the feature to put input/output GDX files, list files, etc.
       in a temporary directory *)
    ("use_temp_dir", LAtom (ABool false)) ]%string.

(** Default model options: a [ChainMap] of the keys for MESSAGE and the
    defaults of [ixmp]. *)
Definition defaults `{Platform} : list (list (string * lit)) :=
  [ message_defaults; ixmp_defaults ].

(** ['VERSION_MAJOR "(.+?)"'] and its two siblings. *)
Definition version_pattern (which : string) : Re.regex :=
  Re.Seq (Re.word (PyStr.chars ("VERSION_" +++ which +++ " " +++ PyStr.dq)))
    (Re.Seq (Re.Group (Re.plus false Re.dot))
       (Re.Chr (ascii_of_nat 34))).

(** Retrieve MESSAGE version string from version.gms. *)
Definition read_version `{Platform} : M string :=
  fun w =>
    let version_file := Pathlib.div config_model_dir "version.gms" in
    let version_file :=
      if negb (Pathlib.exists_ version_file (w_fs w)) then
        (* Only exists here on install *)
        Pathlib.div (Pathlib.div module_dir "model") "version.gms"
      else version_file in
    (s <- lift_result (Pathlib.read_text version_file (w_fs w)) ;;
     major <- lift_result (Re.search_group1 (version_pattern "MAJOR") s) ;;
     minor <- lift_result (Re.search_group1 (version_pattern "MINOR") s) ;;
     patch <- lift_result (Re.search_group1 (version_pattern "PATCH") s) ;;
     ret (py_str major +++ "." +++ py_str minor +++ "." +++ py_str patch)) w.

(** Set up [scenario] with required sets and parameters for MESSAGE. *)
Definition initialize `{Platform} (scenario : Scenario) : result Scenario :=
  initialize_items scenario MESSAGE_ITEMS.

Definition __init__ `{Platform} (G : globals) (c : cls)
    (name : option string) (model_options : dict) : M model :=
  (* Update the default options with any user-provided options *)
  let model_options :=
    dict_setdefault "model_dir" (VAtom (APath config_model_dir)) model_options in
  opts <- on_heap (shallow_copy (g_DEFAULT_CPLEX_OPTIONS G)) ;;
  empty <- new_dict [] ;;
  let solve_options := default empty (dict_get "solve_options" model_options) in
  let model_options := dict_del "solve_options" model_options in
  update opts solve_options ;;;
  base <- lift_result (ixmp_init (cls_name c) name model_options) ;;
  ret (Model c opts base).

(** [self.model_dir / 'cplex.opt']; only a path takes the division. *)
Definition optfile `{Platform} (self : model) : result path :=
  match ixmp_model_dir (m_base self) with
  | VAtom (APath p) => Ok (Pathlib.div p "cplex.opt")
  | _ => Raise TypeError
  end.

(** ['{} = {}'.format(k, v)] for a scalar [v]. *)
Definition format_kv `{Platform} (kv : string * value) : result string :=
  match kv.2 with
  | VAtom a => Ok (kv.1 +++ " = " +++ py_str a)
  | _ => Raise (NotModelled "str() of a container")
  end.

(** Write CPLEX options into an options file. *)
Definition write_optfile `{Platform} (self : model) : M path :=
  optfile <- lift_result (optfile self) ;;
  kvs <- get_dict (cplex_opts self) ;;
  lines <- lift_result (map_result format_kv kvs) ;;
  on_fs (Pathlib.write_text optfile (PyStr.join PyStr.nl lines)) ;;;
  ret optfile.

(** Execute the model. *)
Definition run `{Platform} (self : model) (scenario : Scenario)
  : M RunResult :=
  optfile <- write_optfile self ;;
  try_finally
    (on_fs (ixmp_run (m_base self) scenario))
    (* Remove the optfile regardless of whether the run completed
       without error *)
    (on_fs (Pathlib.unlink optfile)).

End GAMSModel.

Module MESSAGE.
Definition name : string := "MESSAGE".
Definition initialize `{Platform} := GAMSModel.initialize.
Definition __init__ `{Platform} (G : globals) := GAMSModel.__init__ G C_MESSAGE.
Definition run `{Platform} := GAMSModel.run.
End MESSAGE.

Module MACRO.

(** MACRO uses the GAMS [break;] statement, and thus requires GAMS 24.8.1
    or later. *)
Definition GAMS_min_version : string := "24.8.1".

Definition __init__ `{Platform} (G : globals) (c : cls)
    (name : option string) (model_options : dict) : M model :=
  version <- GamsRelease.gams_release ;;
  too_old <- lift_result (py_lt version (AStr GAMS_min_version)) ;;
  if (too_old : bool) then
    raise (RuntimeError
             (cls_name c +++ " requires GAMS >= " +++ GAMS_min_version
              +++ "; found " +++ py_str version))
  else GAMSModel.__init__ G c name model_options.

(** [for name in ...: items[name].pop('idx_sets')] *)
Fixpoint pop_idx_sets (items : value) (names : list string) : M unit :=
  match names with
  | [] => ret tt
  | name :: rest =>
      item <- getitem items name ;;
      pop item "idx_sets" ;;;
      pop_idx_sets items rest
  end.

Definition without_idx_sets : list string :=
  ["C"; "COST_NODAL"; "COST_NODAL_NET"; "DEMAND"; "GDP"; "I"]%string.

(** What [initialize_items] reads off the dictionary it is given. *)
Definition read_items `{Platform} (items : value) : M (list (string * lit)) :=
  fun w =>
    match reify recursion_limit (w_heap w) items with
    | Some (LDict its) => (Ok its, w)
    | Some _ => (Raise AttributeError, w)
    | None => (Raise RecursionError, w)
    end.

(** Initialize the model structure. *)
Definition initialize `{Platform} (G : globals) (scenario : Scenario)
    (with_data : bool) : M Scenario :=
  items <- on_heap (deepcopy recursion_limit (g_MACRO_ITEMS G)) ;;
  pop_idx_sets items without_idx_sets ;;;
  (* Initialize the ixmp items *)
  its <- read_items items ;;
  lift_result (initialize_items scenario its).

End MACRO.

Module MESSAGE_MACRO.
Definition name : string := "MESSAGE-MACRO".
Definition __init__ `{Platform} (G : globals) := MACRO.__init__ G C_MESSAGE_MACRO.
Definition initialize `{Platform} := MACRO.initialize.
End MESSAGE_MACRO.

(* ===================================================================== *)
(** * The order of releases *)
(* ===================================================================== *)

(** The order the requirement "GAMS 24.8.1 or later" speaks of, written
    from those words and not from the code: a release is the sequence of
    the numbers between its dots, and sequences compare number by number. *)
Module Release.

Definition digit_value (c : ascii) : N := N.of_nat (nat_of_ascii c - 48).

Definition number (s : string) : N :=
  fold_left (fun n c => (10 * n + digit_value c)%N) (PyStr.chars s) 0%N.

Definition numbers (release : string) : list N :=
  map number (PyStr.split "."%char release).

Fixpoint seq_lt (a b : list N) : bool :=
  match a, b with
  | [], [] => false
  | [], _ :: _ => true
  | _ :: _, [] => false
  | x :: a', y :: b' =>
      if (x <? y)%N then true
      else if (y <? x)%N then false
      else seq_lt a' b'
  end.

Definition earlier (a b : string) : bool := seq_lt (numbers a) (numbers b).

End Release.

(* ===================================================================== *)
(** * A program that uses the module *)
(* ===================================================================== *)

Module Client.

(** What a program does with the classes: it makes an instance of one
    of them, or changes the [cplex_opts] of an instance it made (any
    change: setting or deleting keys, [update], [clear]). *)
Inductive action `{Platform} :=
| Construct (c : cls) (name : option string) (model_options : dict)
| Mutate (i : nat) (change : dict -> dict).

(** [cls(name, **model_options)] *)
Definition construct `{Platform} (G : globals) (c : cls)
    (name : option string) (model_options : dict) : M model :=
  match c with
  | C_GAMSModel | C_MESSAGE => GAMSModel.__init__ G c name model_options
  | C_MACRO | C_MESSAGE_MACRO => MACRO.__init__ G c name model_options
  end.

(** One step: the instances made so far are kept in a list. An
    exception ends the step and the program goes on. *)
Definition step `{Platform} (G : globals) (a : action)
    (st : world * list model) : world * list model :=
  match a with
  | Construct c name model_options =>
      match construct G c name model_options st.1 with
      | (Ok m, w) => (w, st.2 ++ [m])
      | (Raise _, w) => (w, st.2)
      end
  | Mutate i change =>
      match st.2 !! i with
      | Some m =>
          match cplex_opts m with
          | VRef l =>
              match w_heap st.1 !! l with
              | Some d =>
                  (World (<[l := change d]> (w_heap st.1)) (w_fs st.1), st.2)
              | None => st
              end
          | _ => st
          end
      | None => st
      end
  end.

Definition steps `{Platform} (G : globals) (actions : list action)
    (st : world * list model) : world * list model :=
  fold_left (fun st a => step G a st) actions st.


End Client.

(* ===================================================================== *)
(** * Notions the properties are stated with *)
(* ===================================================================== *)

(** What the table promises of one entry: it is a dictionary whose
    [ix_type] is 'set' or 'par'; a 'par' has [idx_sets]; [idx_names], where
    given, come with [idx_sets] of the same length. *)
Definition item_ok (item : lit) : Prop :=
  exists fields,
    item = LDict fields
    /\ (dict_get "ix_type" fields = Some (LAtom (AStr "set"))
        \/ dict_get "ix_type" fields = Some (LAtom (AStr "par")))
    /\ (dict_get "ix_type" fields = Some (LAtom (AStr "par")) ->
        exists sets, dict_get "idx_sets" fields = Some (LList sets))
    /\ (forall names, dict_get "idx_names" fields = Some (LList names) ->
        exists sets, dict_get "idx_sets" fields = Some (LList sets)
                     /\ length names = length sets).

(** The store object of a display of scalars and lists. *)
Definition flat_value (t : lit) : value :=
  match t with
  | LAtom a => VAtom a
  | LList l => VList l
  | LDict _ => VAtom ANone
  end.

Definition flat_dict (items : list (string * lit)) : dict :=
  map (fun kt => (kt.1, flat_value kt.2)) items.

(** The dictionary [DEFAULT_CPLEX_OPTIONS] is evaluated to. *)
Definition default_dict : dict := flat_dict DEFAULT_CPLEX_OPTIONS.

(** [DEFAULT_CPLEX_OPTIONS] is as the module defined it. *)
Definition defaults_intact (G : globals) (h : heap) : Prop :=
  reify 1 h (g_DEFAULT_CPLEX_OPTIONS G) = Some (LDict DEFAULT_CPLEX_OPTIONS).

(** An item without its 'idx_sets'. *)
Definition drop_idx_sets (item : lit) : lit :=
  match item with
  | LDict fields => LDict (dict_del "idx_sets" fields)
  | _ => item
  end.

(** The items named in [names] without their 'idx_sets'. *)
Definition strip_items (names : list string) (table : list (string * lit))
  : list (string * lit) :=
  map (fun kt =>
         if bool_decide (kt.1 ∈ names) then (kt.1, drop_idx_sets kt.2) else kt)
      table.

(** The table [MACRO.initialize] declares: the six items lose 'idx_sets'. *)
Definition declared_items (table : list (string * lit)) : list (string * lit) :=
  strip_items MACRO.without_idx_sets table.

(** A dictionary of scalars, as the store holds it. *)
Definition scalar_dict (opts : list (string * atom)) : dict :=
  map (fun ka => (ka.1, VAtom ka.2)) opts.

(** The lines of the options file for these options. *)
Definition option_lines `{Platform} (opts : list (string * atom)) : string :=
  PyStr.join PyStr.nl (map (fun ka => ka.1 +++ " = " +++ py_str ka.2) opts).

(** The start of a line: nothing before, or a line feed just before. *)
Definition at_line_start (seen : list ascii) : Prop :=
  match seen with
  | [] => True
  | c :: _ => Re.code c = 10%nat
  end.

(** The text ahead is "GAMS ", the release [v] (digits and dots, at least
    one), any white space and "Copyright", and this at the start of a line. *)
Definition banner_at (seen rest v : list ascii) : Prop :=
  at_line_start seen
  /\ v <> []
  /\ Forall (fun c => Re.digit_or_dot c = true) v
  /\ exists ws post,
       Forall (fun c => Re.space c = true) ws
       /\ rest = PyStr.chars "GAMS " ++ v ++ ws ++ PyStr.chars "Copyright" ++ post.

(** The text ahead is [VERSION_which "v"]: [v] is one character and then
    the characters up to the next double quote, all on one line. *)
Definition version_at (which : string) (seen rest v : list ascii) : Prop :=
  exists c run post,
    v = c :: run
    /\ Re.dot c = true
    /\ Forall (fun x => Re.dot x = true /\ x <> ascii_of_nat 34) run
    /\ rest = PyStr.chars ("VERSION_" +++ which +++ " " +++ PyStr.dq)
              ++ c :: run ++ ascii_of_nat 34 :: post.

(** [v] is what [found] finds at the first place of [s] where it finds
    anything. *)
Definition first_at (found : list ascii -> list ascii -> list ascii -> Prop)
    (s v : string) : Prop :=
  exists pre rest,
    PyStr.chars s = pre ++ rest
    /\ found (rev pre) rest (PyStr.chars v)
    /\ forall pre' rest' v',
         PyStr.chars s = pre' ++ rest' -> (length pre' < length pre)%nat ->
         ~ found (rev pre') rest' v'.

(** The end of a pattern: the search answers with group 1. *)
Definition K0 : @Re.cont (option (list ascii)) := fun _ _ g => Some g.

(** The items of a display, evaluated from left to right. *)
Fixpoint alloc_items (items : list (string * lit)) (h : heap) : dict * heap :=
  match items with
  | [] => ([], h)
  | (k, t) :: rest =>
      let '(v, h1) := alloc t h in
      let '(kvs, h2) := alloc_items rest h1 in
      ((k, v) :: kvs, h2)
  end.

(** How deep the dictionaries of a display nest. *)
Fixpoint lit_depth (t : lit) : nat :=
  match t with
  | LDict items =>
      S ((fix items_depth (items : list (string * lit)) : nat :=
            match items with
            | [] => O
            | (_, t') :: rest => Nat.max (lit_depth t') (items_depth rest)
            end) items)
  | _ => O
  end.

Fixpoint items_depth (items : list (string * lit)) : nat :=
  match items with
  | [] => O
  | (_, t) :: rest => Nat.max (lit_depth t) (items_depth rest)
  end.

(** No dictionary of the display names a key twice. *)
Fixpoint lit_wf (t : lit) : bool :=
  match t with
  | LDict items =>
      bool_decide (NoDup (dict_keys items))
      && (fix items_wf (items : list (string * lit)) : bool :=
            match items with
            | [] => true
            | (_, t') :: rest => lit_wf t' && items_wf rest
            end) items
  | _ => true
  end.

Fixpoint items_wf (items : list (string * lit)) : bool :=
  match items with
  | [] => true
  | (_, t) :: rest => lit_wf t && items_wf rest
  end.

(** The item [name] of a table is a dictionary that has 'idx_sets'. *)
Definition has_idx_sets (table : list (string * lit)) (name : string) : bool :=
  match dict_get name table with
  | Some (LDict fields) =>
      match dict_get "idx_sets" fields with
      | Some _ => true
      | None => false
      end
  | _ => false
  end.


(** [v] denotes the display [t] in the store [h], as a tree of objects of
    its own at the locations from [lo] up to [hi]: the objects of the
    items of a dictionary lie side by side, and apart from the dictionary
    itself, which is at [l]. *)
Inductive repr (h : heap) : value -> lit -> nat -> nat -> Prop :=
| repr_atom a lo hi : (lo <= hi)%nat -> repr h (VAtom a) (LAtom a) lo hi
| repr_list l lo hi : (lo <= hi)%nat -> repr h (VList l) (LList l) lo hi
| repr_dict l kvs items lo lo' hi' hi :
    h !! l = Some kvs ->
    (lo <= l < hi)%nat -> (lo <= lo')%nat -> (hi' <= hi)%nat ->
    repr_items h l kvs items lo' hi' ->
    repr h (VRef l) (LDict items) lo hi
with repr_items (h : heap) : nat -> dict -> list (string * lit) -> nat -> nat -> Prop :=
| repr_nil l lo hi :
    (lo <= hi)%nat -> (l < lo \/ hi <= l)%nat -> repr_items h l [] [] lo hi
| repr_cons l k v t kvs items lo mid hi :
    repr h v t lo mid -> (l < lo \/ mid <= l)%nat ->
    repr_items h l kvs items mid hi ->
    repr_items h l ((k, v) :: kvs) ((k, t) :: items) lo hi.

Scheme repr_mut := Minimality for repr Sort Prop
  with repr_items_mut := Minimality for repr_items Sort Prop.
Combined Scheme repr_mutind from repr_mut, repr_items_mut.

(** The store [h'] has the objects of [h], unchanged, and maybe more. *)
Definition extends (h h' : heap) : Prop :=
  (length h <= length h')%nat
  /\ forall i, (i < length h)%nat -> h' !! i = h !! i.

(** What [deepcopy] with recursion limit [n] does to a tree whose
    objects are not in the memo yet: it builds an equal tree of new objects
    behind the store, and records only objects of the tree in the memo. *)
Definition copies (n : nat)
    (rec : value -> heap * memo -> result (value * (heap * memo))) : Prop :=
  forall v t lo hi h m,
    repr h v t lo hi -> (hi <= length h)%nat ->
    (forall i, (lo <= i < hi)%nat -> m !! i = None) ->
    (lit_depth t <= n)%nat -> lit_wf t = true ->
    exists v' h' m',
      rec v (h, m) = Ok (v', (h', m'))
      /\ extends h h'
      /\ repr h' v' t (length h) (length h')
      /\ forall i, ~ (lo <= i < hi)%nat -> m' !! i = m !! i.

(** [MACRO_ITEMS] is in the store as the import evaluated it. *)
Definition macro_items_loaded `{Platform} (G : globals) (h : heap) : Prop :=
  exists lo hi,
    repr h (g_MACRO_ITEMS G) (LDict MACRO_ITEMS) lo hi /\ (hi <= length h)%nat.

(** A computation that leaves the store alone. *)
Definition heap_stable {A} (m : M A) : Prop :=
  forall w, w_heap (m w).2 = w_heap w.

(** What every step of a program keeps true: the defaults are the
    dictionary the import made, and no instance holds that dictionary. *)
Definition defaults_apart `{Platform} (d : nat) (st : world * list model) : Prop :=
  w_heap st.1 !! d = Some default_dict
  /\ Forall (fun m => cplex_opts m <> VRef d) st.2.

(* ===================================================================== *)
(** * A concrete platform, to run the definitions on *)
(* ===================================================================== *)

Module Sample.

Definition tmp : path := (true, ["tmp"]%string).
Definition models : path := (true, ["home"; "models"]%string).
Definition package : path := (true, ["site-packages"; "message_ix"]%string).

(** A table in the style of [message_ix.macro.MACRO_ITEMS]. *)
Definition macro_items : list (string * lit) :=
  [ ("sector", LDict [("ix_type", LAtom (AStr "set"))]);
    ("MERtoPPP",
      LDict [("ix_type", LAtom (AStr "par"));
             ("idx_sets", LList [AStr "node"; AStr "year"])]);
    ("C",
      LDict [("ix_type", LAtom (AStr "var"));
             ("idx_sets", LList [AStr "node"; AStr "year"])]);
    ("COST_NODAL",
      LDict [("ix_type", LAtom (AStr "var"));
             ("idx_sets", LList [AStr "node"; AStr "year"])]);
    ("COST_NODAL_NET",
      LDict [("ix_type", LAtom (AStr "var"));
             ("idx_sets", LList [AStr "node"; AStr "year"])]);
    ("DEMAND",
      LDict [("ix_type", LAtom (AStr "var"));
             ("idx_sets",
               LList [AStr "node"; AStr "commodity"; AStr "level";
                      AStr "year"; AStr "time"])]);
    ("GDP",
      LDict [("ix_type", LAtom (AStr "var"));
             ("idx_sets", LList [AStr "node"; AStr "year"])]);
    ("I",
      LDict [("ix_type", LAtom (AStr "var"));
             ("idx_sets", LList [AStr "node"; AStr "year"])]) ]%string.

(** Options in the style of [ixmp.model.gams.GAMSModel.defaults]. *)
Definition base_defaults : list (string * lit) :=
  [ ("model_file", LAtom (AStr "{model_name}.gms"));
    ("case", LAtom (AStr "{scenario.model}_{scenario.scenario}"));
    ("in_file", LAtom (AStr "{temp_dir}/{model_name}_in.gdx"));
    ("out_file", LAtom (AStr "{temp_dir}/{model_name}_out.gdx"));
    ("solve_args", LList [AStr "--in={in_file}"; AStr "--out={out_file}"]);
    ("gams_args", LList [AStr "LogOption=4"]);
    ("check_solution", LAtom (ABool true));
    ("comment", LAtom ANone);
    ("use_temp_dir", LAtom (ABool true)) ]%string.

(** An engine that answers with the options file it finds. *)
Definition engine (b : option string * dict) (scenario : list string)
    (fs : filesystem) : result string * filesystem :=
  match dict_get "model_dir" b.2 with
  | Some (VAtom (APath p)) =>
      match fs !! Pathlib.div p "cplex.opt" with
      | Some (File s) => (Ok s, fs)
      | _ => (Raise (OtherError "GAMS: cplex.opt not found"), fs)
      end
  | _ => (Raise (OtherError "no model_dir"), fs)
  end.

(** A GAMS that prints [banner] and leaves its listing file. *)
Definition gams (banner : string) (shell : bool) (cwd : path)
    (fs : filesystem) : result string * filesystem :=
  (Ok ("--- Job null Start" +++ PyStr.nl +++ banner +++ PyStr.nl
       +++ "*** Status: Normal completion"),
   <[Pathlib.div cwd "null.lst" := File "GAMS listing"]> fs).

(** A platform with a given operating system, GAMS banner and engine. *)
Definition platform_with (os : string) (banner : string)
    (run : option string * dict -> list string -> filesystem ->
           result string * filesystem) : Platform := {|
  os_name := os;
  module_dir := package;
  config_model_dir := models;
  ixmp_defaults := base_defaults;
  MACRO_ITEMS := macro_items;
  Scenario := list string;
  Base := option string * dict;
  RunResult := string;
  initialize_items := fun scenario items => Ok (scenario ++ dict_keys items);
  ixmp_init := fun _ name options => Ok (name, options);
  ixmp_model_dir := fun b => default (VAtom ANone) (dict_get "model_dir" b.2);
  ixmp_run := run;
  recursion_limit := 1000;
  mkdtemp_name := fun _ => Pathlib.div tmp "tmpq1w2e3";
  check_output_gams := gams banner
|}.

Definition platform (os : string) (banner : string) : Platform :=
  platform_with os banner engine.

Definition banner_24_7 : string :=
  "GAMS 24.7.4  Copyright (C) 1987-2016 GAMS Development. All rights reserved".
Definition banner_24_10 : string :=
  "GAMS 24.10.1  Copyright (C) 1987-2017 GAMS Development. All rights reserved".
Definition banner_25_1 : string :=
  "GAMS 25.1.3  Copyright (C) 1987-2018 GAMS Development. All rights reserved".

Definition posix : Platform := platform "posix" banner_25_1.
Definition windows : Platform := platform "nt" banner_25_1.

(** A platform on which the engine fails. *)
Definition failing : Platform :=
  platform_with "posix" banner_25_1
    (fun _ _ fs => (Raise (OtherError "GAMS failed"), fs)).

(** A file system with the temporary directory and the model directory. *)
Definition disk : filesystem :=
  <[tmp := Dir]> (<[models := Dir]> (<[(true, ["home"]%string) := Dir]> ∅)).

(** The world right after the import. *)
Definition start (P : Platform) : globals * world :=
  let '(G, h) := @import_module P [] in (G, World h disk).

(** The module namespace and the world of a program that has made a
    dictionary of solver options of its own. *)
Definition G : globals := (start posix).1.

Definition user_options : dict :=
  [ ("threads", VAtom (AInt 8)); ("mipgap", VAtom (AFloat "0.01")) ]%string.

Definition user_world : world :=
  World (w_heap (start posix).2 ++ [user_options]) disk.

Definition user_ref : value := VRef (length (w_heap (start posix).2)).

(** An instance whose [cplex_opts] is that dictionary, and a second one
    with the defaults, both for the model directory [models]. *)
Definition instance : @model posix :=
  @Model posix C_MESSAGE user_ref
    (None, [("model_dir", VAtom (APath models))]%string).


Definition user_scalars : list (string * atom) :=
  [ ("threads", AInt 8); ("mipgap", AFloat "0.01") ]%string.

(** The first instance on the platform whose engine fails. *)
Definition failing_instance : @model failing :=
  @Model failing C_MESSAGE user_ref
    (None, [("model_dir", VAtom (APath models))]%string).

(** The version file of an installation, found next to the module. *)
Definition version_gms : string :=
  "* This file is read by message_ix when compiling." +++ PyStr.nl
  +++ "$SETGLOBAL VERSION_MAJOR " +++ PyStr.dq +++ "1" +++ PyStr.dq +++ PyStr.nl
  +++ "$SETGLOBAL VERSION_MINOR " +++ PyStr.dq +++ "2" +++ PyStr.dq +++ PyStr.nl
  +++ "$SETGLOBAL VERSION_PATCH " +++ PyStr.dq +++ "0" +++ PyStr.dq +++ PyStr.nl.

Definition installed : world :=
  World (w_heap (start posix).2)
    (<[Pathlib.div (Pathlib.div package "model") "version.gms" := File version_gms]>
       disk).

End Sample.

(** The release string of GAMS for three numbers, as in '24.8.1'. *)
Definition release_string (major minor patch : nat) : string :=
  PyStr.of_int (Z.of_nat major) +++ "." +++ PyStr.of_int (Z.of_nat minor)
  +++ "." +++ PyStr.of_int (Z.of_nat patch).

(** The release [major.minor.patch] is earlier than 24.8.1. *)
Definition before_24_8_1 (major minor patch : nat) : bool :=
  (major <? 24)%nat
  || ((major =? 24)%nat
      && ((minor <? 8)%nat || ((minor =? 8)%nat && (patch <? 1)%nat))).

(* ===================================================================== *)
(** * Platforms on which something goes wrong *)
(* ===================================================================== *)

Module Edge.

(** The platform of [Sample] with another table of MACRO items, another
    GAMS program and another engine. *)
Definition platform_of (table : list (string * lit))
    (gams : bool -> path -> filesystem -> result string * filesystem)
    (run : option string * dict -> list string -> filesystem ->
           result string * filesystem) : Platform := {|
  os_name := "posix";
  module_dir := Sample.package;
  config_model_dir := Sample.models;
  ixmp_defaults := Sample.base_defaults;
  MACRO_ITEMS := table;
  Scenario := list string;
  Base := option string * dict;
  RunResult := string;
  initialize_items := fun scenario items => Ok (scenario ++ dict_keys items);
  ixmp_init := fun _ name options => Ok (name, options);
  ixmp_model_dir := fun b => default (VAtom ANone) (dict_get "model_dir" b.2);
  ixmp_run := run;
  recursion_limit := 1000;
  mkdtemp_name := fun _ => Pathlib.div Sample.tmp "tmpq1w2e3";
  check_output_gams := gams
|}.

(** An engine that solves and tidies the model directory itself. *)
Definition tidy_engine (b : option string * dict) (scenario : list string)
    (fs : filesystem) : result string * filesystem :=
  (Ok "solved"%string, delete (Pathlib.div Sample.models "cplex.opt") fs).

Definition tidy : Platform :=
  platform_of Sample.macro_items (Sample.gams Sample.banner_25_1) tidy_engine.

Definition tidy_instance : @model tidy :=
  @Model tidy C_MESSAGE Sample.user_ref
    (None, [("model_dir", VAtom (APath Sample.models))]%string).

(** An instance whose model directory does not exist. *)
Definition nowhere : path := (true, ["home"; "nowhere"]%string).

Definition lost_instance : @model Sample.posix :=
  @Model Sample.posix C_MESSAGE Sample.user_ref
    (None, [("model_dir", VAtom (APath nowhere))]%string).

(** GAMS is not installed. *)
Definition no_gams : Platform :=
  platform_of Sample.macro_items
    (fun _ cwd fs => (Raise (FileNotFoundError (false, ["gams"%string])), fs))
    Sample.engine.

(** A GAMS that writes no listing file. *)
Definition no_listing : Platform :=
  platform_of Sample.macro_items
    (fun _ _ fs => (Ok Sample.banner_25_1, fs)) Sample.engine.

(** A GAMS whose output has no banner. *)
Definition no_banner : Platform :=
  platform_of Sample.macro_items (Sample.gams "Licensee: nobody") Sample.engine.

(** Tables in which 'GDP' is missing, and in which 'DEMAND' has no
    'idx_sets'. *)
Definition without_GDP : list (string * lit) :=
  dict_del "GDP" Sample.macro_items.

Definition bare_DEMAND : list (string * lit) :=
  dict_set "DEMAND" (LDict [("ix_type", LAtom (AStr "var"))]%string)
    Sample.macro_items.

Definition macro_without_GDP : Platform :=
  platform_of without_GDP (Sample.gams Sample.banner_25_1) Sample.engine.

Definition macro_bare_DEMAND : Platform :=
  platform_of bare_DEMAND (Sample.gams Sample.banner_25_1) Sample.engine.

(** A version file without the minor number, in the configured directory. *)
Definition version_gms_short : string :=
  "$SETGLOBAL VERSION_MAJOR " +++ PyStr.dq +++ "1" +++ PyStr.dq +++ PyStr.nl
  +++ "$SETGLOBAL VERSION_PATCH " +++ PyStr.dq +++ "0" +++ PyStr.dq +++ PyStr.nl.

Definition configured_short : world :=
  World []
    (<[Pathlib.div Sample.models "version.gms" := File version_gms_short]>
       Sample.disk).

(** The configured version file is a directory. *)
Definition configured_dir : world :=
  World [] (<[Pathlib.div Sample.models "version.gms" := Dir]> Sample.disk).

End Edge.

(* ===================================================================== *)
(** * Properties *)
(* ===================================================================== *)

Local Close Scope Z_scope.

(** ** Dictionaries *)

Section DictFacts.
Context {V : Type}.
Implicit Types (d u : list (string * V)) (k : string) (v : V).

Lemma dict_get_In k v d : dict_get k d = Some v -> In (k, v) d.
Proof.
  induction d as [|[k' v'] d IH]; simpl; [discriminate|].
  destruct (String.eqb_spec k k') as [->|Hne].
  - intros [= ->]. now left.
  - intros Hg. right. auto.
Qed.

Lemma dict_get_set_eq k v d : dict_get k (dict_set k v d) = Some v.
Proof.
  induction d as [|[k' v'] d IH]; simpl.
  - now rewrite String.eqb_refl.
  - destruct (String.eqb_spec k k') as [->|Hne]; simpl.
    + now rewrite String.eqb_refl.
    + destruct (String.eqb_spec k k'); [contradiction|assumption].
Qed.

Lemma dict_get_set_ne k k' v d :
  k <> k' -> dict_get k' (dict_set k v d) = dict_get k' d.
Proof.
  intros Hne. induction d as [|[k0 v0] d IH]; simpl.
  - destruct (String.eqb_spec k' k); [congruence|reflexivity].
  - destruct (String.eqb_spec k k0) as [->|Hk]; simpl.
    + destruct (String.eqb_spec k' k0); [congruence|reflexivity].
    + destruct (String.eqb_spec k' k0); [reflexivity|assumption].
Qed.

Lemma dict_get_del_eq k d : dict_get k (dict_del k d) = None.
Proof.
  induction d as [|[k' v'] d IH]; simpl; [reflexivity|].
  destruct (String.eqb_spec k k') as [->|Hne]; simpl; [assumption|].
  destruct (String.eqb_spec k k'); [contradiction|assumption].
Qed.

Lemma dict_get_del_ne k k' d :
  k <> k' -> dict_get k' (dict_del k d) = dict_get k' d.
Proof.
  intros Hne. induction d as [|[k0 v0] d IH]; simpl; [reflexivity|].
  destruct (String.eqb_spec k k0) as [->|Hk]; simpl.
  - destruct (String.eqb_spec k' k0); [congruence|assumption].
  - destruct (String.eqb_spec k' k0); [reflexivity|assumption].
Qed.

Lemma dict_get_None_keys k d : dict_get k d = None <-> ~ In k (dict_keys d).
Proof.
  induction d as [|[k' v'] d IH]; simpl.
  - split; [tauto|reflexivity].
  - destruct (String.eqb_spec k k') as [->|Hne].
    + split; [discriminate|]. intros Hn. exfalso. apply Hn. now left.
    + rewrite IH. split; [intros Hn [Heq|Hin]; [congruence|tauto]|tauto].
Qed.

(** A key that [u] does not bind keeps its value through [d.update(u)]. *)
Lemma dict_get_update_other k d u :
  dict_get k u = None -> dict_get k (dict_update d u) = dict_get k d.
Proof.
  unfold dict_update. revert d.
  induction u as [|[k' v'] u IH]; intros d; simpl; [reflexivity|].
  destruct (String.eqb_spec k k') as [->|Hne]; [discriminate|].
  intros Hu. rewrite IH by assumption. apply dict_get_set_ne. congruence.
Qed.

(** A key that [u] binds, once, has the value of [u] after [d.update(u)]. *)
Lemma dict_get_update_key k v d u :
  NoDup (dict_keys u) -> dict_get k u = Some v ->
  dict_get k (dict_update d u) = Some v.
Proof.
  unfold dict_update. revert d.
  induction u as [|[k' v'] u IH]; intros d Hnd; simpl; [discriminate|].
  apply NoDup_cons in Hnd as [Hnotin Hnd].
  destruct (String.eqb_spec k k') as [->|Hne].
  - intros [= ->].
    change (dict_get k' (dict_update (dict_set k' v d) u) = Some v).
    rewrite dict_get_update_other.
    + apply dict_get_set_eq.
    + apply dict_get_None_keys. now rewrite <- list_elem_of_In.
  - intros Hu. now apply IH.
Qed.

Lemma dict_update_nil d : dict_update d [] = d.
Proof. reflexivity. Qed.

Lemma chain_get_first k v d rest :
  dict_get k d = Some v -> chain_get k (d :: rest) = Some v.
Proof. simpl. now intros ->. Qed.

Lemma chain_get_next k d rest :
  dict_get k d = None -> chain_get k (d :: rest) = chain_get k rest.
Proof. simpl. now intros ->. Qed.

End DictFacts.

(** ** The schema table *)

Ltac item_ok_tac :=
  eexists; split; [reflexivity|];
  split; [first [now left | now right]|];
  split; [first [discriminate | intros _; eexists; reflexivity]|];
  intros names; simpl;
  first [discriminate | intros [= <-]; eexists; split; reflexivity].

Lemma MESSAGE_ITEMS_all_ok : Forall (fun kv => item_ok kv.2) MESSAGE_ITEMS.
Proof. unfold MESSAGE_ITEMS. repeat (constructor; [item_ok_tac|]). constructor. Qed.

(** C6. Every entry of [MESSAGE_ITEMS] has [ix_type] 'set' or 'par', a 'par'
    entry carries [idx_sets], and [idx_names] (which [relation_storage]
    gives) are as many as the [idx_sets]; [GAMSModel.initialize], which
    [MESSAGE] inherits, hands exactly this table to [initialize_items]. *)
Theorem MESSAGE_ITEMS_schema `{Platform} :
  (forall name item, dict_get name MESSAGE_ITEMS = Some item -> item_ok item)
  /\ (exists fields names,
        dict_get "relation_storage" MESSAGE_ITEMS = Some (LDict fields)
        /\ dict_get "idx_names" fields = Some (LList names))
  /\ (forall scenario,
        GAMSModel.initialize scenario = initialize_items scenario MESSAGE_ITEMS
        /\ MESSAGE.initialize scenario = initialize_items scenario MESSAGE_ITEMS).
Proof.
  split; [|split].
  - intros name item Hget. apply dict_get_In in Hget.
    pose proof MESSAGE_ITEMS_all_ok as Hall.
    rewrite Forall_forall in Hall.
    apply (Hall (name, item)). now apply list_elem_of_In.
  - do 2 eexists. split; reflexivity.
  - intros scenario. split; reflexivity.
Qed.

Lemma MESSAGE_ITEMS_schema_witness : item_ok (LDict
  [("ix_type", LAtom (AStr "par"));
   ("idx_sets", LList [AStr "lvl_temporal"; AStr "time"])]%string).
Proof.
  destruct (@MESSAGE_ITEMS_schema Sample.posix) as [Hitems _].
  apply (Hitems "time_seq"%string). reflexivity.
Defined.

(** ** The default options *)

Lemma template_parts `{Platform} (parts : list string) :
  Forall (fun s => Pathlib.is_absolute s = false /\ Pathlib.parts_of s = [s]) parts ->
  _template parts = PyStr.join sep ("{model_dir}"%string :: parts).
Proof.
  intros Hparts. unfold _template, Pathlib.Path. simpl fold_left.
  change (Pathlib.parts_of "{model_dir}") with ["{model_dir}"%string].
  simpl app.
  assert (Hfold : forall acc, acc <> [] ->
            fold_left
              (fun (p : path) s =>
                 if Pathlib.is_absolute s then (true, Pathlib.parts_of s)
                 else (p.1, p.2 ++ Pathlib.parts_of s))
              parts (false, acc) = (false, acc ++ parts)).
  { induction Hparts as [|s parts [Habs Hone] _ IH]; intros acc Hacc; simpl.
    - now rewrite app_nil_r.
    - rewrite Habs, Hone. rewrite IH by (now destruct acc).
      now rewrite <- app_assoc. }
  rewrite Hfold by discriminate. reflexivity.
Qed.

(** C5, as the code has it. Each template is its parts joined under
    '{model_dir}' by the separator of the platform, a slash unless
    [os.name] is 'nt'; a key of the MESSAGE map resolves to the value given
    there, and any other key to what the [ixmp] defaults say. *)
Theorem defaults_lookup `{Platform} :
  (chain_get "model_file" GAMSModel.defaults
     = Some (LAtom (AStr ("{model_dir}" +++ sep +++ "{model_name}_run.gms")))
   /\ chain_get "in_file" GAMSModel.defaults
     = Some (LAtom (AStr ("{model_dir}" +++ sep +++ "data" +++ sep
                          +++ "MsgData_{case}.gdx")))
   /\ chain_get "out_file" GAMSModel.defaults
     = Some (LAtom (AStr ("{model_dir}" +++ sep +++ "output" +++ sep
                          +++ "MsgOutput_{case}.gdx"))))
  /\ (os_name <> "nt"%string ->
      chain_get "model_file" GAMSModel.defaults
        = Some (LAtom (AStr "{model_dir}/{model_name}_run.gms"))
      /\ chain_get "in_file" GAMSModel.defaults
        = Some (LAtom (AStr "{model_dir}/data/MsgData_{case}.gdx"))
      /\ chain_get "out_file" GAMSModel.defaults
        = Some (LAtom (AStr "{model_dir}/output/MsgOutput_{case}.gdx")))
  /\ (forall k v, dict_get k GAMSModel.message_defaults = Some v ->
        chain_get k GAMSModel.defaults = Some v)
  /\ (forall k, dict_get k GAMSModel.message_defaults = None ->
        chain_get k GAMSModel.defaults = dict_get k ixmp_defaults).
Proof.
  assert (Hgen :
    chain_get "model_file" GAMSModel.defaults
      = Some (LAtom (AStr ("{model_dir}" +++ sep +++ "{model_name}_run.gms")))
    /\ chain_get "in_file" GAMSModel.defaults
      = Some (LAtom (AStr ("{model_dir}" +++ sep +++ "data" +++ sep
                           +++ "MsgData_{case}.gdx")))
    /\ chain_get "out_file" GAMSModel.defaults
      = Some (LAtom (AStr ("{model_dir}" +++ sep +++ "output" +++ sep
                           +++ "MsgOutput_{case}.gdx")))).
  { unfold GAMSModel.defaults, GAMSModel.message_defaults. simpl chain_get.
    rewrite !template_parts by (repeat constructor).
    repeat split. }
  split; [exact Hgen|]. split; [|split].
  - intros Hos. destruct Hgen as (Hm & Hi & Ho).
    rewrite Hm, Hi, Ho. unfold sep.
    destruct (String.eqb_spec os_name "nt"); [contradiction|]. repeat split.
  - intros k v Hk. unfold GAMSModel.defaults. now apply chain_get_first.
  - intros k Hk. unfold GAMSModel.defaults.
    rewrite chain_get_next by assumption. simpl.
    now destruct (dict_get k ixmp_defaults).
Qed.

Lemma defaults_lookup_witness :
  chain_get "in_file" (@GAMSModel.defaults Sample.posix)
    = Some (LAtom (AStr "{model_dir}/data/MsgData_{case}.gdx"))
  /\ chain_get "use_temp_dir" (@GAMSModel.defaults Sample.posix)
    = Some (LAtom (ABool false))
  /\ chain_get "gams_args" (@GAMSModel.defaults Sample.posix)
    = Some (LList [AStr "LogOption=4"]).
Proof.
  destruct (@defaults_lookup Sample.posix) as (_ & Hposix & Hfirst & Hnext).
  split; [|split].
  - apply Hposix. discriminate.
  - apply Hfirst. reflexivity.
  - rewrite Hnext; reflexivity.
Defined.

(** C5 as stated fails where [os.name] is 'nt': [pathlib] joins the parts
    with a backslash there. *)
Lemma defaults_model_file_windows :
  chain_get "model_file" (@GAMSModel.defaults Sample.windows)
    = Some (LAtom (AStr "{model_dir}\{model_name}_run.gms"))
  /\ chain_get "model_file" (@GAMSModel.defaults Sample.windows)
    <> Some (LAtom (AStr "{model_dir}/{model_name}_run.gms")).
Proof. split; [reflexivity|discriminate]. Qed.

(** ** The version check of MACRO *)

(** What [MACRO.__init__] does once [gams_release] has answered [v]: the
    test is [v < '24.8.1'] on strings. *)
Lemma MACRO_init_after_release `{Platform} G c name options w v w' :
  GamsRelease.gams_release w = (Ok (AStr v), w') ->
  MACRO.__init__ G c name options w =
    if PyStr.lt v MACRO.GAMS_min_version then
      (Raise (RuntimeError (cls_name c +++ " requires GAMS >= 24.8.1; found " +++ v)),
       w')
    else GAMSModel.__init__ G c name options w'.
Proof.
  intros Hrel. unfold MACRO.__init__, bind. rewrite Hrel. simpl.
  destruct (PyStr.lt v MACRO.GAMS_min_version); reflexivity.
Qed.

(** Releases on which the string order and the order of releases differ. *)
Example lt_24_10_1 :
  PyStr.lt "24.10.1" "24.8.1" = true /\ Release.earlier "24.10.1" "24.8.1" = false.
Proof. split; reflexivity. Qed.

Example lt_100_0_0 :
  PyStr.lt "100.0.0" "24.8.1" = true /\ Release.earlier "100.0.0" "24.8.1" = false.
Proof. split; reflexivity. Qed.

Example lt_3_0_0 :
  PyStr.lt "3.0.0" "24.8.1" = false /\ Release.earlier "3.0.0" "24.8.1" = true.
Proof. split; reflexivity. Qed.

(** Releases on which they agree. *)
Example lt_24_7_4 :
  PyStr.lt "24.7.4" "24.8.1" = true /\ Release.earlier "24.7.4" "24.8.1" = true.
Proof. split; reflexivity. Qed.

Example lt_25_1_3 :
  PyStr.lt "25.1.3" "24.8.1" = false /\ Release.earlier "25.1.3" "24.8.1" = false.
Proof. split; reflexivity. Qed.

(** C1. With a GAMS that announces release 24.10.1, which is not earlier
    than 24.8.1, constructing MACRO and MESSAGE-MACRO raises RuntimeError
    all the same: the releases are compared as strings. The message names
    the model and both versions. With release 25.1.3 the construction goes
    on to [GAMSModel.__init__]. *)
Theorem MACRO_init_release_24_10 :
  let P := Sample.platform "posix" Sample.banner_24_10 in
  let Q := Sample.posix in
  Release.earlier "24.10.1" MACRO.GAMS_min_version = false
  /\ (@MACRO.__init__ P (Sample.start P).1 C_MACRO None [] (Sample.start P).2).1
     = Raise (RuntimeError "MACRO requires GAMS >= 24.8.1; found 24.10.1")
  /\ (@MESSAGE_MACRO.__init__ P (Sample.start P).1 None [] (Sample.start P).2).1
     = Raise (RuntimeError "MESSAGE-MACRO requires GAMS >= 24.8.1; found 24.10.1")
  /\ (@MACRO.__init__ Q (Sample.start Q).1 C_MACRO None [] (Sample.start Q).2).1
     = (@GAMSModel.__init__ Q (Sample.start Q).1 C_MACRO None []
          (Sample.start Q).2).1.
Proof. repeat split; vm_compute; reflexivity. Qed.

(** ** The solver options of an instance *)

Lemma reify_atom n h a : reify n h (VAtom a) = Some (LAtom a).
Proof. now destruct n. Qed.

Lemma reify_list n h l : reify n h (VList l) = Some (LList l).
Proof. now destruct n. Qed.

Lemma reify_ref_O h l : reify 0 h (VRef l) = None.
Proof. reflexivity. Qed.

Lemma reify_ref_S n h l :
  reify (S n) h (VRef l) =
    match h !! l with
    | None => None
    | Some kvs =>
        match reify_items (reify n h) kvs with
        | Some ts => Some (LDict ts)
        | None => None
        end
    end.
Proof. reflexivity. Qed.

Lemma reify_items_cons rec k v kvs :
  reify_items rec ((k, v) :: kvs) =
    match rec v, reify_items rec kvs with
    | Some t, Some ts => Some ((k, t) :: ts)
    | _, _ => None
    end.
Proof. reflexivity. Qed.

#[global] Arguments reify : simpl never.

Lemma reify0_flat h v t : reify 0 h v = Some t -> v = flat_value t.
Proof.
  destruct v; [rewrite reify_atom|rewrite reify_list|rewrite reify_ref_O];
    intros ?; simplify_eq; reflexivity.
Qed.

Lemma reify_items0_flat h kvs items :
  reify_items (reify 0 h) kvs = Some items -> kvs = flat_dict items.
Proof.
  revert items. induction kvs as [|[k v] kvs IH]; intros items.
  - intros ?; simplify_eq/=. reflexivity.
  - rewrite reify_items_cons.
    destruct (reify 0 h v) as [t|] eqn:Hv;
      destruct (reify_items (reify 0 h) kvs) as [ts|]; intros ?; simplify_eq.
    simpl. rewrite (IH ts eq_refl). now rewrite (reify0_flat _ _ _ Hv).
Qed.

Lemma defaults_intact_inv G h :
  defaults_intact G h ->
  exists d, g_DEFAULT_CPLEX_OPTIONS G = VRef d /\ h !! d = Some default_dict.
Proof.
  unfold defaults_intact.
  destruct (g_DEFAULT_CPLEX_OPTIONS G) as [a|l|d];
    [rewrite reify_atom|rewrite reify_list|rewrite reify_ref_S];
    try (intros ?; simplify_eq; fail).
  destruct (h !! d) as [kvs|] eqn:Hd; [|intros ?; simplify_eq].
  destruct (reify_items (reify 0 h) kvs) as [ts|] eqn:Hts; intros ?; simplify_eq.
  exists d. split; [reflexivity|].
  rewrite Hd. f_equal. exact (reify_items0_flat _ _ _ Hts).
Qed.

Lemma defaults_intact_intro G h d :
  g_DEFAULT_CPLEX_OPTIONS G = VRef d -> h !! d = Some default_dict ->
  defaults_intact G h.
Proof. unfold defaults_intact. intros -> Hd. rewrite reify_ref_S, Hd. reflexivity. Qed.

(** What [GAMSModel.__init__] does to a store in which the defaults are
    the dictionary [D] and the user's 'solve_options', if any, are [U]. *)
Lemma GAMSModel_init_run `{Platform} G c name options w d D U :
  g_DEFAULT_CPLEX_OPTIONS G = VRef d ->
  w_heap w !! d = Some D ->
  match dict_get "solve_options" options with
  | Some (VRef u) => w_heap w !! u = Some U
  | Some _ => False
  | None => U = []
  end ->
  GAMSModel.__init__ G c name options w =
    (match ixmp_init (cls_name c) name
             (dict_del "solve_options"
                (dict_setdefault "model_dir" (VAtom (APath config_model_dir))
                   options)) with
     | Ok b => Ok (Model c (VRef (length (w_heap w))) b)
     | Raise e => Raise e
     end,
     World (w_heap w ++ [dict_update D U; []]) (w_fs w)).
Proof.
  intros HG Hd HU. destruct w as [h fs]. simpl in *.
  unfold GAMSModel.__init__, bind, on_heap, shallow_copy, new_dict. simpl.
  rewrite HG, Hd. simpl.
  set (opts0 := dict_setdefault _ _ options).
  assert (Hso : dict_get "solve_options" opts0 = dict_get "solve_options" options).
  { unfold opts0, dict_setdefault. destruct (dict_get "model_dir" options); [reflexivity|].
    apply dict_get_set_ne. discriminate. }
  rewrite Hso.
  assert (Hn : ((h ++ [D]) ++ [[]]) !! length h = Some D).
  { rewrite <- app_assoc. now apply list_lookup_middle. }
  assert (Hins : forall X, <[length h := X]> ((h ++ [D]) ++ [[]]) = h ++ [X; []]).
  { intros X. rewrite <- app_assoc. simpl.
    replace (length h) with (length h + 0)%nat at 1 by lia.
    now rewrite insert_app_r. }
  destruct (dict_get "solve_options" options) as [[a|l|u]|] eqn:Hopt; try contradiction.
  - (* the user gave a dictionary *)
    simpl. unfold update, bind, get_dict, put_dict. simpl. rewrite Hn.
    assert (Hu : ((h ++ [D]) ++ [[]]) !! u = Some U).
    { rewrite <- app_assoc. rewrite lookup_app_l; [assumption|].
      now apply lookup_lt_Some in HU. }
    cbn [w_heap w_fs]. rewrite Hu. cbn [w_heap w_fs]. rewrite Hins.
    unfold lift_result, ret. now destruct (ixmp_init _ _ _).
  - (* no 'solve_options': the empty dictionary *)
    subst U. simpl. unfold update, bind, get_dict, put_dict. simpl. rewrite Hn.
    rewrite length_app. simpl.
    assert (He : ((h ++ [D]) ++ [[]]) !! (length h + 1)%nat = Some []).
    { replace (length h + 1)%nat with (length (h ++ [D])).
      - now apply list_lookup_middle.
      - rewrite length_app. simpl. lia. }
    cbn [w_heap w_fs]. rewrite He. cbn [w_heap w_fs]. rewrite Hins.
    unfold lift_result, ret. now destruct (ixmp_init _ _ _).
Qed.

(** C3. After [GAMSModel.__init__], [cplex_opts] has the user's value for
    every key of the user's 'solve_options' and the default value for every
    other key (advind=0, lpmethod=2, threads=4, epopt=1e-6); without
    'solve_options' it equals the defaults. The options forwarded to the
    constructor of [ixmp] have no 'solve_options' key. *)
Theorem GAMSModel_init_cplex_opts `{Platform} G c name options w :
  defaults_intact G (w_heap w) ->
  (forall u U,
      dict_get "solve_options" options = Some (VRef u) ->
      w_heap w !! u = Some U ->
      NoDup (dict_keys U) ->
      exists forwarded l C w',
        GAMSModel.__init__ G c name options w =
          (match ixmp_init (cls_name c) name forwarded with
           | Ok b => Ok (Model c (VRef l) b)
           | Raise e => Raise e
           end, w')
        /\ dict_get "solve_options" forwarded = None
        /\ (forall k, k <> "solve_options"%string -> k <> "model_dir"%string ->
            dict_get k forwarded = dict_get k options)
        /\ w_heap w' !! l = Some C
        /\ (forall k v, dict_get k U = Some v -> dict_get k C = Some v)
        /\ (forall k, dict_get k U = None ->
            dict_get k C = dict_get k (flat_dict DEFAULT_CPLEX_OPTIONS)))
  /\ (dict_get "solve_options" options = None ->
      exists forwarded l w',
        GAMSModel.__init__ G c name options w =
          (match ixmp_init (cls_name c) name forwarded with
           | Ok b => Ok (Model c (VRef l) b)
           | Raise e => Raise e
           end, w')
        /\ dict_get "solve_options" forwarded = None
        /\ (forall k, k <> "solve_options"%string -> k <> "model_dir"%string ->
            dict_get k forwarded = dict_get k options)
        /\ w_heap w' !! l = Some (flat_dict DEFAULT_CPLEX_OPTIONS)
        /\ reify 1 (w_heap w') (VRef l) = Some (LDict DEFAULT_CPLEX_OPTIONS))
  /\ flat_dict DEFAULT_CPLEX_OPTIONS =
       [ ("advind", VAtom (AInt 0)); ("lpmethod", VAtom (AInt 2));
         ("threads", VAtom (AInt 4)); ("epopt", VAtom (AFloat "1e-06")) ]%string.
Proof.
  intros Hintact.
  destruct (defaults_intact_inv _ _ Hintact) as (d & HG & Hd).
  assert (Hfwd : forall k, k <> "solve_options"%string -> k <> "model_dir"%string ->
            dict_get k (dict_del "solve_options"
                          (dict_setdefault "model_dir"
                             (VAtom (APath config_model_dir)) options))
            = dict_get k options).
  { intros k Hk1 Hk2. rewrite dict_get_del_ne by congruence.
    unfold dict_setdefault. destruct (dict_get "model_dir" options); [reflexivity|].
    apply dict_get_set_ne. congruence. }
  assert (Hmid : forall (X : dict), (w_heap w ++ [X; []]) !! length (w_heap w) = Some X).
  { intros X. now apply list_lookup_middle. }
  split; [|split].
  - intros u U Hopt HU Hnd.
    eexists _, _, _, _. split.
    { apply (GAMSModel_init_run G c name options w d default_dict U HG Hd).
      now rewrite Hopt. }
    split; [apply dict_get_del_eq|]. split; [exact Hfwd|].
    split; [apply Hmid|]. split.
    + intros k v Hk. now apply dict_get_update_key.
    + intros k Hk. now apply dict_get_update_other.
  - intros Hopt.
    eexists _, _, _. split.
    { apply (GAMSModel_init_run G c name options w d default_dict [] HG Hd).
      now rewrite Hopt. }
    split; [apply dict_get_del_eq|]. split; [exact Hfwd|].
    cbn [w_heap]. rewrite dict_update_nil. split; [apply Hmid|].
    rewrite reify_ref_S, Hmid. reflexivity.
  - reflexivity.
Qed.

Lemma GAMSModel_init_cplex_opts_witness :
  exists forwarded l C w',
    @GAMSModel.__init__ Sample.posix Sample.G C_MESSAGE None
        [("solve_options", Sample.user_ref)]%string Sample.user_world =
      (match @ixmp_init Sample.posix "MESSAGE" None forwarded with
       | Ok b => Ok (@Model Sample.posix C_MESSAGE (VRef l) b)
       | Raise e => Raise e
       end, w')
    /\ dict_get "solve_options" forwarded = None
    /\ w_heap w' !! l = Some C
    /\ dict_get "threads" C = Some (VAtom (AInt 8))
    /\ dict_get "mipgap" C = Some (VAtom (AFloat "0.01"))
    /\ dict_get "lpmethod" C = Some (VAtom (AInt 2)).
Proof.
  destruct (@GAMSModel_init_cplex_opts Sample.posix Sample.G C_MESSAGE None
              [("solve_options", Sample.user_ref)]%string Sample.user_world)
    as (Huser & _ & _); [reflexivity|].
  destruct (Huser 10%nat Sample.user_options) as (fw & l & C & w' & Hrun & Hso & _ & Hl & HU & HD);
    [reflexivity|reflexivity|compute_done|].
  exists fw, l, C, w'. split; [exact Hrun|]. split; [exact Hso|].
  split; [exact Hl|]. split; [|split].
  - apply HU. reflexivity.
  - apply HU. reflexivity.
  - rewrite HD; reflexivity.
Defined.

(** ** Computations that leave the store alone *)

Lemma heap_stable_ret {A} (a : A) : heap_stable (ret a).
Proof. now intros w. Qed.

Lemma heap_stable_raise {A} e : heap_stable (@raise A e).
Proof. now intros w. Qed.

Lemma heap_stable_lift {A} (r : result A) : heap_stable (lift_result r).
Proof. now intros w. Qed.

Lemma heap_stable_on_fs {A} (f : filesystem -> result A * filesystem) :
  heap_stable (on_fs f).
Proof. intros w. unfold on_fs. now destruct (f (w_fs w)). Qed.

Lemma heap_stable_bind {A B} (m : M A) (f : A -> M B) :
  heap_stable m -> (forall a, heap_stable (f a)) -> heap_stable (bind m f).
Proof.
  intros Hm Hf w. unfold bind. specialize (Hm w).
  destruct (m w) as [[a|e] w1]; simpl in *; [|assumption].
  now rewrite Hf.
Qed.

Lemma gams_release_heap `{Platform} : heap_stable GamsRelease.gams_release.
Proof.
  unfold GamsRelease.gams_release.
  repeat first
    [ apply heap_stable_bind; [|intros ?]
    | apply heap_stable_on_fs
    | apply heap_stable_lift ].
Qed.

(** ** The defaults are copied *)

Lemma update_from_list_heap l elems : forall kvs w,
  exists kvs',
    w_heap (update_from_list l kvs elems w).2 = <[l := kvs']> (w_heap w)
    /\ w_fs (update_from_list l kvs elems w).2 = w_fs w.
Proof.
  induction elems as [|e elems IH]; intros kvs w.
  - exists kvs. now split.
  - destruct e as [| | | |s|]; try (exists kvs; now split).
    destruct s as [|a [|b [|c s]]]; try (exists kvs; now split).
    apply IH.
Qed.

(** Whatever the options are, [GAMSModel.__init__] adds two objects to the
    store, the copy of the defaults and an empty dictionary, and touches
    nothing else; the instance it returns holds the first. *)
Lemma GAMSModel_init_frame `{Platform} G c name options w d D :
  g_DEFAULT_CPLEX_OPTIONS G = VRef d ->
  w_heap w !! d = Some D ->
  exists X,
    w_heap (GAMSModel.__init__ G c name options w).2 = w_heap w ++ [X; []]
    /\ w_fs (GAMSModel.__init__ G c name options w).2 = w_fs w
    /\ forall m, (GAMSModel.__init__ G c name options w).1 = Ok m ->
         cplex_opts m = VRef (length (w_heap w)).
Proof.
  intros HG Hd. destruct w as [h fs]. cbn [w_heap w_fs] in *.
  unfold GAMSModel.__init__, bind, on_heap, shallow_copy, new_dict.
  cbn [w_heap w_fs]. rewrite HG, Hd. cbn [w_heap w_fs].
  set (opts0 := dict_setdefault _ _ options).
  set (other := default _ (dict_get "solve_options" opts0)).
  assert (Hn : ((h ++ [D]) ++ [[]]) !! length h = Some D).
  { rewrite <- app_assoc. now apply list_lookup_middle. }
  assert (Hins : forall X, <[length h := X]> ((h ++ [D]) ++ [[]]) = h ++ [X; []]).
  { intros X. rewrite <- app_assoc. simpl.
    replace (length h) with (length h + 0)%nat at 1 by lia.
    now rewrite insert_app_r. }
  assert (Hsame : (h ++ [D]) ++ [[]] = h ++ [D; []]) by now rewrite <- app_assoc.
  unfold update, bind, get_dict. cbn [w_heap w_fs]. rewrite Hn.
  destruct other as [a|elems|u].
  - exists D. unfold raise. cbn. rewrite Hsame. repeat split. discriminate.
  - destruct (update_from_list_heap (length h) elems D
                (World ((h ++ [D]) ++ [[]]) fs)) as (kvs' & Hh & Hf).
    cbn [w_heap w_fs] in Hh, Hf. rewrite Hins in Hh.
    destruct (update_from_list _ _ _ _) as [[[]|e] w1]; cbn [fst snd w_heap w_fs] in *.
    + unfold lift_result, ret.
      destruct (ixmp_init _ _ _); cbn; exists kvs'; repeat split; try assumption.
      * now intros m [= <-].
      * discriminate.
    + exists kvs'. repeat split; try assumption. discriminate.
  - cbn [w_heap w_fs].
    destruct (((h ++ [D]) ++ [[]]) !! u) as [U|]; cbn [w_heap w_fs fst snd].
    + unfold put_dict. cbn [w_heap w_fs]. rewrite Hins.
      unfold lift_result, ret.
      destruct (ixmp_init _ _ _); cbn; exists (dict_update D U); repeat split.
      * now intros m [= <-].
      * discriminate.
    + exists D. rewrite Hsame. repeat split. discriminate.
Qed.

Lemma construct_frame `{Platform} G c name options w d D :
  g_DEFAULT_CPLEX_OPTIONS G = VRef d ->
  w_heap w !! d = Some D ->
  w_heap (Client.construct G c name options w).2 !! d = Some D
  /\ forall m, (Client.construct G c name options w).1 = Ok m ->
       cplex_opts m <> VRef d.
Proof.
  intros HG Hd.
  assert (Hlt : (d < length (w_heap w))%nat) by now apply lookup_lt_Some in Hd.
  assert (Hbase : forall w0, w_heap w0 = w_heap w ->
            w_heap (GAMSModel.__init__ G c name options w0).2 !! d = Some D
            /\ forall m, (GAMSModel.__init__ G c name options w0).1 = Ok m ->
                 cplex_opts m <> VRef d).
  { intros w0 Hw0.
    destruct (GAMSModel_init_frame G c name options w0 d D HG) as (X & Hh & _ & Hm).
    { now rewrite Hw0. }
    split.
    - rewrite Hh, Hw0. now rewrite lookup_app_l.
    - intros m Hok. rewrite (Hm m Hok), Hw0. intros [= Heq]. lia. }
  assert (Hmacro :
            w_heap (MACRO.__init__ G c name options w).2 !! d = Some D
            /\ forall m, (MACRO.__init__ G c name options w).1 = Ok m ->
                 cplex_opts m <> VRef d).
  { unfold MACRO.__init__, bind.
    pose proof (gams_release_heap w) as Hrel.
    destruct (GamsRelease.gams_release w) as [[v|e] w1]; cbn [fst snd] in *.
    - unfold lift_result. destruct (py_lt v _) as [[|]|e]; cbn [fst snd].
      + unfold raise; cbn. rewrite Hrel. split; [assumption|discriminate].
      + now apply Hbase.
      + rewrite Hrel. split; [assumption|discriminate].
    - rewrite Hrel. split; [assumption|discriminate]. }
  destruct c; cbn [Client.construct]; first [now apply Hbase | exact Hmacro].
Qed.

Lemma step_defaults_apart `{Platform} G d a st :
  g_DEFAULT_CPLEX_OPTIONS G = VRef d ->
  defaults_apart d st -> defaults_apart d (Client.step G a st).
Proof.
  intros HG [Hd Hall]. destruct st as [w ms]. cbn [fst snd] in *.
  destruct a as [c name options|i change]; cbn [Client.step fst snd].
  - destruct (construct_frame G c name options w d default_dict HG Hd) as [Hd' Hm].
    destruct (Client.construct G c name options w) as [[m|e] w'];
      cbn [fst snd] in *; split; try assumption.
    apply Forall_app. split; [assumption|]. constructor; [|constructor].
    now apply Hm.
  - destruct (ms !! i) as [m|] eqn:Hi; [|now split].
    destruct (cplex_opts m) as [a|l0|l] eqn:Hl; try now split.
    destruct (w_heap w !! l) as [dl|] eqn:Hwl; [|now split].
    split; [|assumption]. cbn [fst w_heap].
    rewrite list_lookup_insert_ne; [assumption|].
    intros ->. rewrite Forall_forall in Hall.
    apply (Hall m); [|assumption]. apply list_elem_of_lookup. eauto.
Qed.

Lemma steps_defaults_apart `{Platform} G d actions : forall st,
  g_DEFAULT_CPLEX_OPTIONS G = VRef d ->
  defaults_apart d st -> defaults_apart d (Client.steps G actions st).
Proof.
  unfold Client.steps.
  induction actions as [|a actions IH]; intros st HG Hinv; [assumption|].
  simpl. apply IH; [assumption|]. now apply step_defaults_apart.
Qed.

Lemma import_module_defaults `{Platform} h :
  g_DEFAULT_CPLEX_OPTIONS (import_module h).1 = VRef (length (import_module h).2 - 1)
  /\ (import_module h).2 !! (length (import_module h).2 - 1) = Some default_dict.
Proof.
  unfold import_module.
  destruct (alloc (LDict MACRO_ITEMS) h) as [m h1].
  change (alloc (LDict DEFAULT_CPLEX_OPTIONS) h1)
    with (VRef (length h1), h1 ++ [default_dict]).
  cbn [fst snd g_DEFAULT_CPLEX_OPTIONS]. rewrite length_app. simpl.
  replace (length h1 + 1 - 1)%nat with (length h1) by lia.
  split; [reflexivity|]. now apply list_lookup_middle.
Qed.

(** C9. From the import on, whatever instances a program constructs, with
    whatever options, and however it changes their [cplex_opts]
    afterwards, [DEFAULT_CPLEX_OPTIONS] stays as the module defined it. *)
Theorem DEFAULT_CPLEX_OPTIONS_unchanged `{Platform} h fs actions :
  let G := (import_module h).1 in
  let w0 := World (import_module h).2 fs in
  defaults_intact G (w_heap w0)
  /\ defaults_intact G (w_heap (Client.steps G actions (w0, [])).1).
Proof.
  intros G w0.
  destruct (import_module_defaults h) as [HG Hd]. fold G in HG.
  split.
  - now apply (defaults_intact_intro G _ _ HG).
  - destruct (steps_defaults_apart G _ actions (w0, []) HG) as [Hd' _].
    { split; [exact Hd|constructor]. }
    now apply (defaults_intact_intro G _ _ HG).
Qed.

(** ** The options file *)

Lemma parent_div p name : Pathlib.parent (Pathlib.div p name) = p.
Proof.
  destruct p as [a parts]. unfold Pathlib.parent, Pathlib.div. cbn [fst snd].
  now rewrite removelast_last.
Qed.

Lemma div_ne p name : Pathlib.div p name <> p.
Proof.
  destruct p as [a parts]. unfold Pathlib.div. cbn [fst snd].
  intros [= Heq]. apply (f_equal length) in Heq.
  rewrite length_app in Heq. simpl in Heq. lia.
Qed.

Lemma map_result_format `{Platform} opts :
  map_result GAMSModel.format_kv (scalar_dict opts)
  = Ok (map (fun ka => ka.1 +++ " = " +++ py_str ka.2) opts).
Proof.
  induction opts as [|[k a] opts IH]; [reflexivity|].
  cbn [scalar_dict map map_result GAMSModel.format_kv fst snd].
  fold (scalar_dict opts). now rewrite IH.
Qed.

(** Writing the options: in an existing model directory the file is
    created, or replaced, with one line per option. *)
Lemma write_optfile_run `{Platform} self w p l opts :
  ixmp_model_dir (m_base self) = VAtom (APath p) ->
  cplex_opts self = VRef l ->
  w_heap w !! l = Some (scalar_dict opts) ->
  w_fs w !! p = Some Dir ->
  w_fs w !! Pathlib.div p "cplex.opt" <> Some Dir ->
  GAMSModel.write_optfile self w =
    (Ok (Pathlib.div p "cplex.opt"),
     World (w_heap w)
       (<[Pathlib.div p "cplex.opt" := File (option_lines opts)]> (w_fs w))).
Proof.
  intros Hdir Hopts Hl Hp Hfile. destruct w as [h fs]. cbn [w_heap w_fs] in *.
  unfold GAMSModel.write_optfile, GAMSModel.optfile, bind, lift_result, get_dict.
  rewrite Hdir, Hopts. cbn [w_heap w_fs]. rewrite Hl.
  rewrite map_result_format.
  unfold on_fs, Pathlib.write_text. cbn [w_heap w_fs].
  rewrite parent_div, Hp.
  destruct (fs !! Pathlib.div p "cplex.opt") as [[c|]|] eqn:Hf;
    [reflexivity|contradiction|reflexivity].
Qed.

(** C2. [GAMSModel.run] first writes cplex.opt into the model directory,
    one line 'key = value' per entry of [cplex_opts], the lines joined by
    newlines; the engine runs with that file in place; and afterwards the
    file is removed, whether the engine returned, and then [run] returns
    its result, or raised, and then [run] raises the same exception. *)
Theorem run_writes_and_removes `{Platform} self scenario w p l opts r fs2 :
  let optfile := Pathlib.div p "cplex.opt" in
  let fs1 := <[optfile := File (option_lines opts)]> (w_fs w) in
  ixmp_model_dir (m_base self) = VAtom (APath p) ->
  cplex_opts self = VRef l ->
  w_heap w !! l = Some (scalar_dict opts) ->
  w_fs w !! p = Some Dir ->
  w_fs w !! optfile <> Some Dir ->
  ixmp_run (m_base self) scenario fs1 = (r, fs2) ->
  (exists c, fs2 !! optfile = Some (File c)) ->
  GAMSModel.write_optfile self w = (Ok optfile, World (w_heap w) fs1)
  /\ fs1 !! optfile = Some (File (option_lines opts))
  /\ GAMSModel.run self scenario w = (r, World (w_heap w) (delete optfile fs2))
  /\ delete optfile fs2 !! optfile = None.
Proof.
  intros optfile fs1 Hdir Hopts Hl Hp Hfile Hrun [c Hc].
  pose proof (write_optfile_run self w p l opts Hdir Hopts Hl Hp Hfile) as Hw.
  fold optfile in Hw. fold fs1 in Hw.
  split; [exact Hw|]. split; [apply lookup_insert_eq|]. split.
  - unfold GAMSModel.run, bind. rewrite Hw.
    unfold try_finally, on_fs. cbn [w_heap w_fs]. rewrite Hrun.
    cbn [w_heap w_fs]. unfold Pathlib.unlink. rewrite Hc. reflexivity.
  - apply lookup_delete_eq.
Qed.

Lemma run_writes_and_removes_witness :
  @GAMSModel.run Sample.posix Sample.instance [] Sample.user_world
  = (Ok ("threads = 8" +++ PyStr.nl +++ "mipgap = 0.01"),
     World (w_heap Sample.user_world)
       (delete (Pathlib.div Sample.models "cplex.opt")
          (<[Pathlib.div Sample.models "cplex.opt" :=
               File (@option_lines Sample.posix Sample.user_scalars)]>
             Sample.disk))).
Proof.
  refine (proj1 (proj2 (proj2
    (@run_writes_and_removes Sample.posix Sample.instance [] Sample.user_world
       Sample.models 10 Sample.user_scalars _ _ _ _ _ _ _ _ _)))).
  - reflexivity.
  - reflexivity.
  - reflexivity.
  - reflexivity.
  - vm_compute. discriminate.
  - reflexivity.
  - eexists. vm_compute. reflexivity.
Defined.

(** When the engine raises, the exception is that of [run], and the file is
    removed all the same. *)
Example run_engine_raises :
  @GAMSModel.run Sample.failing Sample.failing_instance [] Sample.user_world
  = (Raise (OtherError "GAMS failed"), Sample.user_world)
  /\ @GAMSModel.write_optfile Sample.failing Sample.failing_instance Sample.user_world
    = (Ok (Pathlib.div Sample.models "cplex.opt"),
       World (w_heap Sample.user_world)
         (<[Pathlib.div Sample.models "cplex.opt" :=
              File ("threads = 8" +++ PyStr.nl +++ "mipgap = 0.01")]> Sample.disk)).
Proof. split; reflexivity. Qed.

(** ** Two runs in one model directory *)



(** ** The matcher *)

Section MatcherFacts.
Context {R : Type}.
Implicit Types (seen rest run : list ascii) (g : option (list ascii)).
Implicit Types (k : @Re.cont R) (p : ascii -> bool).

Lemma exec_seq r1 r2 seen rest g k :
  Re.exec (Re.Seq r1 r2) seen rest g k
  = Re.exec r1 seen rest g (fun seen' rest' g' => Re.exec r2 seen' rest' g' k).
Proof. reflexivity. Qed.

(** A literal word matches exactly itself. *)
Lemma exec_word_app l : forall seen rest g k,
  Re.exec (Re.word l) seen (l ++ rest) g k = k (rev l ++ seen) rest g.
Proof.
  induction l as [|c l IH]; intros seen rest g k.
  - simpl. destruct rest; reflexivity.
  - destruct l as [|c' l].
    + simpl. now rewrite Ascii.eqb_refl.
    + change (Re.word (c :: c' :: l)) with (Re.Seq (Re.Chr c) (Re.word (c' :: l))).
      rewrite exec_seq. cbn [Re.exec app]. rewrite Ascii.eqb_refl.
      change (c' :: l ++ rest) with ((c' :: l) ++ rest). rewrite IH.
      f_equal. change (rev (c :: c' :: l)) with (rev (c' :: l) ++ [c]).
      now rewrite <- app_assoc.
Qed.

Lemma exec_word_inv l : forall seen rest g k r,
  Re.exec (Re.word l) seen rest g k = Some r ->
  exists rest', rest = l ++ rest' /\ k (rev l ++ seen) rest' g = Some r.
Proof.
  induction l as [|c l IH]; intros seen rest g k r.
  - simpl. intros Hk. exists rest. split; [reflexivity|]. now destruct rest.
  - destruct l as [|c' l].
    + simpl. destruct rest as [|x rest]; [discriminate|].
      destruct (Ascii.eqb_spec x c) as [->|]; [|discriminate].
      intros Hk. now exists rest.
    + change (Re.word (c :: c' :: l)) with (Re.Seq (Re.Chr c) (Re.word (c' :: l))).
      rewrite exec_seq. cbn [Re.exec].
      destruct rest as [|x rest]; [discriminate|].
      destruct (Ascii.eqb_spec x c) as [->|]; [|discriminate].
      intros Hk. apply IH in Hk as (rest' & -> & Hk).
      exists rest'. split; [reflexivity|].
      change (rev (c :: c' :: l)) with (rev (c' :: l) ++ [c]).
      now rewrite <- app_assoc.
Qed.

(** What a repetition hands to the rest of the pattern: a run of
    characters of the set. *)
Lemma rep_greedy_inv p : forall rest seen g k r,
  Re.rep_greedy p seen rest g k = Some r ->
  exists run rest',
    rest = run ++ rest' /\ Forall (fun c => p c = true) run
    /\ k (rev run ++ seen) rest' g = Some r.
Proof.
  induction rest as [|c rest IH]; intros seen g k r; simpl.
  - intros Hk. exists [], []. now repeat split.
  - destruct (p c) eqn:Hp.
    + destruct (Re.rep_greedy p (c :: seen) rest g k) as [r'|] eqn:Hrec.
      * intros [= <-]. apply IH in Hrec as (run & rest' & -> & Hrun & Hk).
        exists (c :: run), rest'. split; [reflexivity|]. split; [now constructor|].
        simpl. now rewrite <- app_assoc.
      * intros Hk. exists [], (c :: rest). now repeat split.
    + intros Hk. exists [], (c :: rest). now repeat split.
Qed.

(** A greedy repetition takes the whole run when the rest of the pattern
    accepts what follows it. *)
Lemma rep_greedy_max p run : forall seen rest g k r,
  Forall (fun c => p c = true) run ->
  match rest with [] => True | c :: _ => p c = false end ->
  k (rev run ++ seen) rest g = Some r ->
  Re.rep_greedy p seen (run ++ rest) g k = Some r.
Proof.
  induction run as [|c run IH]; intros seen rest g k r Hrun Hstop Hk.
  - simpl in *. destruct rest as [|c rest]; [assumption|]. simpl. now rewrite Hstop.
  - apply Forall_cons in Hrun as [Hc Hrun]. simpl. rewrite Hc.
    rewrite (IH (c :: seen) rest g k r); try assumption. reflexivity.
    simpl in Hk. now rewrite <- app_assoc in Hk.
Qed.

(** A lazy repetition stops at the first place where the rest of the
    pattern succeeds. *)
Lemma rep_lazy_inv p : forall rest seen g k r,
  Re.rep_lazy p seen rest g k = Some r ->
  exists run rest',
    rest = run ++ rest' /\ Forall (fun c => p c = true) run
    /\ k (rev run ++ seen) rest' g = Some r
    /\ forall run1 run2, run = run1 ++ run2 -> run2 <> [] ->
         k (rev run1 ++ seen) (run2 ++ rest') g = None.
Proof.
  induction rest as [|c rest IH]; intros seen g k r; simpl.
  - destruct (k seen [] g) as [r'|] eqn:Hk; [|discriminate].
    intros [= <-]. exists [], []. repeat split; try assumption; try constructor.
    intros run1 run2 Heq Hne. symmetry in Heq. apply app_eq_nil in Heq as [_ ->]. congruence.
  - destruct (k seen (c :: rest) g) as [r'|] eqn:Hk.
    + intros [= <-]. exists [], (c :: rest). repeat split; try assumption; try constructor.
      intros run1 run2 Heq Hne. symmetry in Heq. apply app_eq_nil in Heq as [_ ->]. congruence.
    + destruct (p c) eqn:Hp; [|discriminate].
      intros Hrec. apply IH in Hrec as (run & rest' & -> & Hrun & Hok & Hmin).
      exists (c :: run), rest'. split; [reflexivity|]. split; [now constructor|].
      split; [simpl; now rewrite <- app_assoc|].
      intros run1 run2 Heq Hne. destruct run1 as [|c1 run1].
      * simpl in Heq. subst run2. simpl. exact Hk.
      * simpl in Heq. injection Heq as <- Heq.
        simpl. rewrite <- app_assoc. simpl. now apply Hmin.
Qed.

Lemma rep_lazy_first p run : forall seen rest g k r,
  Forall (fun c => p c = true) run ->
  k (rev run ++ seen) rest g = Some r ->
  (forall run1 run2, run = run1 ++ run2 -> run2 <> [] ->
     k (rev run1 ++ seen) (run2 ++ rest) g = None) ->
  Re.rep_lazy p seen (run ++ rest) g k = Some r.
Proof.
  induction run as [|c run IH]; intros seen rest g k r Hrun Hk Hmin.
  - simpl in *. destruct rest; simpl; now rewrite Hk.
  - apply Forall_cons in Hrun as [Hc Hrun]. simpl.
    pose proof (Hmin [] (c :: run) eq_refl ltac:(discriminate)) as H0.
    simpl in H0. rewrite H0, Hc.
    apply IH; try assumption.
    + simpl in Hk. now rewrite <- app_assoc in Hk.
    + intros run1 run2 Heq Hne. specialize (Hmin (c :: run1) run2).
      simpl in Hmin. rewrite <- app_assoc in Hmin. simpl in Hmin.
      apply Hmin; [now rewrite Heq|assumption].
Qed.

(** A group of one or more characters of a set: group 1 is the text the
    group consumed. *)
Lemma group_capture seen c run :
  rev (take (length (rev run ++ c :: seen) - length seen) (rev run ++ c :: seen))
  = c :: run.
Proof.
  rewrite length_app, length_rev. simpl.
  replace (length run + S (length seen) - length seen) with (length (rev run ++ [c]))
    by (rewrite length_app, length_rev; simpl; lia).
  change (rev run ++ c :: seen) with (rev run ++ [c] ++ seen).
  rewrite app_assoc, take_app_length.
  rewrite rev_app_distr, rev_involutive. reflexivity.
Qed.

End MatcherFacts.

(** ** Searching *)

Lemma app_eq_app_le {A} (l1 l2 k1 k2 : list A) :
  l1 ++ l2 = k1 ++ k2 -> length l1 <= length k1 ->
  exists m, k1 = l1 ++ m /\ l2 = m ++ k2.
Proof.
  revert k1. induction l1 as [|x l1 IH]; intros k1 Heq Hlen.
  - exists k1. now split.
  - destruct k1 as [|y k1]; [simpl in Hlen; lia|].
    simpl in Heq. injection Heq as -> Heq.
    destruct (IH k1 Heq) as (m & -> & ->); [simpl in Hlen; lia|].
    now exists m.
Qed.

Lemma search_from_inv r : forall rest seen g,
  Re.search_from r seen rest = Some g ->
  exists pre rest',
    rest = pre ++ rest'
    /\ Re.exec r (rev pre ++ seen) rest' None K0 = Some g
    /\ forall pre1 pre2, pre = pre1 ++ pre2 -> pre2 <> [] ->
         Re.exec r (rev pre1 ++ seen) (pre2 ++ rest') None K0 = None.
Proof.
  assert (Hnil : forall (pre1 pre2 : list ascii), [] = pre1 ++ pre2 -> pre2 <> [] -> False).
  { intros pre1 pre2 Heq Hne. symmetry in Heq. apply app_eq_nil in Heq as [_ ->]. congruence. }
  induction rest as [|c rest IH]; intros seen g; simpl.
  - fold K0. destruct (Re.exec r seen [] None K0) as [g'|] eqn:He; [|discriminate].
    intros [= <-]. exists [], []. repeat split; try assumption.
    intros pre1 pre2 Heq Hne. destruct (Hnil _ _ Heq Hne).
  - fold K0. destruct (Re.exec r seen (c :: rest) None K0) as [g'|] eqn:He.
    + intros [= <-]. exists [], (c :: rest). repeat split; try assumption.
      intros pre1 pre2 Heq Hne. destruct (Hnil _ _ Heq Hne).
    + intros Hrec. apply IH in Hrec as (pre & rest' & -> & Hok & Hmin).
      exists (c :: pre), rest'. split; [reflexivity|].
      split; [simpl; now rewrite <- app_assoc|].
      intros pre1 pre2 Heq Hne. destruct pre1 as [|c1 pre1].
      * simpl in Heq. subst pre2. exact He.
      * simpl in Heq. injection Heq as <- Heq.
        simpl. rewrite <- app_assoc. now apply Hmin.
Qed.

Lemma search_from_first r pre : forall seen rest g,
  Re.exec r (rev pre ++ seen) rest None K0 = Some g ->
  (forall pre1 pre2, pre = pre1 ++ pre2 -> pre2 <> [] ->
     Re.exec r (rev pre1 ++ seen) (pre2 ++ rest) None K0 = None) ->
  Re.search_from r seen (pre ++ rest) = Some g.
Proof.
  induction pre as [|c pre IH]; intros seen rest g Hok Hmin.
  - simpl in *. destruct rest; simpl; fold K0; now rewrite Hok.
  - simpl. fold K0.
    pose proof (Hmin [] (c :: pre) eq_refl ltac:(discriminate)) as H0.
    simpl in H0. rewrite H0. apply IH.
    + simpl in Hok. now rewrite <- app_assoc in Hok.
    + intros pre1 pre2 Heq Hne. specialize (Hmin (c :: pre1) pre2).
      simpl in Hmin. rewrite <- app_assoc in Hmin.
      apply Hmin; [now rewrite Heq|assumption].
Qed.

Lemma chars_of_chars l : PyStr.chars (PyStr.of_chars l) = l.
Proof. apply list_ascii_of_string_of_list_ascii. Qed.

Lemma of_chars_chars s : PyStr.of_chars (PyStr.chars s) = s.
Proof. apply string_of_list_ascii_of_string. Qed.

(** [re.search(...).group(1)] answers with what the pattern finds at the
    first place where it finds anything. *)
Lemma search_group1_first r (found : list ascii -> list ascii -> list ascii -> Prop) :
  (forall seen rest g,
      Re.exec r seen rest None K0 = Some g <-> exists v, g = Some v /\ found seen rest v) ->
  forall s a,
    Re.search_group1 r s = Ok a <-> exists v, a = AStr v /\ first_at found s v.
Proof.
  intros Hexec s a. unfold Re.search_group1, Re.search, first_at. split.
  - destruct (Re.search_from r [] (PyStr.chars s)) as [[g|]|] eqn:Hs;
      [|apply search_from_inv in Hs as (pre & rest & _ & Hok & _);
        apply Hexec in Hok as (v & [=] & _) | discriminate].
    intros [= <-]. apply search_from_inv in Hs as (pre & rest & Heq & Hok & Hmin).
    rewrite app_nil_r in Hok. apply Hexec in Hok as (v & [= ->] & Hv).
    exists (PyStr.of_chars v). split; [reflexivity|].
    exists pre, rest. split; [assumption|].
    rewrite chars_of_chars. split; [assumption|].
    intros pre' rest' v' Heq' Hlen Hfound.
    rewrite Heq in Heq'.
    destruct (app_eq_app_le pre' rest' pre rest (eq_sym Heq') ltac:(lia))
      as (m & -> & ->).
    assert (Hm : m <> []).
    { intros ->. rewrite app_nil_r in Hlen. lia. }
    specialize (Hmin pre' m eq_refl Hm). rewrite app_nil_r in Hmin.
    assert (Hsome : Re.exec r (rev pre') (m ++ rest) None K0 = Some (Some v')).
    { apply Hexec. now exists v'. }
    congruence.
  - intros (v & -> & pre & rest & Heq & Hv & Hmin).
    rewrite Heq.
    rewrite (search_from_first r pre [] rest (Some (PyStr.chars v))).
    + now rewrite of_chars_chars.
    + rewrite app_nil_r. apply Hexec. now exists (PyStr.chars v).
    + intros pre1 pre2 Hpre Hne. rewrite app_nil_r.
      destruct (Re.exec r (rev pre1) (pre2 ++ rest) None K0) as [g|] eqn:He;
        [|reflexivity].
      apply Hexec in He as (v' & _ & Hv').
      exfalso. apply (Hmin pre1 (pre2 ++ rest) v').
      * rewrite Heq, Hpre. now rewrite <- app_assoc.
      * rewrite Hpre, length_app. destruct pre2; [congruence|simpl; lia].
      * assumption.
Qed.

(** ** The banner of GAMS *)

Lemma space_not_digit_or_dot c : Re.space c = true -> Re.digit_or_dot c = false.
Proof.
  destruct c as [[] [] [] [] [] [] [] []]; vm_compute; congruence.
Qed.

Lemma exec_banner seen rest g :
  Re.exec GamsRelease.pattern seen rest None K0 = Some g
  <-> exists v, g = Some v /\ banner_at seen rest v.
Proof.
  unfold GamsRelease.pattern, banner_at. split.
  - rewrite exec_seq. cbn [Re.exec].
    intros Hex.
    assert (Hstart : at_line_start seen
              /\ Re.exec
                   (Re.Seq (Re.word (PyStr.chars "GAMS "))
                      (Re.Seq (Re.Group (Re.plus true Re.digit_or_dot))
                         (Re.Seq (Re.Rep true Re.space)
                            (Re.word (PyStr.chars "Copyright")))))
                   seen rest None K0 = Some g).
    { destruct seen as [|x seen]; [now split|].
      destruct (Nat.eqb_spec (Re.code x) 10); [now split|discriminate]. }
    clear Hex. destruct Hstart as [Hstart Hex].
    rewrite exec_seq in Hex. apply exec_word_inv in Hex as (rest1 & -> & Hex).
    rewrite exec_seq in Hex. cbn [Re.exec] in Hex.
    unfold Re.plus in Hex. rewrite exec_seq in Hex. cbn [Re.exec] in Hex.
    destruct rest1 as [|c rest1]; [discriminate|].
    destruct (Re.digit_or_dot c) eqn:Hc; [|discriminate].
    apply rep_greedy_inv in Hex as (run & rest2 & -> & Hrun & Hex).
    rewrite group_capture in Hex.
    apply rep_greedy_inv in Hex as (ws & rest3 & -> & Hws & Hex).
    apply exec_word_inv in Hex as (post & -> & Hex).
    unfold K0 in Hex. injection Hex as <-.
    exists (c :: run). split; [reflexivity|].
    split; [assumption|]. split; [discriminate|]. split; [now constructor|].
    exists ws, post. split; [assumption|]. reflexivity.
  - intros (v & -> & Hstart & Hne & Hv & ws & post & Hws & ->).
    destruct v as [|c run]; [congruence|].
    apply Forall_cons in Hv as [Hc Hrun].
    rewrite exec_seq. cbn [Re.exec].
    assert (Hgo : Re.exec
                   (Re.Seq (Re.word (PyStr.chars "GAMS "))
                      (Re.Seq (Re.Group (Re.plus true Re.digit_or_dot))
                         (Re.Seq (Re.Rep true Re.space)
                            (Re.word (PyStr.chars "Copyright")))))
                   seen
                   (PyStr.chars "GAMS " ++ (c :: run) ++ ws
                    ++ PyStr.chars "Copyright" ++ post) None K0
                 = Some (Some (c :: run))).
    { rewrite exec_seq, exec_word_app.
      rewrite exec_seq. cbn [Re.exec]. unfold Re.plus. rewrite exec_seq.
      cbn [Re.exec app]. rewrite Hc.
      apply rep_greedy_max; [assumption| |].
      - destruct ws as [|w ws]; [reflexivity|].
        apply Forall_cons in Hws as [Hw _]. now apply space_not_digit_or_dot.
      - rewrite group_capture. cbn [Re.exec].
        apply rep_greedy_max; [assumption|reflexivity|].
        now rewrite exec_word_app. }
    destruct seen as [|x seen]; [exact Hgo|].
    simpl in Hstart. rewrite Hstart. exact Hgo.
Qed.

(** The release that [gams_release] extracts from the output of GAMS. *)
Lemma search_banner output a :
  Re.search_group1 GamsRelease.pattern output = Ok a
  <-> exists v, a = AStr v /\ first_at banner_at output v.
Proof. apply search_group1_first. apply exec_banner. Qed.

(** ** The version of MESSAGE *)

Lemma exec_version which seen rest g :
  Re.exec (GAMSModel.version_pattern which) seen rest None K0 = Some g
  <-> exists v, g = Some v /\ version_at which seen rest v.
Proof.
  unfold GAMSModel.version_pattern, version_at. split.
  - rewrite exec_seq. intros Hex.
    apply exec_word_inv in Hex as (rest1 & -> & Hex).
    rewrite exec_seq in Hex. cbn [Re.exec] in Hex.
    unfold Re.plus in Hex. rewrite exec_seq in Hex. cbn [Re.exec] in Hex.
    destruct rest1 as [|c rest1]; [discriminate|].
    destruct (Re.dot c) eqn:Hc; [|discriminate].
    apply rep_lazy_inv in Hex as (run & rest2 & -> & Hrun & Hex & Hmin).
    rewrite group_capture in Hex.
    destruct rest2 as [|q post]; [discriminate|].
    destruct (Ascii.eqb_spec q (ascii_of_nat 34)) as [->|]; [|discriminate].
    unfold K0 in Hex. injection Hex as <-.
    exists (c :: run). split; [reflexivity|].
    exists c, run, post. repeat split; try assumption.
    (* no double quote inside the run: the lazy repetition would have
       stopped there *)
    apply Forall_forall. intros x Hin. split.
    + rewrite Forall_forall in Hrun. now apply Hrun.
    + intros ->. apply list_elem_of_split in Hin as (run1 & run2 & Heq).
      specialize (Hmin run1 (ascii_of_nat 34 :: run2) Heq ltac:(discriminate)).
      cbn [app] in Hmin. rewrite Ascii.eqb_refl in Hmin. discriminate.
  - intros (v & -> & c & run & post & -> & Hc & Hrun & ->).
    rewrite exec_seq, exec_word_app.
    rewrite exec_seq. cbn [Re.exec]. unfold Re.plus. rewrite exec_seq.
    cbn [Re.exec]. rewrite Hc.
    apply rep_lazy_first.
    + eapply Forall_impl; [exact Hrun|]. now intros x [Hx _].
    + rewrite group_capture. cbn [Re.exec]. now rewrite Ascii.eqb_refl.
    + intros run1 run2 Heq Hne. rewrite group_capture. cbn [Re.exec].
      destruct run2 as [|x run2]; [congruence|]. simpl.
      destruct (Ascii.eqb_spec x (ascii_of_nat 34)) as [->|]; [|reflexivity].
      exfalso. rewrite Heq in Hrun. apply Forall_app in Hrun as [_ Hrun].
      apply Forall_cons in Hrun as [[_ Hx] _]. congruence.
Qed.

Lemma search_version which s a :
  Re.search_group1 (GAMSModel.version_pattern which) s = Ok a
  <-> exists v, a = AStr v /\ first_at (version_at which) s v.
Proof. apply search_group1_first. apply exec_version. Qed.

(** C10. [read_version] reads version.gms from the configured model
    directory if the file is there and otherwise from the directory of the
    module, and returns 'MAJOR.MINOR.PATCH', each part being what stands
    between the double quotes at the first [VERSION_MAJOR "..."],
    [VERSION_MINOR "..."] and [VERSION_PATCH "..."] of the text. *)
Theorem read_version_spec `{Platform} w s major minor patch :
  let configured := Pathlib.div config_model_dir "version.gms" in
  let packaged := Pathlib.div (Pathlib.div module_dir "model") "version.gms" in
  w_fs w !! configured = Some (File s)
  \/ (w_fs w !! configured = None /\ w_fs w !! packaged = Some (File s)) ->
  first_at (version_at "MAJOR") s major ->
  first_at (version_at "MINOR") s minor ->
  first_at (version_at "PATCH") s patch ->
  GAMSModel.read_version w
  = (Ok (major +++ "." +++ minor +++ "." +++ patch), w).
Proof.
  intros configured packaged Hfile Hmajor Hminor Hpatch.
  assert (Hs : forall which v, first_at (version_at which) s v ->
            Re.search_group1 (GAMSModel.version_pattern which) s = Ok (AStr v)).
  { intros which v Hv. apply search_version. now exists v. }
  unfold GAMSModel.read_version. fold configured. fold packaged.
  assert (Hread :
    Pathlib.read_text
      (if negb (Pathlib.exists_ configured (w_fs w)) then packaged else configured)
      (w_fs w) = Ok s).
  { unfold Pathlib.exists_, Pathlib.read_text.
    destruct Hfile as [Hc|[Hc Hp]]; rewrite Hc.
    - rewrite bool_decide_eq_true_2 by eauto. simpl. now rewrite Hc.
    - rewrite bool_decide_eq_false_2 by (intros [x Hx]; discriminate).
      simpl. now rewrite Hp. }
  unfold bind, lift_result, ret. rewrite Hread.
  rewrite (Hs _ _ Hmajor), (Hs _ _ Hminor), (Hs _ _ Hpatch). reflexivity.
Qed.

Lemma read_version_spec_witness :
  @GAMSModel.read_version Sample.posix Sample.installed
  = (Ok "1.2.0"%string, Sample.installed).
Proof.
  assert (Hfirst : forall which v,
            Re.search_group1 (GAMSModel.version_pattern which) Sample.version_gms
              = Ok (AStr v) ->
            first_at (version_at which) Sample.version_gms v).
  { intros which v Hv. apply search_version in Hv as (v' & [= <-] & Hv'). exact Hv'. }
  apply (@read_version_spec Sample.posix Sample.installed Sample.version_gms
           "1" "2" "0").
  - right. split; reflexivity.
  - apply Hfirst. vm_compute. reflexivity.
  - apply Hfirst. vm_compute. reflexivity.
  - apply Hfirst. vm_compute. reflexivity.
Defined.

(** ** The release of GAMS *)

Lemma with_suffix_div p name suffix :
  Pathlib.with_suffix (Pathlib.div p name) suffix
  = Pathlib.div p (Pathlib.stem name +++ suffix).
Proof.
  destruct p as [a parts]. unfold Pathlib.with_suffix, Pathlib.div. cbn [fst snd].
  now rewrite last_snoc, removelast_last.
Qed.

(** C4. [gams_release] writes the program '$exit;' into a new directory,
    runs GAMS there and keeps its output, removes the program, its listing
    file and the directory, and returns the release that stands in the
    output at the first line start where "GAMS ", digits and dots, white
    space and "Copyright" follow; the string returned has digits and dots
    only. *)
Theorem gams_release_spec `{Platform} w output fs2 :
  let tmp_dir := mkdtemp_name (w_fs w) in
  let gms := Pathlib.div tmp_dir "null.gms" in
  let lst := Pathlib.div tmp_dir "null.lst" in
  let fs1 := <[gms := File "$exit;"]> (<[tmp_dir := Dir]> (w_fs w)) in
  let fs3 := delete tmp_dir (delete lst (delete gms fs2)) in
  w_fs w !! tmp_dir = None ->
  map_Forall (fun q (_ : node) => Pathlib.parent q <> tmp_dir) (w_fs w) ->
  check_output_gams (String.eqb os_name "nt") tmp_dir fs1 = (Ok output, fs2) ->
  (exists c, fs2 !! gms = Some (File c)) ->
  (exists c, fs2 !! lst = Some (File c)) ->
  fs2 !! tmp_dir = Some Dir ->
  map_Forall (fun q (_ : node) =>
                Pathlib.parent q <> tmp_dir \/ q = gms \/ q = lst \/ q = tmp_dir) fs2 ->
  GamsRelease.gams_release w
    = (Re.search_group1 GamsRelease.pattern output, World (w_heap w) fs3)
  /\ fs1 !! gms = Some (File "$exit;")
  /\ (fs3 !! gms = None /\ fs3 !! lst = None /\ fs3 !! tmp_dir = None)
  /\ (forall a, Re.search_group1 GamsRelease.pattern output = Ok a <->
                exists v, a = AStr v /\ first_at banner_at output v)
  /\ (forall v, first_at banner_at output v ->
        v <> EmptyString
        /\ Forall (fun c => Re.digit_or_dot c = true) (PyStr.chars v)).
Proof.
  intros tmp_dir gms lst fs1 fs3 Hfresh Hnone Hgams [cg Hgms] [cl Hlst] Htmp Hrest.
  assert (Hgms_tmp : gms <> tmp_dir) by apply div_ne.
  assert (Hlst_tmp : lst <> tmp_dir) by apply div_ne.
  assert (Hlst_gms : lst <> gms).
  { unfold lst, gms, Pathlib.div. intros [= Heq]. apply app_inj_tail in Heq as [_ [=]]. }
  split; [|split; [apply lookup_insert_eq|split; [|split]]].
  - unfold GamsRelease.gams_release, bind.
    (* mkdtemp *)
    unfold on_fs at 1. unfold GamsRelease.mkdtemp. fold tmp_dir. rewrite Hfresh.
    cbn [w_heap w_fs]. fold gms.
    (* the program is written *)
    unfold on_fs at 1. unfold Pathlib.write_text. cbn [w_heap w_fs].
    assert (Hg0 : (<[tmp_dir := Dir]> (w_fs w)) !! gms = None).
    { rewrite lookup_insert_ne by congruence.
      destruct (w_fs w !! gms) as [n|] eqn:Hg; [|reflexivity].
      exfalso. apply (Hnone gms n Hg). apply parent_div. }
    rewrite Hg0. unfold gms at 1. rewrite parent_div, lookup_insert_eq.
    fold gms. fold fs1. cbn [w_heap w_fs].
    (* GAMS runs *)
    unfold on_fs at 1. cbn [w_heap w_fs]. rewrite Hgams. cbn [w_heap w_fs].
    (* cleaning up *)
    unfold on_fs at 1. unfold Pathlib.unlink at 1. cbn [w_heap w_fs]. rewrite Hgms.
    cbn [w_heap w_fs].
    unfold gms at 1. rewrite with_suffix_div.
    change (Pathlib.stem "null.gms" +++ ".lst") with "null.lst"%string. fold lst.
    unfold on_fs at 1. unfold Pathlib.unlink at 1. cbn [w_heap w_fs].
    rewrite lookup_delete_ne by congruence. rewrite Hlst. cbn [w_heap w_fs].
    unfold on_fs at 1. unfold Pathlib.rmdir. cbn [w_heap w_fs].
    rewrite !lookup_delete_ne by congruence. rewrite Htmp.
    assert (Hempty : Pathlib.is_empty_dir tmp_dir (delete lst (delete gms fs2)) = true).
    { unfold Pathlib.is_empty_dir. apply bool_decide_eq_true_2.
      intros q n Hq.
      apply lookup_delete_Some in Hq as [Hq1 Hq].
      apply lookup_delete_Some in Hq as [Hq2 Hq].
      destruct (Hrest q n Hq) as [Hp|[Hp|[Hp|Hp]]]; subst; try congruence; tauto. }
    rewrite Hempty. cbn [w_heap w_fs]. unfold lift_result. reflexivity.
  - unfold fs3. repeat split.
    + rewrite lookup_delete_ne by congruence.
      rewrite lookup_delete_ne by congruence. apply lookup_delete_eq.
    + rewrite lookup_delete_ne by congruence. apply lookup_delete_eq.
    + apply lookup_delete_eq.
  - intros a. apply search_banner.
  - intros v (pre & rest & _ & (_ & Hne & Hv & _) & _). split; [|assumption].
    intros ->. now apply Hne.
Qed.

Lemma gams_release_spec_witness :
  @GamsRelease.gams_release Sample.posix (Sample.start Sample.posix).2
  = (Ok (AStr "25.1.3"), (Sample.start Sample.posix).2).
Proof.
  destruct (@gams_release_spec Sample.posix (Sample.start Sample.posix).2
              ("--- Job null Start" +++ PyStr.nl +++ Sample.banner_25_1 +++ PyStr.nl
               +++ "*** Status: Normal completion")
              (<[Pathlib.div (Pathlib.div Sample.tmp "tmpq1w2e3") "null.lst" :=
                   File "GAMS listing"]>
                 (<[Pathlib.div (Pathlib.div Sample.tmp "tmpq1w2e3") "null.gms" :=
                      File "$exit;"]>
                    (<[Pathlib.div Sample.tmp "tmpq1w2e3" := Dir]> Sample.disk))))
    as (Hrun & _).
  - reflexivity.
  - compute_done.
  - reflexivity.
  - eexists. vm_compute. reflexivity.
  - eexists. vm_compute. reflexivity.
  - vm_compute. reflexivity.
  - compute_done.
  - rewrite Hrun. vm_compute. reflexivity.
Defined.

(** White space may be a line feed: the banner may break before
    "Copyright". *)
Example banner_on_two_lines :
  Re.search_group1 GamsRelease.pattern
    ("GAMS 24.7.4" +++ PyStr.nl +++ "Copyright (C) 1987-2016") = Ok (AStr "24.7.4").
Proof. reflexivity. Qed.

Example banner_missing :
  Re.search_group1 GamsRelease.pattern "gams: command not found" = Raise AttributeError.
Proof. reflexivity. Qed.

(** ** Displays and the store *)

Lemma lit_depth_dict items : lit_depth (LDict items) = S (items_depth items).
Proof. reflexivity. Qed.

Lemma lit_wf_dict items :
  lit_wf (LDict items) = bool_decide (NoDup (dict_keys items)) && items_wf items.
Proof. reflexivity. Qed.

Lemma alloc_dict items h :
  alloc (LDict items) h =
    let '(kvs, h') := alloc_items items h in
    (VRef (length h'), h' ++ [dict_of_items kvs]).
Proof. reflexivity. Qed.

#[global] Arguments lit_depth : simpl never.
#[global] Arguments lit_wf : simpl never.

(** Induction on a display, through the items of its dictionaries. *)
Lemma lit_rect' (P : lit -> Prop) :
  (forall a, P (LAtom a)) ->
  (forall l, P (LList l)) ->
  (forall items, Forall (fun kt => P kt.2) items -> P (LDict items)) ->
  forall t, P t.
Proof.
  intros Ha Hl Hd.
  fix IH 1. intros [a|l|items]; [apply Ha|apply Hl|].
  apply Hd. induction items as [|[k t] items IHitems]; constructor.
  - apply IH.
  - apply IHitems.
Qed.

Lemma dict_set_fresh {V} k (v : V) d :
  ~ In k (dict_keys d) -> dict_set k v d = d ++ [(k, v)].
Proof.
  induction d as [|[k' v'] d IH]; simpl; [reflexivity|].
  intros Hn. destruct (String.eqb_spec k k') as [->|Hne]; [tauto|].
  rewrite IH; [reflexivity|tauto].
Qed.

Lemma dict_update_fresh {V} (u : list (string * V)) : forall d,
  NoDup (dict_keys d ++ dict_keys u) -> dict_update d u = d ++ u.
Proof.
  unfold dict_update.
  induction u as [|[k v] u IH]; intros d Hnd; simpl.
  - now rewrite app_nil_r.
  - rewrite dict_set_fresh.
    + rewrite IH.
      * now rewrite <- app_assoc.
      * unfold dict_keys in *. rewrite map_app. simpl. rewrite <- app_assoc. exact Hnd.
    + simpl in Hnd. apply NoDup_app in Hnd as (_ & Hdisj & _).
      intros Hin. apply (Hdisj k); [now apply list_elem_of_In|]. left.
Qed.

Lemma dict_of_items_nodup {V} (kvs : list (string * V)) :
  NoDup (dict_keys kvs) -> dict_of_items kvs = kvs.
Proof. intros Hnd. unfold dict_of_items. now rewrite dict_update_fresh. Qed.

(** ** Trees of objects *)

Lemma repr_bounds h :
  (forall v t lo hi, repr h v t lo hi -> lo <= hi)
  /\ (forall l kvs items lo hi, repr_items h l kvs items lo hi -> lo <= hi).
Proof. apply repr_mutind; intros; lia. Qed.

Lemma repr_widen h v t lo hi lo' hi' :
  repr h v t lo hi -> lo' <= lo -> hi <= hi' -> repr h v t lo' hi'.
Proof.
  intros Hr Hlo Hhi.
  destruct Hr as [a lo hi Hb|lst lo hi Hb|l kvs items lo ilo ihi hi Hl Hb Hilo Hihi Hrs].
  - constructor. lia.
  - constructor. lia.
  - apply (repr_dict h l kvs items lo' ilo ihi hi'); [assumption|lia|lia|lia|assumption].
Qed.

(** A change of the store outside a tree leaves the tree as it is. *)
Lemma repr_frame h h' :
  (forall v t lo hi, repr h v t lo hi ->
     (forall i, lo <= i < hi -> h' !! i = h !! i) -> repr h' v t lo hi)
  /\ (forall l kvs items lo hi, repr_items h l kvs items lo hi ->
     (forall i, lo <= i < hi -> h' !! i = h !! i) -> repr_items h' l kvs items lo hi).
Proof.
  apply repr_mutind.
  - intros. now constructor.
  - intros. now constructor.
  - intros l kvs items lo ilo ihi hi Hl Hb Hlo Hhi _ IH Hsame.
    apply (repr_dict h' l kvs items lo ilo ihi hi); try assumption.
    + rewrite Hsame by lia. exact Hl.
    + apply IH. intros i Hi. apply Hsame. lia.
  - intros. now constructor.
  - intros l k v t kvs items lo mid hi Hr IHr Hout Hrs IHrs Hsame.
    pose proof (proj1 (repr_bounds h) _ _ _ _ Hr).
    pose proof (proj2 (repr_bounds h) _ _ _ _ _ Hrs).
    apply (repr_cons h' l k v t kvs items lo mid hi); try assumption.
    + apply IHr. intros i Hi. apply Hsame. lia.
    + apply IHrs. intros i Hi. apply Hsame. lia.
Qed.

(** The dictionary itself is not among the objects of its items. *)
Lemma repr_items_apart h l kvs items lo hi :
  repr_items h l kvs items lo hi -> l < lo \/ hi <= l.
Proof.
  induction 1 as [|l k v t kvs items lo mid hi Hr Hout Hrs IH]; [assumption|].
  pose proof (proj1 (repr_bounds h) _ _ _ _ Hr).
  pose proof (proj2 (repr_bounds h) _ _ _ _ _ Hrs). lia.
Qed.

Lemma repr_items_widen_lo h l kvs items lo lo' hi :
  repr_items h l kvs items lo hi -> lo' <= lo -> (l < lo' \/ lo <= l) ->
  repr_items h l kvs items lo' hi.
Proof.
  intros Hr Hle Hout. destruct Hr as [l lo hi Hb Ho|l k v t kvs items lo mid hi Hr Ho Hrs].
  - constructor; lia.
  - pose proof (proj1 (repr_bounds h) _ _ _ _ Hr).
    apply (repr_cons h l k v t kvs items lo' mid hi); [|lia|exact Hrs].
    apply (repr_widen h v t lo mid); [assumption|lia|lia].
Qed.

Lemma repr_items_keys h l kvs items lo hi :
  repr_items h l kvs items lo hi -> dict_keys kvs = dict_keys items.
Proof. induction 1; simpl; [reflexivity|]. now f_equal. Qed.


Lemma extends_refl h : extends h h.
Proof. split; [lia|reflexivity]. Qed.

Lemma extends_app h ext : extends h (h ++ ext).
Proof.
  split; [rewrite length_app; lia|]. intros i Hi. now apply lookup_app_l.
Qed.

Lemma extends_trans h1 h2 h3 : extends h1 h2 -> extends h2 h3 -> extends h1 h3.
Proof.
  intros [Hl1 H1] [Hl2 H2]. split; [lia|].
  intros i Hi. rewrite H2 by lia. now apply H1.
Qed.

Lemma repr_extends h h' v t lo hi :
  repr h v t lo hi -> hi <= length h -> extends h h' -> repr h' v t lo hi.
Proof.
  intros Hr Hhi [_ Hsame]. apply (proj1 (repr_frame h h') _ _ _ _ Hr).
  intros i Hi. apply Hsame. lia.
Qed.

Lemma repr_items_extends h h' l kvs items lo hi :
  repr_items h l kvs items lo hi -> hi <= length h -> extends h h' ->
  repr_items h' l kvs items lo hi.
Proof.
  intros Hr Hhi [_ Hsame]. apply (proj2 (repr_frame h h') _ _ _ _ _ Hr).
  intros i Hi. apply Hsame. lia.
Qed.

(** Evaluating a display builds its tree behind the store. *)
Lemma alloc_repr t : forall h,
  lit_wf t = true ->
  extends h (alloc t h).2
  /\ repr (alloc t h).2 (alloc t h).1 t (length h) (length (alloc t h).2).
Proof.
  induction t as [a|l|items IH] using lit_rect'; intros h Hwf.
  - split; [apply extends_refl|now constructor].
  - split; [apply extends_refl|now constructor].
  - rewrite lit_wf_dict in Hwf. apply andb_prop in Hwf as [Hnd Hwf].
    apply bool_decide_eq_true_1 in Hnd.
    assert (Hitems : forall h0,
      extends h0 (alloc_items items h0).2
      /\ forall l, length (alloc_items items h0).2 <= l ->
           repr_items (alloc_items items h0).2 l (alloc_items items h0).1 items
             (length h0) (length (alloc_items items h0).2)).
    { clear Hnd. induction IH as [|[k t] items IHt _ IHitems]; intros h0.
      - simpl. split; [apply extends_refl|]. intros l Hl. constructor; lia.
      - simpl in Hwf. apply andb_prop in Hwf as [Hwt Hwf]. simpl.
        destruct (IHt h0 Hwt) as [Hext1 Hr1]. cbn [snd] in *.
        destruct (alloc t h0) as [v h1]. cbn [fst snd] in *.
        destruct (IHitems Hwf h1) as [Hext2 Hr2].
        destruct (alloc_items items h1) as [kvs h2]. cbn [fst snd] in *.
        split; [eapply extends_trans; eassumption|].
        intros l Hl. apply (repr_cons h2 l k v t kvs items (length h0) (length h1)).
        + apply (repr_extends h1); [assumption|lia|assumption].
        + destruct Hext2. lia.
        + now apply Hr2. }
    rewrite alloc_dict. destruct (Hitems h) as [Hext Hr].
    destruct (alloc_items items h) as [kvs h']. cbn [fst snd] in *.
    specialize (Hr (length h') ltac:(lia)).
    assert (Hkeys : dict_of_items kvs = kvs).
    { apply dict_of_items_nodup. now rewrite (repr_items_keys _ _ _ _ _ _ Hr). }
    rewrite Hkeys. split.
    + eapply extends_trans; [exact Hext|apply extends_app].
    + rewrite length_app. simpl.
      apply (repr_dict _ (length h') kvs items (length h) (length h) (length h')).
      * now apply list_lookup_middle.
      * destruct Hext. lia.
      * lia.
      * lia.
      * apply (repr_items_extends h'); [assumption|lia|apply extends_app].
Qed.

(** Copying the items of a dictionary into the new dictionary at [y]. *)
Lemma copy_items_spec n rec :
  copies n rec ->
  forall items kvs l lo hi hc mc y acc,
    repr_items hc l kvs items lo hi -> hi <= y -> y < length hc ->
    hc !! y = Some acc ->
    NoDup (dict_keys acc ++ dict_keys items) ->
    (forall i, lo <= i < hi -> mc !! i = None) ->
    items_depth items <= n -> items_wf items = true ->
    exists h' m' kvs',
      copy_items rec y kvs (hc, mc) = Ok (h', m')
      /\ h' !! y = Some (acc ++ kvs')
      /\ length hc <= length h'
      /\ (forall i, i < length hc -> i <> y -> h' !! i = hc !! i)
      /\ repr_items h' y kvs' items (length hc) (length h')
      /\ forall i, ~ (lo <= i < hi) -> m' !! i = mc !! i.
Proof.
  intros Hrec.
  induction items as [|[k t] items IH];
    intros kvs l lo hi hc mc y acc Hr Hhi Hy Hacc Hnd Hmemo Hdepth Hwf;
    inversion Hr as [? ? ? Hb Ho|? ? v ? kvs0 ? ? mid ? Hv Hout Hrest]; subst.
  - exists hc, mc, []. rewrite app_nil_r.
    repeat split; try assumption; try reflexivity; try lia.
    constructor; lia.
  - simpl in Hdepth, Hwf. apply andb_prop in Hwf as [Hwt Hwf].
    pose proof (proj1 (repr_bounds hc) _ _ _ _ Hv) as Hb1.
    pose proof (proj2 (repr_bounds hc) _ _ _ _ _ Hrest) as Hb2.
    destruct (Hrec v t lo mid hc mc Hv ltac:(lia)) as (v' & h1 & m1 & Hrun & [Hlen1 Hsame1] & Hv' & Hm1).
    { intros i Hi. apply Hmemo. lia. }
    { lia. }
    { assumption. }
    set (h2 := <[y := dict_set k v' acc]> h1).
    assert (Hy1 : h1 !! y = Some acc) by (rewrite Hsame1 by lia; assumption).
    assert (Hfresh : dict_set k v' acc = acc ++ [(k, v')]).
    { apply dict_set_fresh. simpl in Hnd. apply NoDup_app in Hnd as (_ & Hdisj & _).
      intros Hin. apply (Hdisj k); [now apply list_elem_of_In|left]. }
    destruct (IH kvs0 l mid hi h2 m1 y (acc ++ [(k, v')]))
      as (h' & m' & kvs' & Hrun' & Hy' & Hlen' & Hsame' & Hr' & Hm').
    { apply (proj2 (repr_frame hc h2) _ _ _ _ _ Hrest).
      intros i Hi. unfold h2. rewrite list_lookup_insert_ne by lia.
      apply Hsame1. lia. }
    { assumption. }
    { unfold h2. rewrite length_insert. lia. }
    { unfold h2. rewrite <- Hfresh. apply list_lookup_insert_eq. lia. }
    { unfold dict_keys in *. rewrite map_app. simpl in *.
      rewrite <- app_assoc. exact Hnd. }
    { intros i Hi. rewrite Hm1 by lia. apply Hmemo. lia. }
    { lia. }
    { assumption. }
    assert (Hlen2 : length h2 = length h1) by (unfold h2; apply length_insert).
    exists h', m', ((k, v') :: kvs').
    split.
    { cbn [copy_items]. rewrite Hrun. rewrite Hy1. cbn [default]. exact Hrun'. }
    split; [now rewrite Hy', <- app_assoc|].
    split; [lia|]. split.
    { intros i Hi Hne. rewrite Hsame' by lia. unfold h2.
      rewrite list_lookup_insert_ne by lia. apply Hsame1. lia. }
    split.
    { apply (repr_cons h' y k v' t kvs' items (length hc) (length h1)).
      - apply (proj1 (repr_frame h1 h') _ _ _ _ Hv').
        intros i Hi. rewrite Hsame' by lia. unfold h2.
        apply list_lookup_insert_ne. lia.
      - lia.
      - now rewrite <- Hlen2. }
    intros i Hi. rewrite Hm' by lia. apply Hm1. lia.
Qed.

Lemma deepcopy_memo_atom n a st : deepcopy_memo n (VAtom a) st = Ok (VAtom a, st).
Proof. now destruct n. Qed.

Lemma deepcopy_memo_list n l st : deepcopy_memo n (VList l) st = Ok (VList l, st).
Proof. now destruct n. Qed.

Lemma deepcopy_memo_ref n l h (m : memo) kvs :
  m !! l = None -> h !! l = Some kvs ->
  deepcopy_memo (S n) (VRef l) (h, m) =
    match copy_items (deepcopy_memo n) (length h) kvs (h ++ [[]], <[l := length h]> m) with
    | Ok st' => Ok (VRef (length h), st')
    | Raise e => Raise e
    end.
Proof. intros Hm Hl. cbn [deepcopy_memo fst snd]. now rewrite Hm, Hl. Qed.

(** [deepcopy] copies a tree when the recursion limit admits its depth. *)
Lemma deepcopy_memo_copies n : copies n (deepcopy_memo n).
Proof.
  induction n as [|n IHn]; intros v t lo hi h m Hr Hhi Hmemo Hdepth Hwf;
    destruct Hr as [a lo hi Hb|lst lo hi Hb|l kvs items lo ilo ihi hi Hl Hb Hilo Hihi Hrs].
  - exists (VAtom a), h, m. rewrite deepcopy_memo_atom.
    repeat split; try apply extends_refl; try reflexivity. now constructor.
  - exists (VList lst), h, m. rewrite deepcopy_memo_list.
    repeat split; try apply extends_refl; try reflexivity. now constructor.
  - rewrite lit_depth_dict in Hdepth. lia.
  - exists (VAtom a), h, m. rewrite deepcopy_memo_atom.
    repeat split; try apply extends_refl; try reflexivity. now constructor.
  - exists (VList lst), h, m. rewrite deepcopy_memo_list.
    repeat split; try apply extends_refl; try reflexivity. now constructor.
  - rewrite lit_depth_dict in Hdepth.
    rewrite lit_wf_dict in Hwf. apply andb_prop in Hwf as [Hnd Hwf].
    apply bool_decide_eq_true_1 in Hnd.
    pose proof (repr_items_apart _ _ _ _ _ _ Hrs) as Hapart.
    pose proof (proj2 (repr_bounds h) _ _ _ _ _ Hrs) as Hbi.
    rewrite (deepcopy_memo_ref n l h m kvs) by (try apply Hmemo; assumption || lia).
    destruct (copy_items_spec n (deepcopy_memo n) IHn items kvs l ilo ihi
                (h ++ [[]]) (<[l := length h]> m) (length h) [])
      as (h' & m' & kvs' & Hrun & Hy & Hlen & Hsame & Hr' & Hm').
    { apply (repr_items_extends h); [assumption|lia|apply extends_app]. }
    { lia. }
    { rewrite length_app. simpl. lia. }
    { now apply list_lookup_middle. }
    { exact Hnd. }
    { intros i Hi. rewrite lookup_insert_ne by lia. apply Hmemo. lia. }
    { lia. }
    { assumption. }
    rewrite length_app in Hlen, Hsame, Hr'. simpl in Hlen, Hsame, Hr'.
    exists (VRef (length h)), h', m'. rewrite Hrun.
    split; [reflexivity|]. split; [|split].
    + split; [lia|]. intros i Hi. rewrite Hsame by lia. now apply lookup_app_l.
    + apply (repr_dict h' (length h) kvs' items (length h) (length h + 1) (length h'));
        try assumption; lia.
    + intros i Hi. rewrite Hm' by lia. apply lookup_insert_ne. lia.
Qed.

Lemma deepcopy_run n h v t lo hi :
  repr h v t lo hi -> hi <= length h -> lit_depth t <= n -> lit_wf t = true ->
  exists v' h',
    deepcopy n v h = Ok (v', h')
    /\ extends h h'
    /\ repr h' v' t (length h) (length h').
Proof.
  intros Hr Hhi Hdepth Hwf.
  destruct (deepcopy_memo_copies n v t lo hi h ∅ Hr Hhi) as (v' & h' & m' & Hrun & Hext & Hr' & _);
    try assumption.
  { intros i _. apply lookup_empty. }
  exists v', h'. unfold deepcopy. now rewrite Hrun.
Qed.

(** ** Popping 'idx_sets' *)

Lemma dict_get_Some_keys {V} k (d : list (string * V)) :
  is_Some (dict_get k d) <-> In k (dict_keys d).
Proof.
  destruct (dict_get k d) as [v|] eqn:Hg.
  - split; [intros _|eauto].
    apply dict_get_In in Hg. apply (in_map fst) in Hg. exact Hg.
  - split; [intros [x Hx]; discriminate|].
    intros Hin. now apply dict_get_None_keys in Hg.
Qed.

Lemma repr_items_del h k l kvs items lo hi :
  repr_items h l kvs items lo hi ->
  repr_items h l (dict_del k kvs) (dict_del k items) lo hi.
Proof.
  induction 1 as [l lo hi Hb Ho|l k0 v t kvs items lo mid hi Hv Hout Hrest IH].
  - now constructor.
  - pose proof (proj1 (repr_bounds h) _ _ _ _ Hv) as Hb.
    simpl. destruct (String.eqb k k0).
    + apply (repr_items_widen_lo h l _ _ mid lo hi); [assumption|lia|lia].
    + now apply (repr_cons h l k0 v t _ _ lo mid hi).
Qed.

(** Taking a key out of the dictionary of one item of a table. *)
Lemma repr_items_pop h name fields l kvs table lo hi :
  repr_items h l kvs table lo hi -> hi <= length h ->
  dict_get name table = Some (LDict fields) ->
  exists li fkvs,
    dict_get name kvs = Some (VRef li)
    /\ h !! li = Some fkvs
    /\ lo <= li < hi
    /\ dict_keys fkvs = dict_keys fields
    /\ forall k,
         repr_items (<[li := dict_del k fkvs]> h) l kvs
           (dict_set name (LDict (dict_del k fields)) table) lo hi.
Proof.
  induction 1 as [l lo hi Hb Ho|l k0 v t kvs items lo mid hi Hv Hout Hrest IH];
    intros Hhi Hget; [discriminate|].
  pose proof (proj1 (repr_bounds h) _ _ _ _ Hv) as Hb1.
  pose proof (proj2 (repr_bounds h) _ _ _ _ _ Hrest) as Hb2.
  simpl in Hget. simpl dict_get. simpl dict_set.
  destruct (String.eqb_spec name k0) as [->|Hne].
  - injection Hget as ->.
    inversion Hv as [| |li fkvs ? ? ilo ihi ? Hli Hbl Hilo Hihi Hfs]; subst.
    pose proof (repr_items_apart _ _ _ _ _ _ Hfs) as Hapart.
    exists li, fkvs. split; [reflexivity|]. split; [assumption|].
    split; [lia|]. split; [now apply (repr_items_keys h li _ _ ilo ihi)|].
    intros k.
    apply (repr_cons _ l k0 (VRef li) (LDict (dict_del k fields)) kvs items lo mid hi).
    + apply (repr_dict _ li (dict_del k fkvs) (dict_del k fields) lo ilo ihi mid);
        try assumption.
      * apply list_lookup_insert_eq. lia.
      * apply (proj2 (repr_frame h _) _ _ _ _ _ (repr_items_del h k _ _ _ _ _ Hfs)).
        intros i Hi. apply list_lookup_insert_ne. lia.
    + assumption.
    + apply (proj2 (repr_frame h _) _ _ _ _ _ Hrest).
      intros i Hi. apply list_lookup_insert_ne. lia.
  - destruct (IH Hhi Hget) as (li & fkvs & Hk & Hli & Hbl & Hkeys & Hnew).
    exists li, fkvs. repeat split; try assumption; try lia.
    intros k.
    apply (repr_cons _ l k0 v t kvs _ lo mid hi); [|assumption|apply Hnew].
    apply (proj1 (repr_frame h _) _ _ _ _ Hv).
    intros i Hi. apply list_lookup_insert_ne. lia.
Qed.

Lemma strip_items_nil table : strip_items [] table = table.
Proof.
  unfold strip_items. induction table as [|[k t] table IH]; [reflexivity|].
  cbn [map fst]. rewrite bool_decide_eq_false_2 by apply not_elem_of_nil.
  now f_equal.
Qed.

Lemma strip_items_keys names table :
  dict_keys (strip_items names table) = dict_keys table.
Proof.
  unfold strip_items, dict_keys. rewrite map_map. apply map_ext.
  intros [k t]. simpl. now destruct (bool_decide _).
Qed.

Lemma dict_get_strip_other names table name :
  name ∉ names -> dict_get name (strip_items names table) = dict_get name table.
Proof.
  intros Hnot. unfold strip_items.
  induction table as [|[k t] table IH]; [reflexivity|]. simpl.
  destruct (String.eqb_spec name k) as [->|Hne].
  - rewrite bool_decide_eq_false_2 by assumption. simpl. now rewrite String.eqb_refl.
  - destruct (bool_decide (k ∈ names)); simpl;
      (destruct (String.eqb_spec name k); [contradiction|]); exact IH.
Qed.

Lemma strip_items_absent names name table :
  ~ In name (dict_keys table) ->
  strip_items (names ++ [name]) table = strip_items names table.
Proof.
  unfold strip_items. induction table as [|[k t] table IH]; [reflexivity|].
  cbn [map fst snd dict_keys]. intros Hn.
  assert (Hk : k <> name) by (intros ->; apply Hn; now left).
  assert (Hsame : bool_decide (k ∈ names ++ [name]) = bool_decide (k ∈ names)).
  { apply bool_decide_ext. rewrite elem_of_app, list_elem_of_singleton. tauto. }
  rewrite Hsame. f_equal. apply IH. intros Hin. apply Hn. now right.
Qed.

(** One more item stripped is one [dict_set] on the table. *)
Lemma strip_items_step names name fields table :
  NoDup (dict_keys table) -> name ∉ names ->
  dict_get name table = Some (LDict fields) ->
  dict_set name (LDict (dict_del "idx_sets" fields)) (strip_items names table)
  = strip_items (names ++ [name]) table.
Proof.
  intros Hnd Hnot. induction table as [|[k t] table IH]; [discriminate|].
  simpl in Hnd. apply NoDup_cons in Hnd as [Hk Hnd].
  intros Hget. simpl in Hget.
  change (strip_items names ((k, t) :: table))
    with ((if bool_decide (k ∈ names) then (k, drop_idx_sets t) else (k, t))
            :: strip_items names table).
  change (strip_items (names ++ [name]) ((k, t) :: table))
    with ((if bool_decide (k ∈ names ++ [name]) then (k, drop_idx_sets t) else (k, t))
            :: strip_items (names ++ [name]) table).
  destruct (String.eqb_spec name k) as [->|Hne].
  - injection Hget as ->.
    rewrite (bool_decide_eq_false_2 (k ∈ names)) by assumption.
    rewrite (bool_decide_eq_true_2 (k ∈ names ++ [k]))
      by (rewrite elem_of_app, list_elem_of_singleton; tauto).
    simpl. rewrite String.eqb_refl. f_equal.
    symmetry. apply strip_items_absent. now rewrite <- list_elem_of_In.
  - assert (Hsame : bool_decide (k ∈ names ++ [name]) = bool_decide (k ∈ names)).
    { apply bool_decide_ext. rewrite elem_of_app, list_elem_of_singleton.
      split; [intros [?|?]; [assumption|congruence]|tauto]. }
    rewrite Hsame.
    destruct (bool_decide (k ∈ names)); simpl;
      (destruct (String.eqb_spec name k); [contradiction|]);
      f_equal; now apply IH.
Qed.

Lemma has_idx_sets_inv table name :
  has_idx_sets table name = true ->
  exists fields x,
    dict_get name table = Some (LDict fields)
    /\ dict_get "idx_sets" fields = Some x.
Proof.
  unfold has_idx_sets.
  destruct (dict_get name table) as [[a|l|fields]|] eqn:Hn; try discriminate.
  destruct (dict_get "idx_sets" fields) as [x|] eqn:Hx; [|discriminate].
  intros _. exists fields, x. split; [reflexivity|exact Hx].
Qed.

(** The loop of [MACRO.initialize] on a tree of the table: every item
    named loses its 'idx_sets', and nothing outside the tree changes. *)
Lemma pop_idx_sets_spec table fs y a b names : forall done h,
  NoDup (dict_keys table) ->
  NoDup (done ++ names) ->
  (forall name, name ∈ names -> has_idx_sets table name = true) ->
  repr h (VRef y) (LDict (strip_items done table)) a b ->
  b <= length h ->
  exists h',
    MACRO.pop_idx_sets (VRef y) names (World h fs) = (Ok tt, World h' fs)
    /\ repr h' (VRef y) (LDict (strip_items (done ++ names) table)) a b
    /\ length h' = length h
    /\ forall i, i < a -> h' !! i = h !! i.
Proof.
  induction names as [|name names IH]; intros done h Hkeys Hnd Hhas Hr Hb.
  - exists h. rewrite app_nil_r. now repeat split.
  - destruct (has_idx_sets_inv table name) as (fields & x & Hname & Hidx).
    { apply Hhas. left. }
    assert (Hnot : name ∉ done).
    { apply NoDup_app in Hnd as (_ & Hdisj & _). intros Hin.
      apply (Hdisj name Hin). left. }
    inversion Hr as [| |? kvs ? ? ilo ihi ? Hy Hby Hilo Hihi Hitems]; subst.
    pose proof (repr_items_apart _ _ _ _ _ _ Hitems) as Hapart.
    destruct (repr_items_pop h name fields y kvs _ ilo ihi Hitems ltac:(lia))
      as (li & fkvs & Hk & Hli & Hbl & Hfk & Hnew).
    { now rewrite dict_get_strip_other. }
    specialize (Hnew "idx_sets"%string).
    rewrite (strip_items_step done name fields table Hkeys Hnot Hname) in Hnew.
    assert (Hx : exists x', dict_get "idx_sets" fkvs = Some x').
    { apply dict_get_Some_keys. rewrite Hfk. apply dict_get_Some_keys. eauto. }
    destruct Hx as [x' Hx'].
    set (h1 := <[li := dict_del "idx_sets" fkvs]> h) in *.
    destruct (IH (done ++ [name]) h1) as (h' & Hrun & Hr' & Hlen & Hsame).
    { assumption. }
    { now rewrite <- app_assoc. }
    { intros n Hn. apply Hhas. now right. }
    { apply (repr_dict h1 y kvs _ a ilo ihi b); try assumption.
      unfold h1. rewrite list_lookup_insert_ne by lia. assumption. }
    { unfold h1. rewrite length_insert. assumption. }
    exists h'. split; [|split; [|split]].
    + cbn [MACRO.pop_idx_sets]. unfold bind, getitem, bind, get_dict.
      cbn [w_heap w_fs]. rewrite Hy, Hk. unfold ret.
      unfold pop, bind, get_dict. cbn [w_heap w_fs]. rewrite Hli, Hx'.
      unfold put_dict. cbn [w_heap w_fs]. fold h1. exact Hrun.
    + now rewrite <- app_assoc in Hr'.
    + rewrite Hlen. unfold h1. apply length_insert.
    + intros i Hi. rewrite Hsame by assumption. unfold h1.
      apply list_lookup_insert_ne. lia.
Qed.






Lemma import_module_macro_items `{Platform} h :
  lit_wf (LDict MACRO_ITEMS) = true ->
  macro_items_loaded (import_module h).1 (import_module h).2.
Proof.
  intros Hwf. unfold import_module.
  destruct (alloc_repr (LDict MACRO_ITEMS) h Hwf) as [Hext Hr].
  destruct (alloc (LDict MACRO_ITEMS) h) as [m h1]. cbn [fst snd] in *.
  change (alloc (LDict DEFAULT_CPLEX_OPTIONS) h1)
    with (VRef (length h1), h1 ++ [default_dict]).
  cbn [fst snd g_MACRO_ITEMS].
  exists (length h), (length h1). split.
  - apply (repr_extends h1); [assumption|lia|apply extends_app].
  - rewrite length_app. lia.
Qed.






(** With [copy.copy] in the place of [copy.deepcopy] the items would be
    shared, and the loop would take the 'idx_sets' out of [MACRO_ITEMS]. *)
Example shallow_copy_shares :
  match on_heap (shallow_copy (g_MACRO_ITEMS Sample.G)) (Sample.start Sample.posix).2 with
  | (Ok items, w1) =>
      reify 1000 (w_heap (MACRO.pop_idx_sets items MACRO.without_idx_sets w1).2)
        (g_MACRO_ITEMS Sample.G)
      = Some (LDict (declared_items Sample.macro_items))
  | _ => False
  end.
Proof. vm_compute. reflexivity. Qed.

(* ===================================================================== *)
(** * Further properties of the module *)
(* ===================================================================== *)

(** ** When a run goes wrong *)

(** X1. When the model directory does not exist, [run] raises
    FileNotFoundError for cplex.opt; the engine is not started and the
    world is as before. *)
Theorem run_without_model_dir `{Platform} self scenario w p l opts :
  ixmp_model_dir (m_base self) = VAtom (APath p) ->
  cplex_opts self = VRef l ->
  w_heap w !! l = Some (scalar_dict opts) ->
  w_fs w !! p = None ->
  w_fs w !! Pathlib.div p "cplex.opt" <> Some Dir ->
  GAMSModel.run self scenario w
  = (Raise (FileNotFoundError (Pathlib.div p "cplex.opt")), w).
Proof.
  intros Hdir Hopts Hl Hp Hfile. destruct w as [h fs]. cbn [w_heap w_fs] in *.
  unfold GAMSModel.run, GAMSModel.write_optfile, GAMSModel.optfile, bind,
    lift_result, get_dict.
  rewrite Hdir, Hopts. cbn [w_heap w_fs]. rewrite Hl, map_result_format.
  unfold on_fs, Pathlib.write_text. cbn [w_heap w_fs]. rewrite parent_div, Hp.
  destruct (fs !! Pathlib.div p "cplex.opt") as [[c|]|];
    [reflexivity|contradiction|reflexivity].
Qed.

Lemma run_without_model_dir_witness :
  @GAMSModel.run Sample.posix Edge.lost_instance [] Sample.user_world
  = (Raise (FileNotFoundError (Pathlib.div Edge.nowhere "cplex.opt")),
     Sample.user_world).
Proof.
  apply (@run_without_model_dir Sample.posix Edge.lost_instance []
           Sample.user_world Edge.nowhere 10 Sample.user_scalars);
    try reflexivity.
  vm_compute. discriminate.
Defined.

(** X2. When the engine leaves no cplex.opt behind, the cleanup of [run]
    fails: [run] raises FileNotFoundError for cplex.opt, whatever the
    engine returned or raised. *)
Theorem run_optfile_gone `{Platform} self scenario w p l opts r fs2 :
  let optfile := Pathlib.div p "cplex.opt" in
  ixmp_model_dir (m_base self) = VAtom (APath p) ->
  cplex_opts self = VRef l ->
  w_heap w !! l = Some (scalar_dict opts) ->
  w_fs w !! p = Some Dir ->
  w_fs w !! optfile <> Some Dir ->
  ixmp_run (m_base self) scenario
    (<[optfile := File (option_lines opts)]> (w_fs w)) = (r, fs2) ->
  fs2 !! optfile = None ->
  GAMSModel.run self scenario w
  = (Raise (FileNotFoundError optfile), World (w_heap w) fs2).
Proof.
  intros optfile Hdir Hopts Hl Hp Hfile Hrun Hgone.
  unfold GAMSModel.run, bind.
  rewrite (write_optfile_run self w p l opts Hdir Hopts Hl Hp Hfile).
  fold optfile. unfold try_finally, on_fs. cbn [w_heap w_fs]. rewrite Hrun.
  cbn [w_heap w_fs]. unfold Pathlib.unlink. rewrite Hgone. reflexivity.
Qed.

Lemma run_optfile_gone_witness :
  @GAMSModel.run Edge.tidy Edge.tidy_instance [] Sample.user_world
  = (Raise (FileNotFoundError (Pathlib.div Sample.models "cplex.opt")),
     Sample.user_world).
Proof.
  apply (@run_optfile_gone Edge.tidy Edge.tidy_instance [] Sample.user_world
           Sample.models 10 Sample.user_scalars (Ok "solved"%string));
    try reflexivity.
  vm_compute. discriminate.
Defined.

(** ** When GAMS goes wrong *)

(** In a new, empty directory the program is written and GAMS is started. *)
Lemma gams_release_started `{Platform} w :
  let tmp_dir := mkdtemp_name (w_fs w) in
  let gms := Pathlib.div tmp_dir "null.gms" in
  w_fs w !! tmp_dir = None ->
  map_Forall (fun q (_ : node) => Pathlib.parent q <> tmp_dir) (w_fs w) ->
  GamsRelease.gams_release w =
    (output <- on_fs (check_output_gams (String.eqb os_name "nt") tmp_dir) ;;
     on_fs (Pathlib.unlink gms) ;;;
     on_fs (Pathlib.unlink (Pathlib.with_suffix gms ".lst")) ;;;
     on_fs (Pathlib.rmdir tmp_dir) ;;;
     lift_result (Re.search_group1 GamsRelease.pattern output))
      (World (w_heap w)
         (<[gms := File "$exit;"]> (<[tmp_dir := Dir]> (w_fs w)))).
Proof.
  intros tmp_dir gms Hfresh Hnone.
  assert (Hgms_tmp : gms <> tmp_dir) by apply div_ne.
  unfold GamsRelease.gams_release.
  unfold bind at 1. unfold on_fs at 1. unfold GamsRelease.mkdtemp.
  fold tmp_dir. rewrite Hfresh. cbn [w_heap w_fs]. fold gms.
  unfold bind at 1. unfold on_fs at 1. unfold Pathlib.write_text. cbn [w_heap w_fs].
  assert (Hg0 : (<[tmp_dir := Dir]> (w_fs w)) !! gms = None).
  { rewrite lookup_insert_ne by congruence.
    destruct (w_fs w !! gms) as [n|] eqn:Hg; [|reflexivity].
    exfalso. apply (Hnone gms n Hg). apply parent_div. }
  rewrite Hg0. unfold gms at 1. rewrite parent_div, lookup_insert_eq.
  reflexivity.
Qed.

(** X3. When GAMS cannot be run, or fails, [gams_release] raises what
    [check_output] raised and cleans nothing up: the directory and the
    program it wrote stay as the process left them. *)
Theorem gams_release_process_fails `{Platform} w e fs2 :
  let tmp_dir := mkdtemp_name (w_fs w) in
  let gms := Pathlib.div tmp_dir "null.gms" in
  let fs1 := <[gms := File "$exit;"]> (<[tmp_dir := Dir]> (w_fs w)) in
  w_fs w !! tmp_dir = None ->
  map_Forall (fun q (_ : node) => Pathlib.parent q <> tmp_dir) (w_fs w) ->
  check_output_gams (String.eqb os_name "nt") tmp_dir fs1 = (Raise e, fs2) ->
  GamsRelease.gams_release w = (Raise e, World (w_heap w) fs2)
  /\ (fs2 = fs1 ->
      fs2 !! tmp_dir = Some Dir /\ fs2 !! gms = Some (File "$exit;")).
Proof.
  intros tmp_dir gms fs1 Hfresh Hnone Hgams. split.
  - rewrite gams_release_started by assumption. fold tmp_dir gms fs1.
    unfold bind at 1. unfold on_fs at 1. cbn [w_heap w_fs]. now rewrite Hgams.
  - intros ->. unfold fs1. split.
    + rewrite lookup_insert_ne by apply div_ne. apply lookup_insert_eq.
    + apply lookup_insert_eq.
Qed.

Lemma gams_release_process_fails_witness :
  exists fs2,
    @GamsRelease.gams_release Edge.no_gams (Sample.start Sample.posix).2
    = (Raise (FileNotFoundError (false, ["gams"%string])),
       World (w_heap (Sample.start Sample.posix).2) fs2)
    /\ fs2 !! Pathlib.div (Pathlib.div Sample.tmp "tmpq1w2e3") "null.gms"
       = Some (File "$exit;").
Proof.
  eexists.
  destruct (@gams_release_process_fails Edge.no_gams (Sample.start Sample.posix).2
              (FileNotFoundError (false, ["gams"%string]))
              (<[Pathlib.div (Pathlib.div Sample.tmp "tmpq1w2e3") "null.gms" :=
                   File "$exit;"]>
                 (<[Pathlib.div Sample.tmp "tmpq1w2e3" := Dir]> Sample.disk)))
    as [Hrun Hleft].
  - reflexivity.
  - compute_done.
  - reflexivity.
  - split; [exact Hrun|]. apply Hleft. reflexivity.
Defined.

(** X4. When GAMS has written no listing file, [gams_release] raises
    FileNotFoundError for null.lst: the program is removed by then, the
    directory is not, and the output is not looked at. *)
Theorem gams_release_without_listing `{Platform} w output fs2 :
  let tmp_dir := mkdtemp_name (w_fs w) in
  let gms := Pathlib.div tmp_dir "null.gms" in
  let lst := Pathlib.div tmp_dir "null.lst" in
  let fs1 := <[gms := File "$exit;"]> (<[tmp_dir := Dir]> (w_fs w)) in
  w_fs w !! tmp_dir = None ->
  map_Forall (fun q (_ : node) => Pathlib.parent q <> tmp_dir) (w_fs w) ->
  check_output_gams (String.eqb os_name "nt") tmp_dir fs1 = (Ok output, fs2) ->
  (exists c, fs2 !! gms = Some (File c)) ->
  fs2 !! lst = None ->
  GamsRelease.gams_release w
  = (Raise (FileNotFoundError lst), World (w_heap w) (delete gms fs2))
  /\ delete gms fs2 !! gms = None
  /\ delete gms fs2 !! tmp_dir = fs2 !! tmp_dir.
Proof.
  intros tmp_dir gms lst fs1 Hfresh Hnone Hgams [c Hgms] Hlst.
  assert (Hlst_gms : lst <> gms).
  { unfold lst, gms, Pathlib.div. intros [= Heq]. apply app_inj_tail in Heq as [_ [=]]. }
  split; [|split].
  - rewrite gams_release_started by assumption. fold tmp_dir gms fs1.
    unfold bind at 1. unfold on_fs at 1. cbn [w_heap w_fs]. rewrite Hgams.
    cbn [w_heap w_fs].
    unfold bind at 1. unfold on_fs at 1. unfold Pathlib.unlink at 1.
    cbn [w_heap w_fs]. rewrite Hgms. cbn [w_heap w_fs].
    unfold gms at 1. rewrite with_suffix_div.
    change (Pathlib.stem "null.gms" +++ ".lst") with "null.lst"%string. fold lst.
    unfold bind at 1. unfold on_fs at 1. unfold Pathlib.unlink at 1.
    cbn [w_heap w_fs]. rewrite lookup_delete_ne by congruence. rewrite Hlst.
    reflexivity.
  - apply lookup_delete_eq.
  - apply lookup_delete_ne. apply div_ne.
Qed.

Lemma gams_release_without_listing_witness :
  @GamsRelease.gams_release Edge.no_listing (Sample.start Sample.posix).2
  = (Raise (FileNotFoundError
              (Pathlib.div (Pathlib.div Sample.tmp "tmpq1w2e3") "null.lst")),
     World (w_heap (Sample.start Sample.posix).2)
       (<[Pathlib.div Sample.tmp "tmpq1w2e3" := Dir]> Sample.disk)).
Proof.
  destruct (@gams_release_without_listing Edge.no_listing
              (Sample.start Sample.posix).2 Sample.banner_25_1
              (<[Pathlib.div (Pathlib.div Sample.tmp "tmpq1w2e3") "null.gms" :=
                   File "$exit;"]>
                 (<[Pathlib.div Sample.tmp "tmpq1w2e3" := Dir]> Sample.disk)))
    as [Hrun _].
  - reflexivity.
  - compute_done.
  - reflexivity.
  - eexists. vm_compute. reflexivity.
  - reflexivity.
  - rewrite Hrun. reflexivity.
Defined.

Lemma search_from_none r : forall rest seen,
  Re.search_from r seen rest = None ->
  forall pre rest', rest = pre ++ rest' ->
    Re.exec r (rev pre ++ seen) rest' None K0 = None.
Proof.
  induction rest as [|c rest IH]; intros seen; simpl; fold K0.
  - destruct (Re.exec r seen [] None K0) eqn:He; [discriminate|].
    intros _ pre rest' Heq. symmetry in Heq. apply app_eq_nil in Heq as [-> ->].
    exact He.
  - destruct (Re.exec r seen (c :: rest) None K0) eqn:He; [discriminate|].
    intros Hrec pre rest' Heq. destruct pre as [|x pre].
    + simpl in Heq. subst rest'. exact He.
    + simpl in Heq. injection Heq as <- Heq. simpl. rewrite <- app_assoc.
      now apply IH.
Qed.

(** [re.search] finds nothing exactly when the pattern matches nowhere. *)
Lemma search_group1_nowhere r
    (found : list ascii -> list ascii -> list ascii -> Prop) :
  (forall seen rest g,
      Re.exec r seen rest None K0 = Some g <-> exists v, g = Some v /\ found seen rest v) ->
  forall s,
    Re.search_group1 r s = Raise AttributeError
    <-> forall pre rest v, PyStr.chars s = pre ++ rest -> ~ found (rev pre) rest v.
Proof.
  intros Hexec s. split.
  - unfold Re.search_group1, Re.search.
    destruct (Re.search_from r [] (PyStr.chars s)) as [[g|]|] eqn:Hs; try discriminate.
    intros _ pre rest v Heq Hfound.
    pose proof (search_from_none r _ _ Hs pre rest Heq) as Hnone.
    rewrite app_nil_r in Hnone.
    assert (Hsome : Re.exec r (rev pre) rest None K0 = Some (Some v)).
    { apply Hexec. now exists v. }
    congruence.
  - intros Hno. destruct (Re.search_group1 r s) as [a|e] eqn:Hs.
    + exfalso. apply (search_group1_first r found Hexec) in Hs
        as (v & _ & pre & rest & Heq & Hf & _).
      exact (Hno pre rest _ Heq Hf).
    + unfold Re.search_group1 in Hs.
      destruct (Re.search r s) as [[g|]|]; try discriminate.
      now injection Hs as <-.
Qed.

(** After a run of GAMS that left its listing file and nothing else in the
    directory, the three paths are removed and the output is searched. *)
Lemma gams_release_returns `{Platform} w output fs2 :
  let tmp_dir := mkdtemp_name (w_fs w) in
  let gms := Pathlib.div tmp_dir "null.gms" in
  let lst := Pathlib.div tmp_dir "null.lst" in
  let fs1 := <[gms := File "$exit;"]> (<[tmp_dir := Dir]> (w_fs w)) in
  w_fs w !! tmp_dir = None ->
  map_Forall (fun q (_ : node) => Pathlib.parent q <> tmp_dir) (w_fs w) ->
  check_output_gams (String.eqb os_name "nt") tmp_dir fs1 = (Ok output, fs2) ->
  (exists c, fs2 !! gms = Some (File c)) ->
  (exists c, fs2 !! lst = Some (File c)) ->
  fs2 !! tmp_dir = Some Dir ->
  map_Forall (fun q (_ : node) =>
                Pathlib.parent q <> tmp_dir \/ q = gms \/ q = lst \/ q = tmp_dir) fs2 ->
  GamsRelease.gams_release w
  = (Re.search_group1 GamsRelease.pattern output,
     World (w_heap w) (delete tmp_dir (delete lst (delete gms fs2)))).
Proof.
  intros tmp_dir gms lst fs1 Hfresh Hnone Hgams [cg Hgms] [cl Hlst] Htmp Hrest.
  assert (Hgms_tmp : gms <> tmp_dir) by apply div_ne.
  assert (Hlst_tmp : lst <> tmp_dir) by apply div_ne.
  assert (Hlst_gms : lst <> gms).
  { unfold lst, gms, Pathlib.div. intros [= Heq]. apply app_inj_tail in Heq as [_ [=]]. }
  rewrite gams_release_started by assumption. fold tmp_dir gms fs1.
  unfold bind at 1. unfold on_fs at 1. cbn [w_heap w_fs]. rewrite Hgams.
  cbn [w_heap w_fs].
  unfold bind at 1. unfold on_fs at 1. unfold Pathlib.unlink at 1.
  cbn [w_heap w_fs]. rewrite Hgms. cbn [w_heap w_fs].
  unfold gms at 1. rewrite with_suffix_div.
  change (Pathlib.stem "null.gms" +++ ".lst") with "null.lst"%string. fold lst.
  unfold bind at 1. unfold on_fs at 1. unfold Pathlib.unlink at 1.
  cbn [w_heap w_fs]. rewrite lookup_delete_ne by congruence. rewrite Hlst.
  cbn [w_heap w_fs].
  unfold bind at 1. unfold on_fs at 1. unfold Pathlib.rmdir. cbn [w_heap w_fs].
  rewrite !lookup_delete_ne by congruence. rewrite Htmp.
  assert (Hempty : Pathlib.is_empty_dir tmp_dir (delete lst (delete gms fs2)) = true).
  { unfold Pathlib.is_empty_dir. apply bool_decide_eq_true_2.
    intros q n Hq.
    apply lookup_delete_Some in Hq as [Hq1 Hq].
    apply lookup_delete_Some in Hq as [Hq2 Hq].
    destruct (Hrest q n Hq) as [Hp|[Hp|[Hp|Hp]]]; subst; try congruence; tauto. }
  rewrite Hempty. reflexivity.
Qed.

(** X5. When no line of the output starts with the banner, [gams_release]
    raises AttributeError, after it has removed the program, the listing
    file and the directory. *)
Theorem gams_release_without_banner `{Platform} w output fs2 :
  let tmp_dir := mkdtemp_name (w_fs w) in
  let gms := Pathlib.div tmp_dir "null.gms" in
  let lst := Pathlib.div tmp_dir "null.lst" in
  let fs1 := <[gms := File "$exit;"]> (<[tmp_dir := Dir]> (w_fs w)) in
  let fs3 := delete tmp_dir (delete lst (delete gms fs2)) in
  w_fs w !! tmp_dir = None ->
  map_Forall (fun q (_ : node) => Pathlib.parent q <> tmp_dir) (w_fs w) ->
  check_output_gams (String.eqb os_name "nt") tmp_dir fs1 = (Ok output, fs2) ->
  (exists c, fs2 !! gms = Some (File c)) ->
  (exists c, fs2 !! lst = Some (File c)) ->
  fs2 !! tmp_dir = Some Dir ->
  map_Forall (fun q (_ : node) =>
                Pathlib.parent q <> tmp_dir \/ q = gms \/ q = lst \/ q = tmp_dir) fs2 ->
  (forall pre rest v, PyStr.chars output = pre ++ rest -> ~ banner_at (rev pre) rest v) ->
  GamsRelease.gams_release w = (Raise AttributeError, World (w_heap w) fs3)
  /\ fs3 !! gms = None /\ fs3 !! lst = None /\ fs3 !! tmp_dir = None.
Proof.
  intros tmp_dir gms lst fs1 fs3 Hfresh Hnone Hgams Hgms Hlst Htmp Hrest Hno.
  assert (Hgms_tmp : gms <> tmp_dir) by apply div_ne.
  assert (Hlst_tmp : lst <> tmp_dir) by apply div_ne.
  assert (Hlst_gms : lst <> gms).
  { unfold lst, gms, Pathlib.div. intros [= Heq]. apply app_inj_tail in Heq as [_ [=]]. }
  split.
  - rewrite (gams_release_returns w output fs2) by assumption.
    f_equal. now apply (search_group1_nowhere _ banner_at exec_banner).
  - unfold fs3. repeat split.
    + rewrite !lookup_delete_ne by congruence. apply lookup_delete_eq.
    + rewrite lookup_delete_ne by congruence. apply lookup_delete_eq.
    + apply lookup_delete_eq.
Qed.

Lemma gams_release_without_banner_witness :
  @GamsRelease.gams_release Edge.no_banner (Sample.start Sample.posix).2
  = (Raise AttributeError, (Sample.start Sample.posix).2).
Proof.
  destruct (@gams_release_without_banner Edge.no_banner (Sample.start Sample.posix).2
              ("--- Job null Start" +++ PyStr.nl +++ "Licensee: nobody" +++ PyStr.nl
               +++ "*** Status: Normal completion")
              (<[Pathlib.div (Pathlib.div Sample.tmp "tmpq1w2e3") "null.lst" :=
                   File "GAMS listing"]>
                 (<[Pathlib.div (Pathlib.div Sample.tmp "tmpq1w2e3") "null.gms" :=
                      File "$exit;"]>
                    (<[Pathlib.div Sample.tmp "tmpq1w2e3" := Dir]> Sample.disk))))
    as [Hrun _].
  - reflexivity.
  - compute_done.
  - reflexivity.
  - eexists. vm_compute. reflexivity.
  - eexists. vm_compute. reflexivity.
  - vm_compute. reflexivity.
  - compute_done.
  - apply (search_group1_nowhere _ banner_at exec_banner). vm_compute. reflexivity.
  - rewrite Hrun. reflexivity.
Defined.

(** X6. A run of GAMS that only adds its listing file leaves no trace:
    after [gams_release] the file system is the one it started from. *)
Theorem gams_release_leaves_no_trace `{Platform} w output listing :
  let tmp_dir := mkdtemp_name (w_fs w) in
  let gms := Pathlib.div tmp_dir "null.gms" in
  let lst := Pathlib.div tmp_dir "null.lst" in
  let fs1 := <[gms := File "$exit;"]> (<[tmp_dir := Dir]> (w_fs w)) in
  w_fs w !! tmp_dir = None ->
  map_Forall (fun q (_ : node) => Pathlib.parent q <> tmp_dir) (w_fs w) ->
  check_output_gams (String.eqb os_name "nt") tmp_dir fs1
    = (Ok output, <[lst := File listing]> fs1) ->
  GamsRelease.gams_release w
  = (Re.search_group1 GamsRelease.pattern output, w).
Proof.
  intros tmp_dir gms lst fs1 Hfresh Hnone Hgams.
  assert (Hgms_tmp : gms <> tmp_dir) by apply div_ne.
  assert (Hlst_tmp : lst <> tmp_dir) by apply div_ne.
  assert (Hlst_gms : lst <> gms).
  { unfold lst, gms, Pathlib.div. intros [= Heq]. apply app_inj_tail in Heq as [_ [=]]. }
  assert (Hin : forall q, Pathlib.parent q = tmp_dir -> w_fs w !! q = None).
  { intros q Hq. destruct (w_fs w !! q) as [n|] eqn:Hn; [|reflexivity].
    destruct (Hnone q n Hn Hq). }
  rewrite (gams_release_returns w output (<[lst := File listing]> fs1));
    try assumption.
  - destruct w as [h fs]. cbn [w_heap w_fs] in *. f_equal. f_equal.
    apply map_eq. intros q. unfold fs1. fold tmp_dir. fold gms. fold lst.
    destruct (decide (q = tmp_dir)) as [->|Hq1]; [now rewrite lookup_delete_eq|].
    rewrite lookup_delete_ne by congruence.
    destruct (decide (q = lst)) as [->|Hq2].
    { rewrite lookup_delete_eq. symmetry. apply Hin. apply parent_div. }
    rewrite lookup_delete_ne by congruence.
    destruct (decide (q = gms)) as [->|Hq3].
    { rewrite lookup_delete_eq. symmetry. apply Hin. apply parent_div. }
    rewrite lookup_delete_ne by congruence.
    now rewrite !lookup_insert_ne by congruence.
  - exists "$exit;"%string. rewrite lookup_insert_ne by exact Hlst_gms.
    apply lookup_insert_eq.
  - exists listing. apply lookup_insert_eq.
  - unfold fs1. rewrite lookup_insert_ne by exact Hlst_tmp.
    rewrite lookup_insert_ne by exact Hgms_tmp. apply lookup_insert_eq.
  - fold tmp_dir. fold gms. fold lst. intros q n Hq.
    destruct (decide (q = lst)) as [->|Hq2]; [tauto|].
    rewrite lookup_insert_ne in Hq by congruence. unfold fs1 in Hq.
    destruct (decide (q = gms)) as [->|Hq3]; [tauto|].
    rewrite lookup_insert_ne in Hq by congruence.
    destruct (decide (q = tmp_dir)) as [->|Hq1]; [tauto|].
    rewrite lookup_insert_ne in Hq by congruence.
    left. exact (Hnone q n Hq).
Qed.

Lemma gams_release_leaves_no_trace_witness :
  @GamsRelease.gams_release Sample.posix Sample.user_world
  = (Ok (AStr "25.1.3"), Sample.user_world).
Proof.
  rewrite (@gams_release_leaves_no_trace Sample.posix Sample.user_world
             ("--- Job null Start" +++ PyStr.nl +++ Sample.banner_25_1 +++ PyStr.nl
              +++ "*** Status: Normal completion") "GAMS listing").
  - reflexivity.
  - reflexivity.
  - compute_done.
  - reflexivity.
Defined.

(** ** When the version cannot be read *)

(** X7. [read_version] falls back to the file next to the module only when
    nothing is at the configured path: if that file is missing too it
    raises FileNotFoundError for it, and a directory at the configured path
    gives, where [os.name] is not 'nt', IsADirectoryError without any
    fallback. The world is unchanged. *)
Theorem read_version_no_file `{Platform} w :
  let configured := Pathlib.div config_model_dir "version.gms" in
  let packaged := Pathlib.div (Pathlib.div module_dir "model") "version.gms" in
  (w_fs w !! configured = None -> w_fs w !! packaged = None ->
   GAMSModel.read_version w = (Raise (FileNotFoundError packaged), w))
  /\ (os_name <> "nt"%string -> w_fs w !! configured = Some Dir ->
      GAMSModel.read_version w = (Raise (IsADirectoryError configured), w)).
Proof.
  intros configured packaged. unfold GAMSModel.read_version.
  fold configured. fold packaged. unfold Pathlib.exists_, Pathlib.read_text.
  split.
  - intros Hc Hp. rewrite Hc.
    rewrite bool_decide_eq_false_2 by (intros [x Hx]; discriminate).
    cbn [negb]. unfold bind, lift_result. now rewrite Hp.
  - intros _ Hc. rewrite Hc. rewrite bool_decide_eq_true_2 by eauto.
    cbn [negb]. unfold bind, lift_result. now rewrite Hc.
Qed.

Lemma read_version_no_file_witness :
  @GAMSModel.read_version Sample.posix Sample.user_world
  = (Raise (FileNotFoundError
              (Pathlib.div (Pathlib.div Sample.package "model") "version.gms")),
     Sample.user_world)
  /\ @GAMSModel.read_version Sample.posix Edge.configured_dir
     = (Raise (IsADirectoryError (Pathlib.div Sample.models "version.gms")),
        Edge.configured_dir).
Proof.
  split.
  - apply (proj1 (@read_version_no_file Sample.posix Sample.user_world)); reflexivity.
  - apply (proj2 (@read_version_no_file Sample.posix Edge.configured_dir));
      [discriminate|reflexivity].
Defined.

(** X8. When the text of the version file has no [VERSION_MAJOR "..."],
    no [VERSION_MINOR "..."] or no [VERSION_PATCH "..."], [read_version]
    raises AttributeError. *)
Theorem read_version_undefined `{Platform} w s which :
  let configured := Pathlib.div config_model_dir "version.gms" in
  let packaged := Pathlib.div (Pathlib.div module_dir "model") "version.gms" in
  w_fs w !! configured = Some (File s)
  \/ (w_fs w !! configured = None /\ w_fs w !! packaged = Some (File s)) ->
  which ∈ ["MAJOR"; "MINOR"; "PATCH"]%string ->
  (forall pre rest v,
      PyStr.chars s = pre ++ rest -> ~ version_at which (rev pre) rest v) ->
  GAMSModel.read_version w = (Raise AttributeError, w).
Proof.
  intros configured packaged Hfile Hwhich Hno.
  assert (Hnone : Re.search_group1 (GAMSModel.version_pattern which) s
                  = Raise AttributeError).
  { now apply (search_group1_nowhere _ (version_at which) (exec_version which)). }
  assert (Hread :
    Pathlib.read_text
      (if negb (Pathlib.exists_ configured (w_fs w)) then packaged else configured)
      (w_fs w) = Ok s).
  { unfold Pathlib.exists_, Pathlib.read_text.
    destruct Hfile as [Hc|[Hc Hp]]; rewrite Hc.
    - rewrite bool_decide_eq_true_2 by eauto. simpl. now rewrite Hc.
    - rewrite bool_decide_eq_false_2 by (intros [x Hx]; discriminate).
      simpl. now rewrite Hp. }
  assert (Hcases : forall which',
            Re.search_group1 (GAMSModel.version_pattern which') s = Raise AttributeError
            \/ exists a, Re.search_group1 (GAMSModel.version_pattern which') s = Ok a).
  { intros which'. unfold Re.search_group1.
    destruct (Re.search _ s) as [[g|]|]; eauto. }
  unfold GAMSModel.read_version. fold configured. fold packaged.
  unfold bind, lift_result, ret. rewrite Hread.
  apply elem_of_cons in Hwhich as [->|Hwhich]; [now rewrite Hnone|].
  destruct (Hcases "MAJOR"%string) as [->|[a ->]]; [reflexivity|].
  apply elem_of_cons in Hwhich as [->|Hwhich]; [now rewrite Hnone|].
  destruct (Hcases "MINOR"%string) as [->|[b ->]]; [reflexivity|].
  apply elem_of_cons in Hwhich as [->|Hwhich]; [now rewrite Hnone|].
  inversion Hwhich.
Qed.

Lemma read_version_undefined_witness :
  @GAMSModel.read_version Sample.posix Edge.configured_short
  = (Raise AttributeError, Edge.configured_short).
Proof.
  apply (@read_version_undefined Sample.posix Edge.configured_short
           Edge.version_gms_short "MINOR").
  - left. reflexivity.
  - compute_done.
  - apply (search_group1_nowhere _ (version_at "MINOR") (exec_version "MINOR")).
    vm_compute. reflexivity.
Defined.

(** ** The version check on the releases GAMS ships *)

Lemma release_check_agrees :
  forallb (fun major =>
    forallb (fun minor =>
      forallb (fun patch =>
        Bool.eqb (PyStr.lt (release_string major minor patch) MACRO.GAMS_min_version)
                 (before_24_8_1 major minor patch))
        (seq 0 100))
      (seq 0 10))
    (seq 10 90) = true.
Proof. vm_compute. reflexivity. Qed.

(** X9. For a release with a two-digit major number, a one-digit minor
    number and a patch number below 100, the string comparison of
    [MACRO.__init__] decides as the releases compare: it raises
    RuntimeError exactly for the releases before 24.8.1, and otherwise goes
    on as [GAMSModel.__init__]. *)
Theorem MACRO_init_usual_release `{Platform} G c name options w w'
    major minor patch :
  10 <= major <= 99 -> minor <= 9 -> patch <= 99 ->
  GamsRelease.gams_release w = (Ok (AStr (release_string major minor patch)), w') ->
  MACRO.__init__ G c name options w =
    if before_24_8_1 major minor patch then
      (Raise (RuntimeError
                (cls_name c +++ " requires GAMS >= 24.8.1; found "
                 +++ release_string major minor patch)), w')
    else GAMSModel.__init__ G c name options w'.
Proof.
  intros Hmajor Hminor Hpatch Hrel.
  rewrite (MACRO_init_after_release G c name options w _ w' Hrel).
  pose proof release_check_agrees as Hall.
  rewrite forallb_forall in Hall.
  specialize (Hall major ltac:(apply in_seq; lia)).
  rewrite forallb_forall in Hall.
  specialize (Hall minor ltac:(apply in_seq; lia)).
  rewrite forallb_forall in Hall.
  specialize (Hall patch ltac:(apply in_seq; lia)).
  apply Bool.eqb_prop in Hall. now rewrite Hall.
Qed.

Lemma MACRO_init_usual_release_witness :
  @MACRO.__init__ Sample.posix Sample.G C_MACRO None [] Sample.user_world
  = @GAMSModel.__init__ Sample.posix Sample.G C_MACRO None [] Sample.user_world
  /\ @MACRO.__init__ (Sample.platform "posix" Sample.banner_24_7) Sample.G
       C_MACRO None [] Sample.user_world
     = (Raise (RuntimeError "MACRO requires GAMS >= 24.8.1; found 24.7.4"),
        Sample.user_world).
Proof.
  split.
  - apply (@MACRO_init_usual_release Sample.posix Sample.G C_MACRO None []
             Sample.user_world Sample.user_world 25 1 3); try lia.
    reflexivity.
  - apply (@MACRO_init_usual_release (Sample.platform "posix" Sample.banner_24_7)
             Sample.G C_MACRO None [] Sample.user_world Sample.user_world 24 7 4);
      try lia.
    reflexivity.
Defined.

(** ** More on the constructor *)

(** X10. The options [GAMSModel.__init__] forwards always have a
    'model_dir': the one the caller gave or, without one, the configured
    model directory. *)
Theorem GAMSModel_init_model_dir `{Platform} G c name options w :
  defaults_intact G (w_heap w) ->
  dict_get "solve_options" options = None
  \/ (exists u U, dict_get "solve_options" options = Some (VRef u)
                  /\ w_heap w !! u = Some U) ->
  exists forwarded w',
    GAMSModel.__init__ G c name options w =
      (match ixmp_init (cls_name c) name forwarded with
       | Ok b => Ok (Model c (VRef (length (w_heap w))) b)
       | Raise e => Raise e
       end, w')
    /\ dict_get "model_dir" forwarded
       = Some (default (VAtom (APath config_model_dir))
                 (dict_get "model_dir" options)).
Proof.
  intros Hintact Hso.
  destruct (defaults_intact_inv _ _ Hintact) as (d & HG & Hd).
  assert (Hdir : dict_get "model_dir"
            (dict_del "solve_options"
               (dict_setdefault "model_dir" (VAtom (APath config_model_dir)) options))
          = Some (default (VAtom (APath config_model_dir))
                    (dict_get "model_dir" options))).
  { rewrite dict_get_del_ne by discriminate. unfold dict_setdefault.
    destruct (dict_get "model_dir" options) as [v|] eqn:Hm; [exact Hm|].
    apply dict_get_set_eq. }
  destruct Hso as [Hnone|(u & U & Hu & HU)].
  - eexists _, _. split; [|exact Hdir].
    apply (GAMSModel_init_run G c name options w d default_dict [] HG Hd).
    now rewrite Hnone.
  - eexists _, _. split; [|exact Hdir].
    apply (GAMSModel_init_run G c name options w d default_dict U HG Hd).
    now rewrite Hu.
Qed.

Lemma GAMSModel_init_model_dir_witness :
  exists forwarded w',
    @GAMSModel.__init__ Sample.posix Sample.G C_MESSAGE None
        [("solve_options", Sample.user_ref)]%string Sample.user_world =
      (match @ixmp_init Sample.posix "MESSAGE" None forwarded with
       | Ok b => Ok (@Model Sample.posix C_MESSAGE (VRef 11) b)
       | Raise e => Raise e
       end, w')
    /\ dict_get "model_dir" forwarded = Some (VAtom (APath Sample.models)).
Proof.
  apply (@GAMSModel_init_model_dir Sample.posix Sample.G C_MESSAGE None
           [("solve_options", Sample.user_ref)]%string Sample.user_world).
  - reflexivity.
  - right. exists 10, Sample.user_options. split; reflexivity.
Defined.

Lemma dict_keys_set {V} k (v : V) d :
  dict_keys (dict_set k v d)
  = if bool_decide (k ∈ dict_keys d) then dict_keys d else dict_keys d ++ [k].
Proof.
  induction d as [|[k' v'] d IH]; [reflexivity|]. simpl.
  destruct (String.eqb_spec k k') as [->|Hne].
  - rewrite bool_decide_eq_true_2 by left. reflexivity.
  - simpl. rewrite IH. destruct (decide (k ∈ dict_keys d)) as [Hin|Hnin].
    + rewrite !bool_decide_eq_true_2; [reflexivity|now right|assumption].
    + rewrite !bool_decide_eq_false_2; [reflexivity| |assumption].
      intros Hin. apply elem_of_cons in Hin as [?|?]; congruence.
Qed.

Lemma filter_ext_in {A} (P Q : A -> Prop)
    `{!forall x, Decision (P x)} `{!forall x, Decision (Q x)} (l : list A) :
  (forall x, x ∈ l -> P x <-> Q x) -> filter P l = filter Q l.
Proof.
  induction l as [|a l IH]; intros Hpq; [reflexivity|].
  assert (Hl : filter P l = filter Q l).
  { apply IH. intros x Hx. apply Hpq. now right. }
  destruct (decide (P a)) as [Hp|Hp].
  - rewrite !filter_cons_True; [now f_equal| |assumption].
    apply Hpq; [left|assumption].
  - rewrite !filter_cons_False; [assumption| |assumption].
    intros Hq. apply Hp. apply Hpq; [left|assumption].
Qed.

(** The order of the keys after [d.update(u)]: those of [d] as they
    were, then the new ones of [u] in the order of [u]. *)
Lemma dict_keys_update {V} (u : list (string * V)) : forall d,
  NoDup (dict_keys u) ->
  dict_keys (dict_update d u)
  = dict_keys d ++ filter (fun k => k ∉ dict_keys d) (dict_keys u).
Proof.
  unfold dict_update.
  induction u as [|[k v] u IH]; intros d Hnd.
  - simpl. now rewrite app_nil_r.
  - apply NoDup_cons in Hnd as [Hk Hnd]. cbn [fold_left fst snd].
    rewrite IH by assumption. rewrite dict_keys_set.
    cbn [dict_keys map fst]. fold (dict_keys u).
    destruct (decide (k ∈ dict_keys d)) as [Hin|Hnin].
    + rewrite bool_decide_eq_true_2 by assumption.
      rewrite filter_cons_False by tauto. reflexivity.
    + rewrite bool_decide_eq_false_2 by assumption.
      rewrite filter_cons_True by assumption.
      rewrite <- app_assoc. f_equal. simpl. f_equal.
      apply filter_ext_in. intros x Hx.
      rewrite elem_of_app, list_elem_of_singleton.
      split; [tauto|]. intros Hxd [Hin|Heq]; [tauto|]. subst x. contradiction.
Qed.

(** X11. The keys of [cplex_opts] come in a fixed order: advind,
    lpmethod, threads, epopt, and after them the keys of the user's
    'solve_options' that are none of these, in the user's order. *)
Theorem GAMSModel_init_key_order `{Platform} G c name options w u U :
  defaults_intact G (w_heap w) ->
  dict_get "solve_options" options = Some (VRef u) ->
  w_heap w !! u = Some U ->
  NoDup (dict_keys U) ->
  exists C,
    w_heap (GAMSModel.__init__ G c name options w).2 !! length (w_heap w) = Some C
    /\ dict_keys C
       = ["advind"; "lpmethod"; "threads"; "epopt"]%string
         ++ filter (fun k => k ∉ ["advind"; "lpmethod"; "threads"; "epopt"]%string)
              (dict_keys U).
Proof.
  intros Hintact Hu HU Hnd.
  destruct (defaults_intact_inv _ _ Hintact) as (d & HG & Hd).
  rewrite (GAMSModel_init_run G c name options w d default_dict U HG Hd)
    by now rewrite Hu.
  cbn [snd w_heap]. exists (dict_update default_dict U). split.
  - now apply list_lookup_middle.
  - now rewrite dict_keys_update.
Qed.

Lemma GAMSModel_init_key_order_witness :
  exists C,
    w_heap (@GAMSModel.__init__ Sample.posix Sample.G C_MESSAGE None
              [("solve_options", Sample.user_ref)]%string Sample.user_world).2
      !! 11 = Some C
    /\ dict_keys C = ["advind"; "lpmethod"; "threads"; "epopt"; "mipgap"]%string.
Proof.
  apply (@GAMSModel_init_key_order Sample.posix Sample.G C_MESSAGE None
           [("solve_options", Sample.user_ref)]%string Sample.user_world
           10 Sample.user_options).
  - reflexivity.
  - reflexivity.
  - reflexivity.
  - compute_done.
Defined.

(** X12. Whatever the options are, and whether it returns or raises,
    [GAMSModel.__init__] changes no object that was in the store, so not
    the user's 'solve_options' and not the options of another instance;
    it adds two objects, and it leaves the file system alone. *)
Theorem GAMSModel_init_touches_nothing `{Platform} G c name options w :
  defaults_intact G (w_heap w) ->
  let w' := (GAMSModel.__init__ G c name options w).2 in
  (forall l d, w_heap w !! l = Some d -> w_heap w' !! l = Some d)
  /\ length (w_heap w') = length (w_heap w) + 2
  /\ w_fs w' = w_fs w.
Proof.
  intros Hintact w'.
  destruct (defaults_intact_inv _ _ Hintact) as (d0 & HG & Hd).
  destruct (GAMSModel_init_frame G c name options w d0 default_dict HG Hd)
    as (X & Hh & Hf & _).
  fold w' in Hh, Hf. split; [|split].
  - intros l d Hl. rewrite Hh. rewrite lookup_app_l; [assumption|].
    now apply lookup_lt_Some in Hl.
  - rewrite Hh, length_app. reflexivity.
  - exact Hf.
Qed.

Lemma GAMSModel_init_touches_nothing_witness :
  w_heap (@GAMSModel.__init__ Sample.posix Sample.G C_MESSAGE None
            [("solve_options", Sample.user_ref)]%string Sample.user_world).2 !! 10
  = Some Sample.user_options.
Proof.
  apply (@GAMSModel_init_touches_nothing Sample.posix Sample.G C_MESSAGE None
           [("solve_options", Sample.user_ref)]%string Sample.user_world);
    reflexivity.
Defined.

(** X13. Two instances never share their [cplex_opts]: each constructor
    call makes a dictionary of its own, so a later change of the options
    of one instance changes neither those of the other nor the defaults. *)
Theorem instances_do_not_share `{Platform} G c1 c2 name1 name2 options1 options2
    w m1 w1 m2 w2 :
  defaults_intact G (w_heap w) ->
  GAMSModel.__init__ G c1 name1 options1 w = (Ok m1, w1) ->
  GAMSModel.__init__ G c2 name2 options2 w1 = (Ok m2, w2) ->
  exists l1 l2 d2,
    cplex_opts m1 = VRef l1 /\ cplex_opts m2 = VRef l2 /\ l1 <> l2
    /\ w_heap w2 !! l2 = Some d2
    /\ forall d1',
         <[l1 := d1']> (w_heap w2) !! l2 = Some d2
         /\ defaults_intact G (<[l1 := d1']> (w_heap w2)).
Proof.
  intros Hintact Hinit1 Hinit2.
  destruct (defaults_intact_inv _ _ Hintact) as (d & HG & Hd).
  assert (Hlt : d < length (w_heap w)) by now apply lookup_lt_Some in Hd.
  destruct (GAMSModel_init_frame G c1 name1 options1 w d default_dict HG Hd)
    as (X1 & Hh1 & _ & Hm1).
  rewrite Hinit1 in Hh1, Hm1. cbn [fst snd] in Hh1, Hm1.
  assert (Hd1 : w_heap w1 !! d = Some default_dict).
  { rewrite Hh1. now rewrite lookup_app_l. }
  destruct (GAMSModel_init_frame G c2 name2 options2 w1 d default_dict HG Hd1)
    as (X2 & Hh2 & _ & Hm2).
  rewrite Hinit2 in Hh2, Hm2. cbn [fst snd] in Hh2, Hm2.
  exists (length (w_heap w)), (length (w_heap w1)), X2.
  assert (Hlen : length (w_heap w1) = length (w_heap w) + 2).
  { rewrite Hh1, length_app. reflexivity. }
  split; [now apply Hm1|]. split; [now apply Hm2|]. split; [lia|].
  assert (Hl2 : w_heap w2 !! length (w_heap w1) = Some X2).
  { rewrite Hh2. now apply list_lookup_middle. }
  split; [exact Hl2|]. intros d1'. split.
  - rewrite list_lookup_insert_ne by lia. exact Hl2.
  - apply (defaults_intact_intro G _ d HG).
    rewrite list_lookup_insert_ne by lia.
    rewrite Hh2. rewrite lookup_app_l by lia. exact Hd1.
Qed.

Lemma instances_do_not_share_witness :
  exists m1 w1 m2 w2,
    @GAMSModel.__init__ Sample.posix Sample.G C_MESSAGE None
        [("solve_options", Sample.user_ref)]%string Sample.user_world = (Ok m1, w1)
    /\ @GAMSModel.__init__ Sample.posix Sample.G C_MESSAGE (Some "other"%string) [] w1
        = (Ok m2, w2)
    /\ exists l1 l2 d2,
         cplex_opts m1 = VRef l1 /\ cplex_opts m2 = VRef l2 /\ l1 <> l2
         /\ w_heap w2 !! l2 = Some d2
         /\ forall d1',
              <[l1 := d1']> (w_heap w2) !! l2 = Some d2
              /\ defaults_intact Sample.G (<[l1 := d1']> (w_heap w2)).
Proof.
  pose (r1 := @GAMSModel.__init__ Sample.posix Sample.G C_MESSAGE None
                [("solve_options", Sample.user_ref)]%string Sample.user_world).
  pose (r2 := @GAMSModel.__init__ Sample.posix Sample.G C_MESSAGE
                (Some "other"%string) [] r1.2).
  let m1 := eval vm_compute in r1.1 in
  let h1 := eval vm_compute in (w_heap r1.2) in
  assert (H1 : r1 = (m1, World h1 (w_fs Sample.user_world))) by reflexivity.
  let m2 := eval vm_compute in r2.1 in
  let h2 := eval vm_compute in (w_heap r2.2) in
  assert (H2 : r2 = (m2, World h2 (w_fs Sample.user_world))) by reflexivity.
  eexists _, _, _, _.
  split; [exact H1|]. split; [exact H2|].
  apply (@instances_do_not_share Sample.posix Sample.G C_MESSAGE C_MESSAGE
           None (Some "other"%string)
           [("solve_options", Sample.user_ref)]%string [] Sample.user_world
           _ _ _ _ eq_refl H1 H2).
Defined.

(** ** [MACRO.initialize] on a table that lacks an item *)

Lemma pop_idx_sets_app items done : forall names w,
  MACRO.pop_idx_sets items (done ++ names) w
  = match MACRO.pop_idx_sets items done w with
    | (Ok _, w1) => MACRO.pop_idx_sets items names w1
    | (Raise e, w1) => (Raise e, w1)
    end.
Proof.
  induction done as [|name done IH]; intros names w; [reflexivity|].
  cbn [app MACRO.pop_idx_sets]. unfold bind.
  destruct (getitem items name w) as [[item|e] w1]; [|reflexivity].
  destruct (pop item "idx_sets" w1) as [[x|e] w2]; [|reflexivity].
  apply IH.
Qed.

(** The items before the one that fails have lost their 'idx_sets' in the
    copy; what was in the store before is as it was. *)
Lemma MACRO_initialize_stops `{Platform} G scenario with_data w done name rest k :
  MACRO.without_idx_sets = done ++ name :: rest ->
  lit_wf (LDict MACRO_ITEMS) = true ->
  lit_depth (LDict MACRO_ITEMS) <= recursion_limit ->
  macro_items_loaded G (w_heap w) ->
  forallb (has_idx_sets MACRO_ITEMS) done = true ->
  (forall h y a b,
     repr h (VRef y) (LDict (strip_items done MACRO_ITEMS)) a b -> b <= length h ->
     MACRO.pop_idx_sets (VRef y) (name :: rest) (World h (w_fs w))
     = (Raise (KeyError k), World h (w_fs w))) ->
  exists w',
    MACRO.initialize G scenario with_data w = (Raise (KeyError k), w')
    /\ w_fs w' = w_fs w
    /\ extends (w_heap w) (w_heap w')
    /\ macro_items_loaded G (w_heap w').
Proof.
  intros Hsplit Hwf Hdepth (lo & hi & Hr & Hhi) Hdone Hfail.
  assert (Hkeys : NoDup (dict_keys MACRO_ITEMS)).
  { rewrite lit_wf_dict in Hwf. apply andb_prop in Hwf as [Hnd _].
    now apply bool_decide_eq_true_1 in Hnd. }
  assert (Hnd : NoDup (done ++ name :: rest)).
  { rewrite <- Hsplit. compute_done. }
  destruct w as [h fs]. cbn [w_heap w_fs] in *.
  destruct (deepcopy_run recursion_limit h _ _ lo hi Hr Hhi Hdepth Hwf)
    as (v' & h1 & Hcopy & Hext & Hr1).
  inversion Hr1 as [| |y kvs ? ? ilo ihi ? Hy Hby Hilo Hihi Hitems]; subst.
  destruct (pop_idx_sets_spec MACRO_ITEMS fs y (length h) (length h1)
              done [] h1) as (h2 & Hpop & Hr2 & Hlen & Hsame).
  { assumption. }
  { simpl. now apply NoDup_app in Hnd as (? & _ & _). }
  { intros n Hn. rewrite forallb_forall in Hdone. apply Hdone.
    now apply list_elem_of_In. }
  { now rewrite strip_items_nil. }
  { lia. }
  simpl app in Hr2.
  exists (World h2 fs). split; [|split; [reflexivity|split]].
  - unfold MACRO.initialize, bind, on_heap. cbn [w_heap w_fs].
    rewrite Hcopy, Hsplit, pop_idx_sets_app, Hpop.
    rewrite (Hfail h2 y (length h) (length h1) Hr2) by lia. reflexivity.
  - destruct Hext as [Hl Hs]. cbn [w_heap]. split; [lia|].
    intros i Hi. rewrite Hsame by assumption. now apply Hs.
  - exists lo, hi. cbn [w_heap]. split; [|destruct Hext; lia].
    apply (proj1 (repr_frame h h2) _ _ _ _ Hr).
    intros i Hi. destruct Hext as [Hl Hs]. rewrite Hsame by lia. apply Hs. lia.
Qed.

(** X14. If [MACRO_ITEMS] lacks one of the six items, [MACRO.initialize]
    raises [KeyError] with the name of the first one missing, and declares
    nothing; [MACRO_ITEMS] itself and every other object of the store are
    as before, and so is the file system. *)
Theorem MACRO_initialize_item_missing `{Platform} G scenario with_data w
    done name rest :
  MACRO.without_idx_sets = done ++ name :: rest ->
  lit_wf (LDict MACRO_ITEMS) = true ->
  lit_depth (LDict MACRO_ITEMS) <= recursion_limit ->
  macro_items_loaded G (w_heap w) ->
  forallb (has_idx_sets MACRO_ITEMS) done = true ->
  dict_get name MACRO_ITEMS = None ->
  exists w',
    MACRO.initialize G scenario with_data w = (Raise (KeyError name), w')
    /\ w_fs w' = w_fs w
    /\ extends (w_heap w) (w_heap w')
    /\ macro_items_loaded G (w_heap w').
Proof.
  intros Hsplit Hwf Hdepth Hloaded Hdone Hnone.
  apply (MACRO_initialize_stops G scenario with_data w done name rest name);
    try assumption.
  intros h y a b Hr Hb.
  inversion Hr as [| |? kvs ? ? ilo ihi ? Hy Hby Hilo Hihi Hitems]; subst.
  assert (Hk : dict_get name kvs = None).
  { apply dict_get_None_keys.
    rewrite (repr_items_keys _ _ _ _ _ _ Hitems), strip_items_keys.
    now apply dict_get_None_keys. }
  cbn [MACRO.pop_idx_sets]. unfold bind, getitem, bind, get_dict.
  cbn [w_heap w_fs]. rewrite Hy, Hk. reflexivity.
Qed.

Lemma MACRO_initialize_item_missing_witness :
  let G := (@import_module Edge.macro_without_GDP []).1 in
  let w := World (@import_module Edge.macro_without_GDP []).2 Sample.disk in
  (@MACRO.initialize Edge.macro_without_GDP G [] false w).1
  = Raise (KeyError "GDP").
Proof.
  intros G w.
  assert (Hdepth : lit_depth (LDict (@MACRO_ITEMS Edge.macro_without_GDP))
                   <= @recursion_limit Edge.macro_without_GDP)
    by (vm_compute; lia).
  assert (Hloaded : @macro_items_loaded Edge.macro_without_GDP G (w_heap w))
    by (apply (@import_module_macro_items Edge.macro_without_GDP); reflexivity).
  destruct (@MACRO_initialize_item_missing Edge.macro_without_GDP G [] false w
              ["C"; "COST_NODAL"; "COST_NODAL_NET"; "DEMAND"]%string
              "GDP"%string ["I"]%string
              eq_refl eq_refl Hdepth Hloaded eq_refl eq_refl)
    as (w' & Hrun & _).
  rewrite Hrun. reflexivity.
Defined.

(** X15. If one of the six items of [MACRO_ITEMS] is a dictionary without
    'idx_sets', [MACRO.initialize] raises [KeyError] for 'idx_sets' at the
    first such item, and declares nothing; [MACRO_ITEMS] itself and every
    other object of the store are as before, and so is the file system. *)
Theorem MACRO_initialize_no_idx_sets `{Platform} G scenario with_data w
    done name rest fields :
  MACRO.without_idx_sets = done ++ name :: rest ->
  lit_wf (LDict MACRO_ITEMS) = true ->
  lit_depth (LDict MACRO_ITEMS) <= recursion_limit ->
  macro_items_loaded G (w_heap w) ->
  forallb (has_idx_sets MACRO_ITEMS) done = true ->
  dict_get name MACRO_ITEMS = Some (LDict fields) ->
  dict_get "idx_sets" fields = None ->
  exists w',
    MACRO.initialize G scenario with_data w = (Raise (KeyError "idx_sets"), w')
    /\ w_fs w' = w_fs w
    /\ extends (w_heap w) (w_heap w')
    /\ macro_items_loaded G (w_heap w').
Proof.
  intros Hsplit Hwf Hdepth Hloaded Hdone Hname Hidx.
  apply (MACRO_initialize_stops G scenario with_data w done name rest "idx_sets");
    try assumption.
  assert (Hnot : name ∉ done).
  { assert (Hnd : NoDup (done ++ name :: rest)) by (rewrite <- Hsplit; compute_done).
    apply NoDup_app in Hnd as (_ & Hdisj & _). intros Hin.
    apply (Hdisj name Hin). left. }
  intros h y a b Hr Hb.
  inversion Hr as [| |? kvs ? ? ilo ihi ? Hy Hby Hilo Hihi Hitems]; subst.
  destruct (repr_items_pop h name fields y kvs _ ilo ihi Hitems ltac:(lia))
    as (li & fkvs & Hk & Hli & Hbl & Hfk & _).
  { now rewrite dict_get_strip_other. }
  assert (Hx : dict_get "idx_sets" fkvs = None).
  { apply dict_get_None_keys. rewrite Hfk. now apply dict_get_None_keys. }
  cbn [MACRO.pop_idx_sets]. unfold bind, getitem, bind, get_dict.
  cbn [w_heap w_fs]. rewrite Hy, Hk. unfold ret.
  unfold pop, bind, get_dict. cbn [w_heap w_fs]. rewrite Hli, Hx. reflexivity.
Qed.

Lemma MACRO_initialize_no_idx_sets_witness :
  let G := (@import_module Edge.macro_bare_DEMAND []).1 in
  let w := World (@import_module Edge.macro_bare_DEMAND []).2 Sample.disk in
  (@MACRO.initialize Edge.macro_bare_DEMAND G [] false w).1
  = Raise (KeyError "idx_sets").
Proof.
  intros G w.
  assert (Hdepth : lit_depth (LDict (@MACRO_ITEMS Edge.macro_bare_DEMAND))
                   <= @recursion_limit Edge.macro_bare_DEMAND)
    by (vm_compute; lia).
  assert (Hloaded : @macro_items_loaded Edge.macro_bare_DEMAND G (w_heap w))
    by (apply (@import_module_macro_items Edge.macro_bare_DEMAND); reflexivity).
  destruct (@MACRO_initialize_no_idx_sets Edge.macro_bare_DEMAND G [] false w
              ["C"; "COST_NODAL"; "COST_NODAL_NET"]%string
              "DEMAND"%string ["GDP"; "I"]%string
              [("ix_type", LAtom (AStr "var"))]%string
              eq_refl eq_refl Hdepth Hloaded eq_refl eq_refl eq_refl)
    as (w' & Hrun & _).
  rewrite Hrun. reflexivity.
Defined.

(** X16. [MACRO.__init__] asks for the release before anything else and
    does not handle what [gams_release] raises: when the release cannot be
    found out, the constructor raises that very exception, not
    RuntimeError, and has made no object by then. *)
Theorem MACRO_init_release_unknown `{Platform} G c name options w e w1 :
  GamsRelease.gams_release w = (Raise e, w1) ->
  MACRO.__init__ G c name options w = (Raise e, w1)
  /\ w_heap w1 = w_heap w.
Proof.
  intros Hrel. split.
  - unfold MACRO.__init__, bind. now rewrite Hrel.
  - pose proof (gams_release_heap w) as Hheap. now rewrite Hrel in Hheap.
Qed.

Lemma MACRO_init_release_unknown_witness :
  (@MACRO.__init__ Edge.no_banner Sample.G C_MESSAGE_MACRO None []
     Sample.user_world).1 = Raise AttributeError
  /\ (@MACRO.__init__ Edge.no_gams Sample.G C_MACRO None []
        Sample.user_world).1 = Raise (FileNotFoundError (false, ["gams"%string])).
Proof.
  split.
  - pose (r := @GamsRelease.gams_release Edge.no_banner Sample.user_world).
    assert (Hr : r = (Raise AttributeError, r.2)) by reflexivity.
    destruct (@MACRO_init_release_unknown Edge.no_banner Sample.G C_MESSAGE_MACRO
                None [] Sample.user_world AttributeError r.2 Hr) as [Hrun _].
    rewrite Hrun. reflexivity.
  - pose (r := @GamsRelease.gams_release Edge.no_gams Sample.user_world).
    assert (Hr : r = (Raise (FileNotFoundError (false, ["gams"%string])), r.2))
      by reflexivity.
    destruct (@MACRO_init_release_unknown Edge.no_gams Sample.G C_MACRO
                None [] Sample.user_world _ r.2 Hr) as [Hrun _].
    rewrite Hrun. reflexivity.
Defined.

(** ** The lines of the options file *)

Lemma chars_append a b : PyStr.chars (a +++ b) = PyStr.chars a ++ PyStr.chars b.
Proof.
  unfold PyStr.chars. induction a as [|c a IH]; [reflexivity|].
  simpl. now rewrite IH.
Qed.

Lemma split_chars_run c l1 : forall cur l2,
  Forall (fun x => x <> c) l1 ->
  PyStr.split_chars c cur (l1 ++ l2) = PyStr.split_chars c (rev l1 ++ cur) l2.
Proof.
  induction l1 as [|x l1 IH]; intros cur l2 Hall; [reflexivity|].
  inversion Hall as [|? ? Hx Hrest]; subst.
  cbn [app PyStr.split_chars].
  destruct (Ascii.eqb_spec x c) as [->|_]; [contradiction|].
  rewrite IH by assumption. cbn [rev]. now rewrite <- app_assoc.
Qed.

(** Joining lines that hold no line feed and splitting the text again
    gives the lines back; there has to be a line, as the empty text splits
    into one empty line. *)
Lemma split_join_lines (lines : list string) :
  lines <> [] ->
  Forall (fun s => Forall (fun x => x <> ascii_of_nat 10) (PyStr.chars s)) lines ->
  PyStr.split (ascii_of_nat 10) (PyStr.join PyStr.nl lines) = lines.
Proof.
  unfold PyStr.split.
  induction lines as [|p rest IH]; intros Hne Hall; [contradiction|].
  inversion Hall as [|? ? Hp Hrest]; subst.
  destruct rest as [|q rest].
  - cbn [PyStr.join].
    rewrite <- (app_nil_r (PyStr.chars p)).
    rewrite split_chars_run by assumption.
    cbn [PyStr.split_chars map]. rewrite app_nil_r, rev_involutive.
    now rewrite of_chars_chars.
  - change (PyStr.join PyStr.nl (p :: q :: rest))
      with (p +++ PyStr.nl +++ PyStr.join PyStr.nl (q :: rest)).
    rewrite !chars_append. rewrite split_chars_run by assumption.
    change (PyStr.chars PyStr.nl) with [ascii_of_nat 10].
    cbn [app PyStr.split_chars]. rewrite Ascii.eqb_refl.
    cbn [map]. rewrite app_nil_r, rev_involutive, of_chars_chars.
    f_equal. apply IH; [discriminate|assumption].
Qed.

(** X17. The options file that [GAMSModel.run] writes has exactly one
    line per option, in the order of [cplex_opts], and no line feed at its
    end: split at the line feeds, its text gives the lines 'key = value'
    back. This needs at least one option, and keys and values that hold no
    line feed themselves. *)
Theorem optfile_one_line_per_option `{Platform} self w p l opts :
  ixmp_model_dir (m_base self) = VAtom (APath p) ->
  cplex_opts self = VRef l ->
  w_heap w !! l = Some (scalar_dict opts) ->
  w_fs w !! p = Some Dir ->
  w_fs w !! Pathlib.div p "cplex.opt" <> Some Dir ->
  opts <> [] ->
  Forall (fun ka =>
            Forall (fun x => x <> ascii_of_nat 10)
                   (PyStr.chars (ka.1 +++ " = " +++ py_str ka.2))) opts ->
  exists text,
    Pathlib.read_text (Pathlib.div p "cplex.opt")
      (w_fs (GAMSModel.write_optfile self w).2) = Ok text
    /\ PyStr.split (ascii_of_nat 10) text
       = map (fun ka => ka.1 +++ " = " +++ py_str ka.2) opts
    /\ length (PyStr.split (ascii_of_nat 10) text) = length opts.
Proof.
  intros Hdir Hopts Hl Hp Hfile Hne Hall.
  rewrite (write_optfile_run self w p l opts Hdir Hopts Hl Hp Hfile).
  cbn [snd w_fs]. exists (option_lines opts).
  assert (Hsplit : PyStr.split (ascii_of_nat 10) (option_lines opts)
                   = map (fun ka => ka.1 +++ " = " +++ py_str ka.2) opts).
  { unfold option_lines. apply split_join_lines.
    - destruct opts; [contradiction|discriminate].
    - rewrite Forall_map. exact Hall. }
  split; [|split].
  - unfold Pathlib.read_text. now rewrite lookup_insert_eq.
  - exact Hsplit.
  - rewrite Hsplit. apply length_map.
Qed.

Lemma optfile_one_line_per_option_witness :
  exists text,
    Pathlib.read_text (Pathlib.div Sample.models "cplex.opt")
      (w_fs (@GAMSModel.write_optfile Sample.posix Sample.instance
               Sample.user_world).2) = Ok text
    /\ PyStr.split (ascii_of_nat 10) text
       = ["threads = 8"; "mipgap = 0.01"]%string
    /\ length (PyStr.split (ascii_of_nat 10) text) = 2.
Proof.
  apply (@optfile_one_line_per_option Sample.posix Sample.instance
           Sample.user_world Sample.models 10 Sample.user_scalars).
  - reflexivity.
  - reflexivity.
  - reflexivity.
  - reflexivity.
  - compute_done.
  - discriminate.
  - repeat constructor; compute_done.
Defined.
